(** * Master-key and encrypted-secret management of the account manager

    A shallow embedding of [security-manager.js] (class [SecurityManager]),
    [crypto-utils.js] (class [CryptoUtils]) and the session handlers of
    [background.js], together with the platform functions they call
    ([btoa]/[atob], [TextEncoder]/[TextDecoder], [chrome.storage],
    [chrome.alarms]).  The WebCrypto primitives (PBKDF2, AES-GCM) are
    parameters. *)

From Stdlib Require Import Strings.String Strings.Ascii Strings.Byte.
From Stdlib Require Import NArith ZArith List Bool Lia.
Import ListNotations.

Local Open Scope N_scope.

Ltac Zify.zify_post_hook ::= Z.to_euclidean_division_equations.

(** ** JavaScript strings and byte arrays *)

(** A JavaScript string is a sequence of UTF-16 code units; a [Uint8Array]
    is a sequence of bytes. *)
Definition jsstring := list N.
Definition bytes := list byte.

(** String literals of the source. *)
Definition js (s : string) : jsstring :=
  map N_of_ascii (list_ascii_of_string s).

Definition jsstring_eq_dec : forall s t : jsstring, {s = t} + {s <> t} :=
  list_eq_dec N.eq_dec.

(** [s === t] on strings. *)
Definition str_eqb (s t : jsstring) : bool :=
  if jsstring_eq_dec s t then true else false.

(** Truthiness of a string: only the empty string is falsy. *)
Definition truthy (s : jsstring) : bool :=
  match s with [] => false | _ :: _ => true end.

(** Storing a number into a [Uint8Array] element keeps it modulo 256. *)
Definition byte_of_N (n : N) : byte :=
  match Byte.of_N (n mod 256) with
  | Some b => b
  | None => x00
  end.

(** ** Base64: [btoa] and [atob]

    The two functions as the HTML standard defines them: [btoa] is
    base64 encoding with padding of a string of code units below 256,
    [atob] is forgiving-base64 decoding. *)

Module Base64.

(** The character of a sextet in the alphabet [A-Za-z0-9+/]. *)
Definition char_of_sextet (n : N) : N :=
  if n <? 26 then 65 + n
  else if n <? 52 then 71 + n
  else if n <? 62 then n - 4
  else if n =? 62 then 43
  else 47.

Definition sextet_of_char (c : N) : option N :=
  if (65 <=? c) && (c <=? 90) then Some (c - 65)
  else if (97 <=? c) && (c <=? 122) then Some (c - 71)
  else if (48 <=? c) && (c <=? 57) then Some (c + 4)
  else if c =? 43 then Some 62
  else if c =? 47 then Some 63
  else None.

Definition is_alphabet (c : N) : bool :=
  match sextet_of_char c with Some _ => true | None => false end.

Definition pad : N := 61.

(** Base64 encoding of a byte sequence, with padding. *)
Fixpoint encode (l : bytes) : jsstring :=
  match l with
  | [] => []
  | [a] =>
      let a := Byte.to_N a in
      [char_of_sextet (a / 4); char_of_sextet ((a mod 4) * 16); pad; pad]
  | [a; b] =>
      let a := Byte.to_N a in
      let b := Byte.to_N b in
      [char_of_sextet (a / 4);
       char_of_sextet ((a mod 4) * 16 + b / 16);
       char_of_sextet ((b mod 16) * 4);
       pad]
  | a :: b :: c :: t =>
      let a := Byte.to_N a in
      let b := Byte.to_N b in
      let c := Byte.to_N c in
      char_of_sextet (a / 4)
        :: char_of_sextet ((a mod 4) * 16 + b / 16)
        :: char_of_sextet ((b mod 16) * 4 + c / 64)
        :: char_of_sextet (c mod 64)
        :: encode t
  end.

(** [btoa(data)]: fails (InvalidCharacterError) when [data] holds a code
    unit above U+00FF, otherwise encodes the code units as bytes. *)
Definition btoa (data : jsstring) : option jsstring :=
  if forallb (fun c => c <=? 255) data
  then Some (encode (map byte_of_N data))
  else None.

(** Forgiving-base64 decoding, as [atob] does it. *)
Definition is_ascii_whitespace (c : N) : bool :=
  (c =? 9) || (c =? 10) || (c =? 12) || (c =? 13) || (c =? 32).

(** When the length is a multiple of four, one or two trailing [=] are
    removed. *)
Definition strip_padding (data : jsstring) : jsstring :=
  if N.of_nat (length data) mod 4 =? 0 then
    match rev data with
    | c1 :: t =>
        if c1 =? pad then
          match t with
          | c2 :: t' => if c2 =? pad then rev t' else rev t
          | [] => []
          end
        else data
    | [] => data
    end
  else data.

Fixpoint sextets (data : jsstring) : option (list N) :=
  match data with
  | [] => Some []
  | c :: t =>
      match sextet_of_char c, sextets t with
      | Some n, Some l => Some (n :: l)
      | _, _ => None
      end
  end.

Fixpoint decode_sextets (l : list N) : bytes :=
  match l with
  | a :: b :: c :: d :: t =>
      byte_of_N (a * 4 + b / 16)
        :: byte_of_N ((b mod 16) * 16 + c / 4)
        :: byte_of_N ((c mod 4) * 64 + d)
        :: decode_sextets t
  | [a; b; c] =>
      [byte_of_N (a * 4 + b / 16); byte_of_N ((b mod 16) * 16 + c / 4)]
  | [a; b] => [byte_of_N (a * 4 + b / 16)]
  | _ => []
  end.

Definition decode (data : jsstring) : option bytes :=
  let data := filter (fun c => negb (is_ascii_whitespace c)) data in
  let data := strip_padding data in
  if N.of_nat (length data) mod 4 =? 1 then None
  else option_map decode_sextets (sextets data).

(** [atob(data)]: the decoded bytes as a binary string, or failure
    (InvalidCharacterError). *)
Definition atob (data : jsstring) : option jsstring :=
  option_map (map Byte.to_N) (decode data).

End Base64.

(** ** UTF-8: [TextEncoder] and [TextDecoder]

    The encoder and the decoder of the Encoding standard, by arithmetic on
    code points ([cp / 64] for [cp >> 6], [cp mod 64] for [cp & 0x3F]). *)

Module UTF8.

Definition is_high (c : N) : bool := (0xD800 <=? c) && (c <=? 0xDBFF).
Definition is_low (c : N) : bool := (0xDC00 <=? c) && (c <=? 0xDFFF).
Definition replacement : N := 0xFFFD.
Definition BOM : N := 0xFEFF.

(** Conversion of a JavaScript string to a sequence of Unicode scalar
    values (a USVString): a surrogate pair is combined, an unpaired
    surrogate becomes U+FFFD. *)
Fixpoint scalar_values (s : jsstring) : list N :=
  match s with
  | [] => []
  | c :: t =>
      if is_high c then
        match t with
        | d :: t' =>
            if is_low d
            then (0x10000 + (c - 0xD800) * 0x400 + (d - 0xDC00))
                   :: scalar_values t'
            else replacement :: scalar_values t
        | [] => [replacement]
        end
      else if is_low c then replacement :: scalar_values t
      else c :: scalar_values t
  end.

(** The UTF-8 encoder on one scalar value. *)
Definition encode_cp (cp : N) : bytes :=
  if cp <? 0x80 then [byte_of_N cp]
  else if cp <? 0x800 then
    [byte_of_N (0xC0 + cp / 64); byte_of_N (0x80 + cp mod 64)]
  else if cp <? 0x10000 then
    [byte_of_N (0xE0 + cp / 4096);
     byte_of_N (0x80 + (cp / 64) mod 64);
     byte_of_N (0x80 + cp mod 64)]
  else
    [byte_of_N (0xF0 + cp / 262144);
     byte_of_N (0x80 + (cp / 4096) mod 64);
     byte_of_N (0x80 + (cp / 64) mod 64);
     byte_of_N (0x80 + cp mod 64)].

(** [new TextEncoder().encode(s)]. *)
Definition encode (s : jsstring) : bytes :=
  flat_map encode_cp (scalar_values s).

(** The UTF-8 decoder (replacement error mode): a pending multi-byte
    sequence holds the code point so far, the number of bytes still
    needed and the bounds of the next byte. *)
Record pending := mkPending {
  p_cp : N;
  p_needed : N;
  p_lower : N;
  p_upper : N
}.

Definition start (b : N) : list N * option pending :=
  if b <=? 0x7F then ([b], None)
  else if (0xC2 <=? b) && (b <=? 0xDF) then
    ([], Some (mkPending (b mod 32) 1 0x80 0xBF))
  else if (0xE0 <=? b) && (b <=? 0xEF) then
    ([], Some (mkPending (b mod 16) 2
                 (if b =? 0xE0 then 0xA0 else 0x80)
                 (if b =? 0xED then 0x9F else 0xBF)))
  else if (0xF0 <=? b) && (b <=? 0xF4) then
    ([], Some (mkPending (b mod 8) 3
                 (if b =? 0xF0 then 0x90 else 0x80)
                 (if b =? 0xF4 then 0x8F else 0xBF)))
  else ([replacement], None).

Definition step (st : option pending) (b : N) : list N * option pending :=
  match st with
  | None => start b
  | Some p =>
      if (p_lower p <=? b) && (b <=? p_upper p) then
        let cp := p_cp p * 64 + b mod 64 in
        if p_needed p =? 1 then ([cp], None)
        else ([], Some (mkPending cp (p_needed p - 1) 0x80 0xBF))
      else
        (* the byte is put back and read again from the initial state *)
        let (out, st') := start b in (replacement :: out, st')
  end.

Fixpoint decode_from (st : option pending) (bs : bytes) : list N :=
  match bs with
  | [] => match st with None => [] | Some _ => [replacement] end
  | b :: t =>
      let (out, st') := step st (Byte.to_N b) in
      out ++ decode_from st' t
  end.

(** Scalar values back to UTF-16 code units. *)
Definition units_of_cp (cp : N) : jsstring :=
  if cp <? 0x10000 then [cp]
  else [0xD800 + (cp - 0x10000) / 0x400; 0xDC00 + (cp - 0x10000) mod 0x400].

Definition strip_bom (cps : list N) : list N :=
  match cps with
  | c :: t => if c =? BOM then t else cps
  | [] => []
  end.

(** [new TextDecoder().decode(bs)]: UTF-8, not fatal, [ignoreBOM] false,
    so that a leading U+FEFF is dropped. *)
Definition decode (bs : bytes) : jsstring :=
  flat_map units_of_cp (strip_bom (decode_from None bs)).

(** Well-formed UTF-16: code units below 2^16, every surrogate paired. *)
Fixpoint well_formed (s : jsstring) : bool :=
  match s with
  | [] => true
  | c :: t =>
      if is_high c then
        match t with
        | d :: t' => is_low d && well_formed t'
        | [] => false
        end
      else negb (is_low c) && (c <? 0x10000) && well_formed t
  end.

Definition starts_with_bom (s : jsstring) : bool :=
  match s with
  | c :: _ => c =? BOM
  | [] => false
  end.

End UTF8.

(** ** JavaScript values, exceptions, the WebCrypto primitives *)

(** An AES-GCM [CryptoKey] is represented by its raw key material, what
    [crypto.subtle.exportKey('raw', key)] returns. *)
Definition CryptoKey := bytes.

(** The values that reach the [password], [plaintext] and [key]
    parameters. *)
Inductive jsval : Type :=
| JUndefined
| JNull
| JString (s : jsstring)
| JCryptoKey (k : CryptoKey).

Definition is_truthy (v : jsval) : bool :=
  match v with
  | JUndefined | JNull => false
  | JString s => truthy s
  | JCryptoKey _ => true
  end.

(** The abstract operation ToString; a [CryptoKey] object has no
    [toString] of its own and prints by its class name. *)
Definition ToString (v : jsval) : jsstring :=
  match v with
  | JUndefined => js "undefined"
  | JNull => js "null"
  | JString s => s
  | JCryptoKey _ => js "[object CryptoKey]"
  end.

(** [encoder.encode(v)]: the parameter is an optional string defaulting
    to the empty string; any other value is converted by ToString. *)
Definition TextEncoder_encode (v : jsval) : bytes :=
  match v with
  | JUndefined => []
  | _ => UTF8.encode (ToString v)
  end.

(** Messages of [new Error(...)] in [CryptoUtils]. *)
Inductive error_message : Type :=
| ErrKeyDerivation      (* '密钥派生失败' *)
| ErrEncrypt            (* '加密失败' *)
| ErrDecrypt            (* '解密失败：密码可能不正确' *)
| ErrNotEncrypted       (* '密码格式不正确，不是有效的加密数据' *)
| ErrNoEncryptKey       (* '未提供加密密钥，无法加密密码' *)
| ErrNoDecryptKey.      (* '未提供解密密钥，无法解密密码' *)

Inductive exn : Type :=
| InvalidCharacterError            (* thrown by btoa and atob *)
| OperationError                   (* thrown by crypto.subtle.decrypt *)
| TypeError                        (* a property read on undefined *)
| Error (m : error_message).

(** PBKDF2 with SHA-256 deriving a 256-bit AES-GCM key, and AES-GCM with
    a 128-bit tag: [aes_gcm_decrypt] is [None] when
    [crypto.subtle.decrypt] rejects. *)
Class WebCrypto : Type := {
  pbkdf2 : bytes -> bytes -> N -> CryptoKey;
  aes_gcm_encrypt : CryptoKey -> bytes -> bytes -> bytes;
  aes_gcm_decrypt : CryptoKey -> bytes -> bytes -> option bytes
}.

(** What AES-GCM guarantees and the development relies on: decryption
    inverts encryption under the same key and nonce, and the ciphertext is
    the plaintext length plus the 16-byte tag. *)
Definition aead_correct (wc : WebCrypto) : Prop :=
  forall k iv m, length iv = 12%nat ->
    aes_gcm_decrypt k iv (aes_gcm_encrypt k iv m) = Some m.

Definition aead_length (wc : WebCrypto) : Prop :=
  forall k iv m,
    length (aes_gcm_encrypt k iv m) = (length m + 16)%nat.

(** ** The stores and the world *)

Record SecurityConfig : Type := mkConfig {
  cfg_version : jsstring;
  cfg_salt : jsstring;
  cfg_iterations : N;
  cfg_verificationData : jsstring;
  cfg_createdAt : Z
}.

Record Account : Type := mkAccount {
  acc_id : jsstring;
  acc_envId : jsstring;
  acc_username : jsstring;
  acc_password : option jsstring   (* [None]: the property is undefined *)
}.

Record Environment : Type := mkEnvironment {
  env_id : jsstring;
  env_name : jsstring;
  env_loginUrl : jsstring
}.

(** The result of
    [chrome.storage.local.get(['environments', 'accounts', 'masterPassword'])]. *)
Record OldData : Type := mkOldData {
  od_environments : option (list Environment);
  od_accounts : option (list Account);
  od_masterPassword : option jsstring
}.

Record Backup : Type := mkBackup {
  bk_timestamp : Z;
  bk_version : jsstring;
  bk_data : OldData
}.

(** [chrome.storage.local]. *)
Record LocalStorage : Type := mkLocal {
  securityConfig : option SecurityConfig;
  masterPassword : option jsstring;
  accounts : option (list Account);
  environments : option (list Environment);
  backup_v1_2_0 : option Backup
}.

(** [chrome.storage.session], the ephemeral mirror of the session. *)
Record SessionStorage : Type := mkSession {
  ss_sessionKey : option jsstring;
  ss_sessionMode : option jsstring;
  ss_sessionCreatedAt : option Z
}.

Definition empty_session : SessionStorage := mkSession None None None.

Inductive log_entry : Type :=
| WarnDecryptFailed (username : jsstring) (e : exn).

(** The time zone of the host.  [utc_offset t] is the offset of local time
    from UTC in force at the instant [t] (LocalTZA(t, true) of ECMAScript):
    by it [toDateString], [getFullYear], [getMonth] and [getDate] read an
    instant.  [local_offset lt] is the offset by which the [Date]
    constructor reads the local time [lt] (LocalTZA(lt, false)).  Both
    change with daylight saving time; nothing is assumed of them. *)
Record TimeZone : Type := mkTimeZone {
  utc_offset : Z -> Z;
  local_offset : Z -> Z
}.

(** A zone without daylight saving time. *)
Definition fixed_zone (offset : Z) : TimeZone :=
  mkTimeZone (fun _ => offset) (fun _ => offset).

(** The world: the simulated clock (milliseconds since the epoch) and the
    time zone of the host, the random source read by
    [crypto.getRandomValues], both storage areas, the scheduled time of
    the pending [sessionTimeout] alarm, the module variables [sessionKey]
    and [sessionMode] of the service worker, and the console.  A handler
    runs at one instant of the clock; both storage areas are available. *)
Record World : Type := mkWorld {
  now : Z;
  tz_offset : TimeZone;
  entropy : nat -> byte;
  consumed : nat;
  local : LocalStorage;
  session : SessionStorage;
  alarm : option Z;
  sessionKey : option jsstring;
  sessionMode : jsstring;
  console : list log_entry
}.

Definition set_local (f : LocalStorage -> LocalStorage) (w : World) : World :=
  mkWorld (now w) (tz_offset w) (entropy w) (consumed w) (f (local w))
          (session w) (alarm w) (sessionKey w) (sessionMode w) (console w).

Definition set_session (s : SessionStorage) (w : World) : World :=
  mkWorld (now w) (tz_offset w) (entropy w) (consumed w) (local w)
          s (alarm w) (sessionKey w) (sessionMode w) (console w).

Definition set_alarm (a : option Z) (w : World) : World :=
  mkWorld (now w) (tz_offset w) (entropy w) (consumed w) (local w)
          (session w) a (sessionKey w) (sessionMode w) (console w).

Definition set_memory (k : option jsstring) (m : jsstring) (w : World) : World :=
  mkWorld (now w) (tz_offset w) (entropy w) (consumed w) (local w)
          (session w) (alarm w) k m (console w).

Definition set_now (t : Z) (w : World) : World :=
  mkWorld t (tz_offset w) (entropy w) (consumed w) (local w)
          (session w) (alarm w) (sessionKey w) (sessionMode w) (console w).

Definition add_log (e : log_entry) (w : World) : World :=
  mkWorld (now w) (tz_offset w) (entropy w) (consumed w) (local w)
          (session w) (alarm w) (sessionKey w) (sessionMode w)
          (console w ++ [e]).

(** ** Computations: state and exceptions *)

Inductive result (A : Type) : Type :=
| Ok (a : A)
| Throw (e : exn).
Arguments Ok {A} a.
Arguments Throw {A} e.

Definition M (A : Type) : Type := World -> result A * World.

Definition ret {A} (a : A) : M A := fun w => (Ok a, w).

Definition throw {A} (e : exn) : M A := fun w => (Throw e, w).

Definition bind {A B} (c : M A) (k : A -> M B) : M B :=
  fun w =>
    match c w with
    | (Ok a, w') => k a w'
    | (Throw e, w') => (Throw e, w')
    end.

(** [try { c } catch (e) { h e }]. *)
Definition try_catch {A} (c : M A) (h : exn -> M A) : M A :=
  fun w =>
    match c w with
    | (Ok a, w') => (Ok a, w')
    | (Throw e, w') => h e w'
    end.

Definition gets {A} (f : World -> A) : M A := fun w => (Ok (f w), w).

Definition modify (f : World -> World) : M unit := fun w => (Ok tt, f w).

Notation "x <- c ;; k" := (bind c (fun x => k))
  (at level 61, c at next level, right associativity).
Notation "c ;;; k" := (bind c (fun _ => k))
  (at level 61, right associativity).

(** [crypto.getRandomValues(new Uint8Array(n))] reads the next [n] bytes
    of the random source. *)
Definition random_bytes (n : nat) (w : World) : bytes :=
  map (fun i => entropy w (consumed w + i)%nat) (seq 0 n).

Definition consume (n : nat) (w : World) : World :=
  mkWorld (now w) (tz_offset w) (entropy w) (consumed w + n)%nat (local w)
          (session w) (alarm w) (sessionKey w) (sessionMode w) (console w).

Definition getRandomValues (n : nat) : M bytes :=
  fun w => (Ok (random_bytes n w), consume n w).

(** [Date.now()]. *)
Definition Date_now : M Z := gets now.

(** ** background.js: the session authority *)

Module Background.

Local Open Scope Z_scope.

Definition SESSION_DURATION : Z := 30 * 60 * 1000.

Record response : Type := mkResponse {
  r_success : bool;
  r_keyData : option jsstring
}.

(** [m || 'default'] on a string. *)
Definition or_default (m : jsstring) : jsstring :=
  if truthy m then m else js "default".

(** The local calendar day of an instant: [new Date(t).toDateString()]
    prints the date of the local time of [t], which is [t] plus the offset
    in force at [t], and two instants print the same string exactly when
    they have the same local day. *)
Definition local_day (tz : TimeZone) (t : Z) : Z :=
  (t + utc_offset tz t) / 86400000.

(** [new Date(now.getFullYear(), now.getMonth(), now.getDate(), 23, 59, 59)]
    for [now] at the instant [t]: 23:59:59 of the local date of [t] is a
    local time, which the constructor reads by the offset that belongs to
    that local time.  (A year from 0 to 99 would be read as 1900 + year:
    the statements about this instant take the local clock past 1970.) *)
Definition end_of_day (tz : TimeZone) (t : Z) : Z :=
  let endOfDay := local_day tz t * 86400000 + 86399000 in
  endOfDay - local_offset tz endOfDay.

(** [Math.ceil(a / b)] for integers [a] and positive [b]. *)
Definition ceil_div (a b : Z) : Z := - ((- a) / b).

(** [chrome.alarms.create(SESSION_ALARM, { delayInMinutes })]. *)
Definition alarms_create (delayInMinutes : Z) : M unit :=
  t <- Date_now ;;
  modify (set_alarm (Some (t + delayInMinutes * 60000))).

Definition alarms_clear : M unit := modify (set_alarm None).

Definition session_remove : M unit := modify (set_session empty_session).

(** [request.action === 'setSessionKey']. *)
Definition setSessionKey (keyData mode : jsstring) : M response :=
  let mode := or_default mode in
  modify (set_memory (Some keyData) mode) ;;;
  alarms_clear ;;;
  (if str_eqb mode (js "default") then alarms_create 30
   else if str_eqb mode (js "today") then
     t <- Date_now ;;
     tz <- gets tz_offset ;;
     let minutesLeft := Z.max 1 (ceil_div (end_of_day tz t - t) 60000) in
     alarms_create minutesLeft
   else ret tt) ;;;
  t <- Date_now ;;
  modify (set_session (mkSession (Some keyData) (Some mode) (Some t))) ;;;
  ret (mkResponse true None).

(** The expiry rule recomputed from the mirror. *)
Definition expired (tz : TimeZone) (mode : jsstring) (createdAt t : Z)
  : bool :=
  if str_eqb mode (js "default") && (t - createdAt >? 30 * 60 * 1000)
  then true
  else if str_eqb mode (js "today")
  then negb (local_day tz createdAt =? local_day tz t)
  else false.

Definition session_expired_response : response := mkResponse false None.

(** The second half of [request.action === 'getSessionKey']: the key is
    not in memory and is looked up in the mirror. *)
Definition restore_from_mirror : M response :=
  data <- gets session ;;
  match ss_sessionKey data with
  | Some sk =>
      if truthy sk then
        let mode :=
          match ss_sessionMode data with
          | Some m => or_default m
          | None => js "default"
          end in
        let createdAt :=
          match ss_sessionCreatedAt data with
          | Some c => c
          | None => 0
          end in
        t <- Date_now ;;
        tz <- gets tz_offset ;;
        if negb (expired tz mode createdAt t) then
          modify (set_memory (Some sk) mode) ;;;
          ret (mkResponse true (Some sk))
        else
          session_remove ;;;
          ret session_expired_response
      else ret session_expired_response
  | None => ret session_expired_response
  end.

(** [request.action === 'getSessionKey']: [if (sessionKey)] holds of a
    non-empty string only. *)
Definition getSessionKey : M response :=
  k <- gets sessionKey ;;
  match k with
  | Some key =>
      if truthy key then ret (mkResponse true (Some key))
      else restore_from_mirror
  | None => restore_from_mirror
  end.

(** [request.action === 'clearSession']. *)
Definition clearSession : M response :=
  modify (set_memory None (js "default")) ;;;
  alarms_clear ;;;
  session_remove ;;;
  ret (mkResponse true None).

(** The [chrome.alarms.onAlarm] listener, for the alarm [SESSION_ALARM]. *)
Definition onAlarm : M unit :=
  modify (set_memory None (js "default")) ;;;
  session_remove.

(** Delivery of the pending alarm: it cannot happen before the scheduled
    time; once delivered the alarm is gone and the listener has run. *)
Definition alarm_fires (w : World) : World :=
  match alarm w with
  | Some ta =>
      if ta <=? now w then snd (onAlarm (set_alarm None w)) else w
  | None => w
  end.

(** The service worker is stopped and started again: its module
    variables are initialised anew, the storage areas persist. *)
Definition restart (w : World) : World :=
  set_memory None (js "default") w.

(** The simulated clock advances. *)
Definition tick (dt : Z) (w : World) : World := set_now (now w + dt) w.

(** [checkNeedsMigration()]. *)
Definition checkNeedsMigration : M bool :=
  mp <- gets (fun w => masterPassword (local w)) ;;
  ret (match mp with Some p => truthy p | None => false end).

(** [backupOldData()]. *)
Definition backupOldData : M unit :=
  l <- gets local ;;
  let oldData := mkOldData (environments l) (accounts l) (masterPassword l) in
  t <- Date_now ;;
  modify (set_local (fun l =>
    mkLocal (securityConfig l) (masterPassword l) (accounts l)
            (environments l) (Some (mkBackup t (js "1.2.0") oldData)))).

(** The [chrome.runtime.onInstalled] listener with
    [details.reason === 'update']. *)
Definition onInstalled_update : M unit :=
  needsMigration <- checkNeedsMigration ;;
  if needsMigration then backupOldData else ret tt.

End Background.

(** ** crypto-utils.js: class CryptoUtils *)

Module CryptoUtils.

Section WithCrypto.
Context {wc : WebCrypto}.

(** [deriveKey(password, salt)]: the password goes through
    [encoder.encode].  The primitive is total, so the [catch] of the
    source is never entered. *)
Definition deriveKey (password : jsval) (salt : bytes) : CryptoKey :=
  pbkdf2 (TextEncoder_encode password) salt 100000.

Definition generateSalt : M bytes := getRandomValues 16.

Definition generateIV : M bytes := getRandomValues 12.

Definition arrayBufferToBase64 (buffer : bytes) : M jsstring :=
  let binary := map Byte.to_N buffer in
  match Base64.btoa binary with
  | Some s => ret s
  | None => throw InvalidCharacterError
  end.

Definition base64ToArrayBuffer (base64 : jsval) : M bytes :=
  match Base64.atob (ToString base64) with
  | Some binary => ret (map byte_of_N binary)
  | None => throw InvalidCharacterError
  end.

(** [encrypt(plaintext, password)]: salt, then nonce, are drawn;
    the result is [salt ‖ iv ‖ ciphertext] in base64. *)
Definition encrypt (plaintext password : jsval) : M jsstring :=
  try_catch
    (let data := TextEncoder_encode plaintext in
     salt <- generateSalt ;;
     iv <- generateIV ;;
     let key := deriveKey password salt in
     let encrypted := aes_gcm_encrypt key iv data in
     arrayBufferToBase64 (salt ++ iv ++ encrypted))
    (fun _ => throw (Error ErrEncrypt)).

(** [decrypt(ciphertext, password)]. *)
Definition decrypt (ciphertext password : jsval) : M jsstring :=
  try_catch
    (data <- base64ToArrayBuffer ciphertext ;;
     let salt := firstn 16 data in
     let iv := firstn 12 (skipn 16 data) in
     let encrypted := skipn 28 data in
     let key := deriveKey password salt in
     match aes_gcm_decrypt key iv encrypted with
     | Some decrypted => ret (UTF8.decode decrypted)
     | None => throw OperationError
     end)
    (fun _ => throw (Error ErrDecrypt)).

(** [/^[A-Za-z0-9+/]+={0,2}$/.test(str)]: a non-empty run of alphabet
    characters, then at most two [=], then the end. *)
Fixpoint skip_alphabet (s : jsstring) : jsstring :=
  match s with
  | c :: t => if Base64.is_alphabet c then skip_alphabet t else s
  | [] => []
  end.

Definition base64Regex_test (str : jsstring) : bool :=
  match str with
  | c :: t =>
      Base64.is_alphabet c &&
      match skip_alphabet t with
      | [] | [61] | [61; 61] => true
      | _ => false
      end
  | [] => false
  end.

(** [isBase64(str)]. *)
Definition isBase64 (str : jsval) : bool :=
  match str with
  | JString s =>
      if negb (truthy s) then false
      else if negb (N.of_nat (length s) mod 4 =? 0) then false
      else if negb (base64Regex_test s) then false
      else
        match Base64.atob s with
        | Some decoded => negb (N.of_nat (length decoded) <? 28)
        | None => false
        end
  | _ => false
  end.

(** [encryptPassword(password, key = null)]. *)
Definition encryptPassword (password key : jsval) : M jsstring :=
  if negb (is_truthy key) then throw (Error ErrNoEncryptKey)
  else encrypt password key.

(** [decryptPassword(encryptedPassword, key = null)]. *)
Definition decryptPassword (encryptedPassword key : jsval) : M jsstring :=
  if negb (isBase64 encryptedPassword) then throw (Error ErrNotEncrypted)
  else if negb (is_truthy key) then throw (Error ErrNoDecryptKey)
  else decrypt encryptedPassword key.

End WithCrypto.

End CryptoUtils.

(** ** security-manager.js: class SecurityManager *)

Module SecurityManager.

Inductive message : Type :=
| MsgEmptyPassword          (* '密码不能为空' *)
| MsgTooShort               (* '主密码至少需要 8 位' *)
| MsgNeedUpper              (* '主密码需包含至少一个大写字母' *)
| MsgNeedLower              (* '主密码需包含至少一个小写字母' *)
| MsgNeedNumber             (* '主密码需包含至少一个数字' *)
| MsgStrengthOk             (* '密码强度符合要求' *)
| MsgInitOk                 (* '主密码设置成功' *)
| MsgInitFailed (e : exn)   (* '初始化失败：' + error.message *)
| MsgNoConfig               (* '未找到安全配置，请先设置主密码' *)
| MsgVerifyOk               (* '主密码验证成功' *)
| MsgWrongPassword          (* '主密码错误' *)
| MsgVerifyFailed (e : exn) (* '验证失败：' + error.message *)
| MsgNoOldData              (* '未找到旧版本数据' *)
| MsgOldPasswordWrong       (* '旧主密码错误' *)
| MsgMigrateOk              (* '数据迁移成功' *)
| MsgMigrateFailed (e : exn). (* '迁移失败：' + error.message *)

Record outcome : Type := mkOutcome {
  success : bool;
  msg : message;
  key : option CryptoKey
}.

Definition VERIFICATION_TEXT : jsstring := js "account-manager-security-v2".
Definition PBKDF2_ITERATIONS : N := 120000.
Definition SALT_LENGTH : nat := 16.
Definition PASSWORD_MIN_LENGTH : N := 8.

(** [validatePasswordStrength(password)] as [(valid, message)]. *)
Definition validatePasswordStrength (password : jsstring) : bool * message :=
  if negb (truthy password) then (false, MsgEmptyPassword)
  else if N.of_nat (length password) <? PASSWORD_MIN_LENGTH
  then (false, MsgTooShort)
  else
    let hasUpper := existsb (fun c => (65 <=? c) && (c <=? 90)) password in
    let hasLower := existsb (fun c => (97 <=? c) && (c <=? 122)) password in
    let hasNumber := existsb (fun c => (48 <=? c) && (c <=? 57)) password in
    if negb hasUpper then (false, MsgNeedUpper)
    else if negb hasLower then (false, MsgNeedLower)
    else if negb hasNumber then (false, MsgNeedNumber)
    else (true, MsgStrengthOk).

Section WithCrypto.
Context {wc : WebCrypto}.

(** Whether the page has loaded [crypto-utils.js] ([window.cryptoUtils]). *)
Variable window_cryptoUtils : bool.

Definition generateSalt : M bytes := getRandomValues SALT_LENGTH.

Definition arrayBufferToBase64 (buffer : bytes) : M jsstring :=
  let binary := map Byte.to_N buffer in
  match Base64.btoa binary with
  | Some s => ret s
  | None => throw InvalidCharacterError
  end.

Definition base64ToArrayBuffer (base64 : jsstring) : M bytes :=
  match Base64.atob base64 with
  | Some binary => ret (map byte_of_N binary)
  | None => throw InvalidCharacterError
  end.

(** [deriveKey(password, salt)]: the iteration count is the constant of
    the class. *)
Definition deriveKey (password : jsstring) (salt : bytes) : CryptoKey :=
  pbkdf2 (UTF8.encode password) salt PBKDF2_ITERATIONS.

(** [encrypt(plaintext, key)]: [iv ‖ ciphertext] in base64. *)
Definition encrypt (plaintext : jsval) (k : CryptoKey) : M jsstring :=
  let data := TextEncoder_encode plaintext in
  iv <- getRandomValues 12 ;;
  let encrypted := aes_gcm_encrypt k iv data in
  arrayBufferToBase64 (iv ++ encrypted).

(** [decrypt(ciphertext, key)]. *)
Definition decrypt (ciphertext : jsstring) (k : CryptoKey) : M jsstring :=
  data <- base64ToArrayBuffer ciphertext ;;
  let iv := firstn 12 data in
  let encrypted := skipn 12 data in
  match aes_gcm_decrypt k iv encrypted with
  | Some decrypted => ret (UTF8.decode decrypted)
  | None => throw OperationError
  end.

Definition set_securityConfig (c : SecurityConfig) : M unit :=
  modify (set_local (fun l =>
    mkLocal (Some c) (masterPassword l) (accounts l) (environments l)
            (backup_v1_2_0 l))).

(** [initializeMasterPassword(masterPassword)]. *)
Definition initializeMasterPassword (masterPassword : jsstring) : M outcome :=
  try_catch
    (let validation := validatePasswordStrength masterPassword in
     if negb (fst validation) then ret (mkOutcome false (snd validation) None)
     else
       salt <- generateSalt ;;
       let k := deriveKey masterPassword salt in
       verificationData <- encrypt (JString VERIFICATION_TEXT) k ;;
       salt64 <- arrayBufferToBase64 salt ;;
       t <- Date_now ;;
       set_securityConfig
         (mkConfig (js "2.0") salt64 PBKDF2_ITERATIONS verificationData t) ;;;
       keyData <- arrayBufferToBase64 k ;;
       Background.setSessionKey keyData (js "default") ;;;
       ret (mkOutcome true MsgInitOk None))
    (fun e => ret (mkOutcome false (MsgInitFailed e) None)).

(** [verifyMasterPassword(inputPassword, sessionMode = 'default')]. *)
Definition verifyMasterPassword (inputPassword sessionMode : jsstring)
  : M outcome :=
  try_catch
    (cfg <- gets (fun w => securityConfig (local w)) ;;
     match cfg with
     | None => ret (mkOutcome false MsgNoConfig None)
     | Some config =>
         salt <- base64ToArrayBuffer (cfg_salt config) ;;
         let k := deriveKey inputPassword salt in
         try_catch
           (decrypted <- decrypt (cfg_verificationData config) k ;;
            if str_eqb decrypted VERIFICATION_TEXT then
              keyData <- arrayBufferToBase64 k ;;
              Background.setSessionKey keyData sessionMode ;;;
              ret (mkOutcome true MsgVerifyOk (Some k))
            else ret (mkOutcome false MsgWrongPassword None))
           (fun _ => ret (mkOutcome false MsgWrongPassword None))
     end)
    (fun e => ret (mkOutcome false (MsgVerifyFailed e) None)).

(** [hasSecurityConfig()] and [needsMigration()]. *)
Definition hasSecurityConfig : M bool :=
  cfg <- gets (fun w => securityConfig (local w)) ;;
  ret (match cfg with Some _ => true | None => false end).

Definition needsMigration : M bool :=
  mp <- gets (fun w => masterPassword (local w)) ;;
  ret (match mp with Some p => truthy p | None => false end).

Definition jsval_of_password (p : option jsstring) : jsval :=
  match p with
  | Some s => JString s
  | None => JUndefined
  end.

(** Step 3 of the migration, one account: the account with its
    [decryptedPassword]. *)
Definition legacy_decrypt (oldMasterPassword : jsstring) (account : Account)
  : M (Account * jsval) :=
  try_catch
    (if window_cryptoUtils && is_truthy (jsval_of_password (acc_password account))
     then
       decrypted <- CryptoUtils.decrypt (jsval_of_password (acc_password account))
                      (JString oldMasterPassword) ;;
       ret (account, JString decrypted)
     else ret (account, jsval_of_password (acc_password account)))
    (fun error =>
       modify (add_log (WarnDecryptFailed (acc_username account) error)) ;;;
       ret (account, jsval_of_password (acc_password account))).

Fixpoint legacy_decrypt_all (oldMasterPassword : jsstring)
    (accounts : list Account) : M (list (Account * jsval)) :=
  match accounts with
  | [] => ret []
  | account :: rest =>
      d <- legacy_decrypt oldMasterPassword account ;;
      ds <- legacy_decrypt_all oldMasterPassword rest ;;
      ret (d :: ds)
  end.

(** Step 5 of the migration: every [decryptedPassword] is encrypted under
    the new key and replaces [password]. *)
Fixpoint reencrypt_all (newKey : CryptoKey)
    (decryptedAccounts : list (Account * jsval)) : M (list Account) :=
  match decryptedAccounts with
  | [] => ret []
  | (account, decryptedPassword) :: rest =>
      encrypted <- encrypt decryptedPassword newKey ;;
      accs <- reencrypt_all newKey rest ;;
      ret (mkAccount (acc_id account) (acc_envId account)
                     (acc_username account) (Some encrypted) :: accs)
  end.

(** [migrateFromOldVersion(oldMasterPassword, newMasterPassword)]. *)
Definition migrateFromOldVersion (oldMasterPassword newMasterPassword : jsstring)
  : M outcome :=
  try_catch
    (oldData <- gets local ;;
     match masterPassword oldData with
     | None => ret (mkOutcome false MsgNoOldData None)
     | Some stored =>
         if negb (truthy stored) then ret (mkOutcome false MsgNoOldData None)
         else if negb (str_eqb stored oldMasterPassword)
         then ret (mkOutcome false MsgOldPasswordWrong None)
         else
           let accs := match accounts oldData with Some l => l | None => [] end in
           decryptedAccounts <- legacy_decrypt_all oldMasterPassword accs ;;
           initResult <- initializeMasterPassword newMasterPassword ;;
           if negb (success initResult) then ret initResult
           else
             cfg <- gets (fun w => securityConfig (local w)) ;;
             match cfg with
             | None => throw TypeError
             | Some config =>
                 newSalt <- base64ToArrayBuffer (cfg_salt config) ;;
                 let newKey := deriveKey newMasterPassword newSalt in
                 reEncryptedAccounts <- reencrypt_all newKey decryptedAccounts ;;
                 modify (set_local (fun l =>
                   mkLocal (securityConfig l) (masterPassword l)
                           (Some reEncryptedAccounts) (environments l)
                           (backup_v1_2_0 l))) ;;;
                 modify (set_local (fun l =>
                   mkLocal (securityConfig l) None (accounts l)
                           (environments l) (backup_v1_2_0 l))) ;;;
                 ret (mkOutcome true MsgMigrateOk None)
             end
     end)
    (fun e => ret (mkOutcome false (MsgMigrateFailed e) None)).

End WithCrypto.

End SecurityManager.

(** ** Auxiliary definitions used in the proofs *)

(** The sextets of a byte sequence, before they are printed. *)
Fixpoint to_sextets (l : bytes) : list N :=
  match l with
  | [] => []
  | [a] =>
      let a := Byte.to_N a in [a / 4; (a mod 4) * 16]
  | [a; b] =>
      let a := Byte.to_N a in
      let b := Byte.to_N b in
      [a / 4; (a mod 4) * 16 + b / 16; (b mod 16) * 4]
  | a :: b :: c :: t =>
      let a := Byte.to_N a in
      let b := Byte.to_N b in
      let c := Byte.to_N c in
      a / 4 :: (a mod 4) * 16 + b / 16 :: (b mod 16) * 4 + c / 64
        :: c mod 64 :: to_sextets t
  end.

Definition padding (l : bytes) : jsstring :=
  match (length l mod 3)%nat with
  | 1%nat => [61; 61]
  | 2%nat => [61]
  | _ => []
  end.

(** Unicode scalar values: code points that are not surrogates. *)
Definition is_scalar (cp : N) : Prop :=
  cp < 0xD800 \/ (0xE000 <= cp /\ cp <= 0x10FFFF).

(** The string [SecurityManager.encrypt] produces, given the nonce. *)
Definition sealed {wc : WebCrypto} (plaintext : jsval) (k : CryptoKey)
    (iv : bytes) : jsstring :=
  Base64.encode (iv ++ aes_gcm_encrypt k iv (TextEncoder_encode plaintext)).

(** The string [CryptoUtils.encrypt] produces, given salt and nonce. *)
Definition sealed_with_salt {wc : WebCrypto} (plaintext password : jsval)
    (salt iv : bytes) : jsstring :=
  Base64.encode
    (salt ++ iv ++
     aes_gcm_encrypt (CryptoUtils.deriveKey password salt) iv
       (TextEncoder_encode plaintext)).

(** The outcome of [verifyMasterPassword] as a function of the stored
    configuration and the passphrase entered. *)
Definition verification_outcome {wc : WebCrypto} (config : SecurityConfig)
    (inputPassword : jsstring) : SecurityManager.outcome :=
  match Base64.atob (cfg_salt config) with
  | None =>
      SecurityManager.mkOutcome false
        (SecurityManager.MsgVerifyFailed InvalidCharacterError) None
  | Some salt =>
      let k := SecurityManager.deriveKey inputPassword (map byte_of_N salt) in
      let wrong :=
        SecurityManager.mkOutcome false SecurityManager.MsgWrongPassword None in
      match Base64.atob (cfg_verificationData config) with
      | None => wrong
      | Some binary =>
          let data := map byte_of_N binary in
          match aes_gcm_decrypt k (firstn 12 data) (skipn 12 data) with
          | None => wrong
          | Some decrypted =>
              if str_eqb (UTF8.decode decrypted) SecurityManager.VERIFICATION_TEXT
              then SecurityManager.mkOutcome true SecurityManager.MsgVerifyOk
                     (Some k)
              else wrong
          end
      end
  end.

(** The world with [securityConfig] stored. *)
Definition store_config (c : SecurityConfig) (w : World) : World :=
  set_local (fun l =>
    mkLocal (Some c) (masterPassword l) (accounts l) (environments l)
            (backup_v1_2_0 l)) w.

(** [CryptoUtils.decrypt] as a function of its arguments: it reads
    neither the clock nor the random source. *)
Definition legacy_open {wc : WebCrypto} (ciphertext password : jsval)
  : result jsstring :=
  match Base64.atob (ToString ciphertext) with
  | None => Throw (Error ErrDecrypt)
  | Some binary =>
      let data := map byte_of_N binary in
      let salt := firstn 16 data in
      let iv := firstn 12 (skipn 16 data) in
      let encrypted := skipn 28 data in
      match aes_gcm_decrypt (CryptoUtils.deriveKey password salt) iv encrypted with
      | Some decrypted => Ok (UTF8.decode decrypted)
      | None => Throw (Error ErrDecrypt)
      end
  end.

(** Step 3 of the migration on one account: the error when the legacy
    decryption fails, and the [decryptedPassword] that results. *)
Definition legacy_failure {wc : WebCrypto} (window_cryptoUtils : bool)
    (oldMasterPassword : jsstring) (account : Account) : option exn :=
  let stored := SecurityManager.jsval_of_password (acc_password account) in
  if window_cryptoUtils && is_truthy stored then
    match legacy_open stored (JString oldMasterPassword) with
    | Ok _ => None
    | Throw e => Some e
    end
  else None.

Definition legacy_plain {wc : WebCrypto} (window_cryptoUtils : bool)
    (oldMasterPassword : jsstring) (account : Account) : jsval :=
  let stored := SecurityManager.jsval_of_password (acc_password account) in
  if window_cryptoUtils && is_truthy stored then
    match legacy_open stored (JString oldMasterPassword) with
    | Ok decrypted => JString decrypted
    | Throw _ => stored
    end
  else stored.

Definition legacy_warnings {wc : WebCrypto} (window_cryptoUtils : bool)
    (oldMasterPassword : jsstring) (accs : list Account) : list log_entry :=
  flat_map
    (fun account =>
       match legacy_failure window_cryptoUtils oldMasterPassword account with
       | Some e => [WarnDecryptFailed (acc_username account) e]
       | None => []
       end)
    accs.

Definition log_all (es : list log_entry) (w : World) : World :=
  mkWorld (now w) (tz_offset w) (entropy w) (consumed w) (local w)
          (session w) (alarm w) (sessionKey w) (sessionMode w)
          (console w ++ es).

(** The world after a successful [initializeMasterPassword]. *)
Definition initialized {wc : WebCrypto} (masterPassword : jsstring) (w : World)
  : World :=
  let salt := random_bytes 16 w in
  let k := SecurityManager.deriveKey masterPassword salt in
  let iv := random_bytes 12 (consume 16 w) in
  let config :=
    mkConfig (js "2.0") (Base64.encode salt) SecurityManager.PBKDF2_ITERATIONS
             (sealed (JString SecurityManager.VERIFICATION_TEXT) k iv) (now w) in
  snd (Background.setSessionKey (Base64.encode k) (js "default")
         (store_config config (consume 12 (consume 16 w)))).

(** Step 5 of the migration: the accounts written back and the world
    after the nonces have been drawn. *)
Fixpoint reencrypted {wc : WebCrypto} (newKey : CryptoKey)
    (decryptedAccounts : list (Account * jsval)) (w : World) : list Account :=
  match decryptedAccounts with
  | [] => []
  | (account, decryptedPassword) :: rest =>
      mkAccount (acc_id account) (acc_envId account) (acc_username account)
                (Some (sealed decryptedPassword newKey (random_bytes 12 w)))
        :: reencrypted newKey rest (consume 12 w)
  end.

Fixpoint after_reencrypt {A} (l : list A) (w : World) : World :=
  match l with
  | [] => w
  | _ :: rest => after_reencrypt rest (consume 12 w)
  end.

(** The accounts the migration writes back. *)
Definition migrated_accounts {wc : WebCrypto} (cu : bool)
    (old new : jsstring) (w : World) : list Account :=
  let accs := match accounts (local w) with Some l => l | None => [] end in
  let w1 := log_all (legacy_warnings cu old accs) w in
  reencrypted (SecurityManager.deriveKey new (random_bytes 16 w1))
    (map (fun a => (a, legacy_plain cu old a)) accs)
    (initialized new w1).

(** The world after a successful migration. *)
Definition migrated_world {wc : WebCrypto} (cu : bool)
    (old new : jsstring) (w : World) : World :=
  let accs := match accounts (local w) with Some l => l | None => [] end in
  let w1 := log_all (legacy_warnings cu old accs) w in
  set_local
    (fun l => mkLocal (securityConfig l) None (accounts l) (environments l)
                      (backup_v1_2_0 l))
    (set_local
       (fun l => mkLocal (securityConfig l) (masterPassword l)
                         (Some (migrated_accounts cu old new w))
                         (environments l) (backup_v1_2_0 l))
       (after_reencrypt (map (fun a => (a, legacy_plain cu old a)) accs)
          (initialized new w1))).


Ltac decide_tests :=
  repeat match goal with
  | |- context [?a <? ?b] => destruct (N.ltb_spec a b); try lia
  | |- context [?a <=? ?b] => destruct (N.leb_spec a b); try lia
  | |- context [?a =? ?b] => destruct (N.eqb_spec a b); try lia
  end;
  cbn [andb orb negb].

(** ** A small instance of the primitives

    A keyed additive stream with a 16-byte checksum tag.  It is not
    AES-GCM; it shows that the laws assumed of AES-GCM have a model and
    lets the functions above run on concrete inputs. *)

Module Toy.

Definition sum_bytes (l : bytes) : N :=
  fold_right (fun b acc => Byte.to_N b + acc) 0 l.

Definition toy_pbkdf2 (password salt : bytes) (iterations : N) : CryptoKey :=
  let seed := sum_bytes password + 7 * sum_bytes salt + iterations / 1000 in
  map (fun i => byte_of_N (seed + 3 * N.of_nat i)) (seq 0 32).

Definition first_byte (k : CryptoKey) : N :=
  match k with
  | b :: _ => Byte.to_N b
  | [] => 0
  end.

Definition shift (k : CryptoKey) (iv : bytes) : N :=
  (first_byte k + sum_bytes iv) mod 256.

Definition toy_tag (k : CryptoKey) (iv body : bytes) : bytes :=
  let t := first_byte k + 5 * sum_bytes iv + 11 * sum_bytes body in
  map (fun i => byte_of_N (t + N.of_nat i)) (seq 0 16).

Definition toy_encrypt (k : CryptoKey) (iv m : bytes) : bytes :=
  let body := map (fun b => byte_of_N (Byte.to_N b + shift k iv)) m in
  body ++ toy_tag k iv body.

Definition bytes_eqb (a b : bytes) : bool :=
  if list_eq_dec Byte.byte_eq_dec a b then true else false.

Definition toy_decrypt (k : CryptoKey) (iv c : bytes) : option bytes :=
  if (length c <? 16)%nat then None
  else
    let n := (length c - 16)%nat in
    let body := firstn n c in
    let tag := skipn n c in
    if bytes_eqb tag (toy_tag k iv body)
    then Some (map (fun b => byte_of_N (Byte.to_N b + 256 - shift k iv)) body)
    else None.

#[export] Instance toy : WebCrypto := {
  pbkdf2 := toy_pbkdf2;
  aes_gcm_encrypt := toy_encrypt;
  aes_gcm_decrypt := toy_decrypt
}.

(** A configuration as [initializeMasterPassword] writes it for the
    passphrase 'Abcd1234', but derived with [iterations] rounds. *)
Definition config_with (iterations : N) (salt iv : bytes) : SecurityConfig :=
  let k := toy_pbkdf2 (UTF8.encode (js "Abcd1234")) salt iterations in
  mkConfig (js "2.0") (Base64.encode salt) iterations
    (Base64.encode
       (iv ++ toy_encrypt k iv (UTF8.encode (js "account-manager-security-v2"))))
    1700000000000.

Definition salt0 : bytes := repeat x11 16.
Definition iv0 : bytes := repeat x22 12.

(** A key and a world to run examples in. *)
Definition key0 : CryptoKey := repeat x2a 32.
Definition key1 : CryptoKey := repeat x07 32.

Definition world0 : World :=
  mkWorld 1700000000000 (fixed_zone 0)
          (fun i => byte_of_N (17 * N.of_nat i + 5)) 0
          (mkLocal None None None None None) empty_session None None
          (js "default") [].

(** A legacy installation: the passphrase stored in the clear, one secret
    sealed by the legacy scheme and one that the legacy scheme cannot
    open. *)
Definition legacy_blob : jsstring :=
  Base64.encode
    (salt0 ++ iv0 ++
     toy_encrypt (toy_pbkdf2 (UTF8.encode (js "OldPass1")) salt0 100000) iv0
       (UTF8.encode (js "s3cret"))).

Definition alice : Account :=
  mkAccount (js "a1") (js "e1") (js "alice") (Some legacy_blob).

Definition bob : Account :=
  mkAccount (js "a2") (js "e1") (js "bob") (Some (js "plain-old-password")).

Definition legacy_world : World :=
  mkWorld 1700000000000 (fixed_zone 0)
          (fun i => byte_of_N (17 * N.of_nat i + 5)) 0
          (mkLocal None (Some (js "OldPass1")) (Some [alice; bob]) (Some [])
                   None)
          empty_session None None (js "default") [].

(** New York in 2023: daylight saving time from 12 March, 07:00 UTC, to
    5 November, 06:00 UTC.  A local time that does not exist or exists
    twice is read by the offset in force before the change. *)
Definition new_york : TimeZone :=
  mkTimeZone
    (fun t =>
       if ((1678604400000 <=? t) && (t <? 1699164000000))%Z
       then (-14400000)%Z else (-18000000)%Z)
    (fun lt =>
       if ((1678590000000 <=? lt) && (lt <? 1699149600000))%Z
       then (-14400000)%Z else (-18000000)%Z).

(** Sunday 5 November 2023, 00:30 in New York (04:30 UTC), a day of 25
    hours. *)
Definition world_new_york : World :=
  mkWorld 1699158600000 new_york
          (fun i => byte_of_N (17 * N.of_nat i + 5)) 0
          (mkLocal None None None None None) empty_session None None
          (js "default") [].

End Toy.

(** ** Further laws of the primitives *)

(** PBKDF2 is asked for a 256-bit key. *)
Definition pbkdf2_length (wc : WebCrypto) : Prop :=
  forall password salt iterations,
    length (pbkdf2 password salt iterations) = 32%nat.

(** AES-GCM rejects an input too short to hold the 16-byte tag. *)
Definition aead_min_length (wc : WebCrypto) : Prop :=
  forall k iv c, (length c < 16)%nat -> aes_gcm_decrypt k iv c = None.

(** ** popup.js: the check before an export *)

Module Popup.

(** The loop of [exportData] over the stored accounts: the first account
    whose password [isBase64] rejects stops the export. *)
Fixpoint exportData_refused (accounts : list Account) : option Account :=
  match accounts with
  | [] => None
  | account :: rest =>
      if negb (CryptoUtils.isBase64
                 (SecurityManager.jsval_of_password (acc_password account)))
      then Some account
      else exportData_refused rest
  end.

End Popup.

(** ** background.js: backup and restore of the data *)

Module BackgroundData.

(** The reply to [backupData]; [br_timestamp] is the instant that
    [toISOString()] prints. *)
Record backup_data : Type := mkBackupData {
  br_version : jsstring;
  br_timestamp : Z;
  br_environments : list Environment;
  br_accounts : list Account
}.

(** [request.action === 'backupData']; [version] is the version of the
    manifest. *)
Definition backupData (version : jsstring) : M backup_data :=
  result <- gets local ;;
  t <- Date_now ;;
  ret (mkBackupData version t
         (match environments result with Some e => e | None => [] end)
         (match accounts result with Some a => a | None => [] end)).

(** [request.data] of a [restoreData] message: a field is [None] when
    the property is not an array. *)
Record restore_data : Type := mkRestoreData {
  rd_environments : option (list Environment);
  rd_accounts : option (list Account)
}.

Inductive restore_response : Type :=
| RestoreOk                 (* { success: true } *)
| RestoreInvalid.           (* { success: false, error: '无效的备份数据格式' } *)

(** [request.action === 'restoreData']; [None] is a message without
    [data]. *)
Definition restoreData (data : option restore_data) : M restore_response :=
  match data with
  | Some (mkRestoreData (Some envs) (Some accs)) =>
      modify (set_local (fun l =>
        mkLocal (securityConfig l) (masterPassword l) (Some accs) (Some envs)
                (backup_v1_2_0 l))) ;;;
      ret RestoreOk
  | _ => ret RestoreInvalid
  end.

(** The message that restores a backup. *)
Definition restore_request (b : backup_data) : option restore_data :=
  Some (mkRestoreData (Some (br_environments b)) (Some (br_accounts b))).

End BackgroundData.

(** ** security-manager.js: the session as the pages see it *)

Module SessionClient.

(** [crypto.subtle.importKey('raw', keyBuffer, { name: 'AES-GCM',
    length: 256 }, true, ['encrypt', 'decrypt'])]: an AES key is imported
    from 128, 192 or 256 bits of data, any other length is rejected. *)
Definition importKey_raw (keyBuffer : bytes) : option CryptoKey :=
  let bits := 8 * N.of_nat (length keyBuffer) in
  if (bits =? 128) || (bits =? 192) || (bits =? 256) then Some keyBuffer
  else None.

(** [SecurityManager.getSessionKey()]: the message is answered by the
    [getSessionKey] handler of the service worker.  A rejected import is
    caught like every other error and gives [null]. *)
Definition getSessionKey : M (option CryptoKey) :=
  try_catch
    (response <- Background.getSessionKey ;;
     match Background.r_keyData response with
     | Some keyData =>
         if truthy keyData then
           keyBuffer <- SecurityManager.base64ToArrayBuffer keyData ;;
           match importKey_raw keyBuffer with
           | Some k => ret (Some k)
           | None => ret None
           end
         else ret None
     | None => ret None
     end)
    (fun _ => ret None).

(** [SecurityManager.clearSession()]. *)
Definition clearSession : M unit :=
  try_catch (Background.clearSession ;;; ret tt) (fun _ => ret tt).

End SessionClient.

(** ** utils/validation.js *)

Module Validation.

Inductive message : Type :=
| MsgEmpty          (* '密码不能为空' *)
| MsgTooShort       (* '主密码至少需要 8 位' *)
| MsgNeedClasses    (* '主密码需包含大小写字母和数字' *)
| MsgOk.            (* '密码强度符合要求' *)

(** [/[a-z]/.test(s)], [/[A-Z]/.test(s)], [/[0-9]/.test(s)] and
    [/[^a-zA-Z0-9]/.test(s)]. *)
Definition is_lower (c : N) : bool := (97 <=? c) && (c <=? 122).
Definition is_upper (c : N) : bool := (65 <=? c) && (c <=? 90).
Definition is_digit (c : N) : bool := (48 <=? c) && (c <=? 57).

Definition has_lower (s : jsstring) : bool := existsb is_lower s.
Definition has_upper (s : jsstring) : bool := existsb is_upper s.
Definition has_digit (s : jsstring) : bool := existsb is_digit s.
Definition has_other (s : jsstring) : bool :=
  existsb (fun c => negb (is_lower c || is_upper c || is_digit c)) s.

(** [validateMasterPassword(password)] on a string, as
    [(valid, message)]. *)
Definition validateMasterPassword (password : jsstring) : bool * message :=
  let minLength := 8 in
  let hasUpper := has_upper password in
  let hasLower := has_lower password in
  let hasNumber := has_digit password in
  if negb (truthy password) then (false, MsgEmpty)
  else if N.of_nat (length password) <? minLength then (false, MsgTooShort)
  else if negb hasUpper || negb hasLower || negb hasNumber
  then (false, MsgNeedClasses)
  else (true, MsgOk).

Inductive strength : Type :=
| StrengthNone      (* '无' *)
| Weak              (* '弱' *)
| Medium            (* '中等' *)
| Strong            (* '强' *)
| VeryStrong.       (* '非常强' *)

Definition bump (b : bool) (score : N) : N :=
  if b then score + 1 else score.

(** [checkPasswordStrength(password)] on a string, as
    [(strength, score)]. *)
Definition checkPasswordStrength (password : jsstring) : strength * N :=
  if negb (truthy password) then (StrengthNone, 0)
  else
    let score := 0 in
    let score := bump (8 <=? N.of_nat (length password)) score in
    let score := bump (12 <=? N.of_nat (length password)) score in
    let score := bump (16 <=? N.of_nat (length password)) score in
    let score := bump (has_lower password) score in
    let score := bump (has_upper password) score in
    let score := bump (has_digit password) score in
    let score := bump (has_other password) score in
    let strength :=
      if score <=? 2 then Weak
      else if score <=? 4 then Medium
      else if score <=? 6 then Strong
      else VeryStrong in
    (strength, score).

End Validation.

(** ** url-matcher.js and the matcher of background.js *)

(** What the code reads of a parsed [URL]. *)
Record URL : Type := mkURL {
  url_protocol : jsstring;
  url_host : jsstring;
  url_pathname : jsstring
}.

(** [s.replace(/\/$/, '')]: one slash at the end of the string is
    removed. *)
Definition strip_trailing_slash (s : jsstring) : jsstring :=
  match rev s with
  | c :: t => if c =? 47 then rev t else s
  | [] => s
  end.

(** [s.startsWith(p)], [s.endsWith(p)] and [s.slice(0, -2)]. *)
Fixpoint startsWith (s p : jsstring) {struct p} : bool :=
  match p, s with
  | [], _ => true
  | a :: p', b :: s' => (a =? b) && startsWith s' p'
  | _ :: _, [] => false
  end.

Definition endsWith (s p : jsstring) : bool := startsWith (rev s) (rev p).

Definition slice_0_minus2 (s : jsstring) : jsstring :=
  firstn (length s - 2) s.

Module UrlMatcher.

Section WithURL.

(** [new URL(urlString)]: [None] when the constructor throws. *)
Variable parseURL : jsstring -> option URL.

(** [`${url.protocol}//${url.host}${url.pathname}`.replace(/\/$/, '')]. *)
Definition normalized (url : URL) : jsstring :=
  strip_trailing_slash
    (url_protocol url ++ js "//" ++ url_host url ++ url_pathname url).

(** [normalizeUrl(urlString)]. *)
Definition normalizeUrl (urlString : jsstring) : jsstring :=
  match parseURL urlString with
  | Some url => normalized url
  | None => urlString
  end.

(** The loop of [matchEnvironment]. *)
Fixpoint first_match (normalizedCurrentUrl : jsstring)
    (environments : list Environment) : option Environment :=
  match environments with
  | [] => None
  | env :: rest =>
      if negb (truthy (env_loginUrl env))
      then first_match normalizedCurrentUrl rest
      else
        let normalizedEnvUrl := normalizeUrl (env_loginUrl env) in
        if str_eqb normalizedCurrentUrl normalizedEnvUrl then Some env
        else if endsWith normalizedEnvUrl (js "/*")
                && startsWith normalizedCurrentUrl
                     (slice_0_minus2 normalizedEnvUrl)
        then Some env
        else first_match normalizedCurrentUrl rest
  end.

(** [matchEnvironment(currentUrl, environments)]; [environments] is
    [None] when the argument is not an array. *)
Definition matchEnvironment (currentUrl : jsstring)
    (environments : option (list Environment)) : option Environment :=
  match environments with
  | Some envs =>
      if negb (truthy currentUrl) then None
      else first_match (normalizeUrl currentUrl) envs
  | None => None
  end.

(** [isUrlMatched(url1, url2)]. *)
Definition isUrlMatched (url1 url2 : jsstring) : bool :=
  if negb (truthy url1) || negb (truthy url2) then false
  else str_eqb (normalizeUrl url1) (normalizeUrl url2).

End WithURL.

End UrlMatcher.

(** The matcher that background.js and the content script define for
    themselves: the environments come from the store, and an environment
    whose login URL does not parse is skipped. *)
Module StoreMatcher.

Section WithURL.

Variable parseURL : jsstring -> option URL.

Fixpoint first_match (normalizedCurrentUrl : jsstring)
    (environments : list Environment) : option Environment :=
  match environments with
  | [] => None
  | env :: rest =>
      if negb (truthy (env_loginUrl env))
      then first_match normalizedCurrentUrl rest
      else
        match parseURL (env_loginUrl env) with
        | Some envUrl =>
            let normalizedEnvUrl := UrlMatcher.normalized envUrl in
            if str_eqb normalizedCurrentUrl normalizedEnvUrl then Some env
            else if endsWith normalizedEnvUrl (js "/*")
                    && startsWith normalizedCurrentUrl
                         (slice_0_minus2 normalizedEnvUrl)
            then Some env
            else first_match normalizedCurrentUrl rest
        | None => first_match normalizedCurrentUrl rest
        end
  end.

(** [matchEnvironment(urlString)]. *)
Definition matchEnvironment (urlString : jsstring) : M (option Environment) :=
  if negb (truthy urlString) then ret None
  else
    try_catch
      (result <- gets (fun w => environments (local w)) ;;
       let environments :=
         match result with Some e => e | None => [] end in
       let normalizedCurrentUrl :=
         match parseURL urlString with
         | Some url => UrlMatcher.normalized url
         | None => urlString
         end in
       ret (first_match normalizedCurrentUrl environments))
      (fun _ => ret None).

End WithURL.

End StoreMatcher.

(** A parser defined on a few URLs only, where it gives what [new URL]
    gives; it is used to instantiate the statements about the matchers. *)
Module ToyURL.

Definition parse (s : jsstring) : option URL :=
  if str_eqb s (js "https://example.com/*")
  then Some (mkURL (js "https:") (js "example.com") (js "/*"))
  else if str_eqb s (js "https://example.com.evil.org/login?next=1")
  then Some (mkURL (js "https:") (js "example.com.evil.org") (js "/login"))
  else if str_eqb s (js "https://example.com/login/")
  then Some (mkURL (js "https:") (js "example.com") (js "/login/"))
  else None.

Definition wildcard_env : Environment :=
  mkEnvironment (js "1") (js "Example") (js "https://example.com/*").

Definition login_env : Environment :=
  mkEnvironment (js "2") (js "Login") (js "https://example.com/login/").

Definition relative_env : Environment :=
  mkEnvironment (js "3") (js "Relative") (js "/*").

Definition with_environments (envs : list Environment) (w : World) : World :=
  set_local (fun l =>
    mkLocal (securityConfig l) (masterPassword l) (accounts l) (Some envs)
            (backup_v1_2_0 l)) w.

End ToyURL.

(** * Properties *)

(** ** Examples of the platform functions *)

Example btoa_Man : Base64.btoa (js "Man") = Some (js "TWFu").
Proof. reflexivity. Qed.

Example btoa_Ma : Base64.btoa (js "Ma") = Some (js "TWE=").
Proof. reflexivity. Qed.

Example atob_TQ : Base64.atob (js "TQ==") = Some (js "M").
Proof. reflexivity. Qed.

Example atob_forgiving : Base64.atob (js "T W E") = Some (js "Ma").
Proof. reflexivity. Qed.

Example atob_bad : Base64.atob (js "!") = None.
Proof. reflexivity. Qed.

Example utf8_euro : UTF8.encode [0x20AC] = [xe2; x82; xac].
Proof. reflexivity. Qed.

Example utf8_pair : UTF8.encode [0xD83D; 0xDE00] = [xf0; x9f; x98; x80].
Proof. reflexivity. Qed.

Example utf8_lone : UTF8.encode [0xD800] = [xef; xbf; xbd].
Proof. reflexivity. Qed.

Example utf8_decode_pair : UTF8.decode [xf0; x9f; x98; x80] = [0xD83D; 0xDE00].
Proof. reflexivity. Qed.

Example utf8_decode_bom : UTF8.decode [xef; xbb; xbf; x41] = [65].
Proof. reflexivity. Qed.

Example utf8_decode_truncated : UTF8.decode [xe2; x82; x41] = [0xFFFD; 65].
Proof. reflexivity. Qed.

(** ** Bytes *)

Lemma to_N_byte_of_N (n : N) : Byte.to_N (byte_of_N n) = n mod 256.
Proof.
  unfold byte_of_N.
  destruct (Byte.of_N (n mod 256)) as [b|] eqn:E.
  - now apply Byte.to_of_N in E.
  - apply Byte.of_N_None_iff in E.
    pose proof (N.mod_upper_bound n 256). lia.
Qed.

Lemma byte_of_N_to_N (b : byte) : byte_of_N (Byte.to_N b) = b.
Proof.
  unfold byte_of_N.
  pose proof (Byte.to_N_bounded b).
  rewrite N.mod_small by lia.
  now rewrite Byte.of_to_N.
Qed.

Lemma byte_of_N_small (n : N) (b : byte) :
  n < 256 -> Byte.to_N b = n -> byte_of_N n = b.
Proof. intros _ <-. apply byte_of_N_to_N. Qed.

Lemma map_byte_of_N_to_N (l : bytes) : map byte_of_N (map Byte.to_N l) = l.
Proof.
  induction l as [|b l IH]; simpl; [reflexivity|].
  now rewrite byte_of_N_to_N, IH.
Qed.

Lemma binary_string_small (l : bytes) :
  forallb (fun c => c <=? 255) (map Byte.to_N l) = true.
Proof.
  induction l as [|b l IH]; simpl; [reflexivity|].
  rewrite IH, andb_true_r. apply N.leb_le, Byte.to_N_bounded.
Qed.

(** ** Base64 *)

(** Induction on a byte sequence three bytes at a time. *)
Lemma list_ind3 {A} (P : list A -> Prop) :
  P [] -> (forall a, P [a]) -> (forall a b, P [a; b]) ->
  (forall a b c t, P t -> P (a :: b :: c :: t)) ->
  forall l, P l.
Proof.
  intros H0 H1 H2 H3.
  fix IH 1.
  intros [|a [|b [|c t]]];
    [exact H0 | apply H1 | apply H2 | apply H3, IH].
Qed.

Lemma sextet_of_char_of_sextet (n : N) :
  n < 64 -> Base64.sextet_of_char (Base64.char_of_sextet n) = Some n.
Proof.
  intros Hn. unfold Base64.char_of_sextet.
  destruct (N.ltb_spec n 26);
    [| destruct (N.ltb_spec n 52);
       [| destruct (N.ltb_spec n 62); [| destruct (N.eqb_spec n 62)]]];
    unfold Base64.sextet_of_char; decide_tests; f_equal; lia.
Qed.

Lemma char_of_sextet_alphabet (n : N) :
  n < 64 -> Base64.is_alphabet (Base64.char_of_sextet n) = true.
Proof.
  intros Hn. unfold Base64.is_alphabet.
  now rewrite sextet_of_char_of_sextet.
Qed.

Lemma alphabet_not_whitespace (c : N) :
  Base64.is_alphabet c = true -> Base64.is_ascii_whitespace c = false.
Proof.
  intros H. unfold Base64.is_ascii_whitespace.
  repeat match goal with
  | |- context [c =? ?b] =>
      destruct (N.eqb_spec c b) as [->|_]; [discriminate H|]
  end.
  reflexivity.
Qed.

Lemma alphabet_not_pad (c : N) : Base64.is_alphabet c = true -> c <> 61.
Proof. intros H ->. discriminate H. Qed.

Lemma to_sextets_bound (l : bytes) : Forall (fun n => n < 64) (to_sextets l).
Proof.
  induction l as [|a|a b|a b c t IH] using list_ind3; cbn [to_sextets].
  - constructor.
  - pose proof (Byte.to_N_bounded a). repeat constructor; lia.
  - pose proof (Byte.to_N_bounded a). pose proof (Byte.to_N_bounded b).
    repeat constructor; lia.
  - pose proof (Byte.to_N_bounded a). pose proof (Byte.to_N_bounded b).
    pose proof (Byte.to_N_bounded c).
    repeat (constructor; [lia|]). exact IH.
Qed.

Lemma padding_step (a b c : byte) (t : bytes) :
  padding (a :: b :: c :: t) = padding t.
Proof.
  unfold padding.
  replace (length (a :: b :: c :: t) mod 3)%nat with (length t mod 3)%nat;
    [reflexivity|].
  cbn [length].
  replace (S (S (S (length t)))) with (length t + 1 * 3)%nat by lia.
  now rewrite Nat.Div0.mod_add.
Qed.

Lemma encode_sextets (l : bytes) :
  Base64.encode l = map Base64.char_of_sextet (to_sextets l) ++ padding l.
Proof.
  induction l as [|a|a b|a b c t IH] using list_ind3.
  - reflexivity.
  - reflexivity.
  - reflexivity.
  - rewrite padding_step. cbn [Base64.encode to_sextets map app].
    now rewrite IH.
Qed.

Lemma sextets_map_char (sx : list N) :
  Forall (fun n => n < 64) sx ->
  Base64.sextets (map Base64.char_of_sextet sx) = Some sx.
Proof.
  induction 1 as [|n sx Hn _ IH]; cbn [map Base64.sextets]; [reflexivity|].
  now rewrite sextet_of_char_of_sextet, IH.
Qed.

Lemma decode_to_sextets (l : bytes) : Base64.decode_sextets (to_sextets l) = l.
Proof.
  induction l as [|a|a b|a b c t IH] using list_ind3;
    cbn [to_sextets Base64.decode_sextets]; [reflexivity| | |];
    pose proof (Byte.to_N_bounded a).
  - f_equal. apply byte_of_N_small; lia.
  - pose proof (Byte.to_N_bounded b).
    f_equal; [|f_equal]; apply byte_of_N_small; lia.
  - pose proof (Byte.to_N_bounded b). pose proof (Byte.to_N_bounded c).
    rewrite IH.
    f_equal; [|f_equal; [|f_equal]]; apply byte_of_N_small; lia.
Qed.

Lemma to_sextets_length (l : bytes) :
  (length (to_sextets l) = 4 * (length l / 3) +
     match length l mod 3 with 0 => 0 | 1 => 2 | _ => 3 end)%nat.
Proof.
  induction l as [|a|a b|a b c t IH] using list_ind3;
    [reflexivity..|].
  cbn [to_sextets length]. rewrite IH.
  replace (S (S (S (length t)))) with (length t + 1 * 3)%nat by lia.
  rewrite Nat.div_add, Nat.Div0.mod_add by lia. lia.
Qed.

Lemma padding_cases (l : bytes) :
  padding l = [] \/ padding l = [61] \/ padding l = [61; 61].
Proof.
  unfold padding. destruct (length l mod 3)%nat as [|[|[|n]]]; auto.
Qed.

Lemma encode_length (l : bytes) :
  (length (Base64.encode l) = 4 * ((length l + 2) / 3))%nat.
Proof.
  induction l as [|a|a b|a b c t IH] using list_ind3;
    [reflexivity..|].
  cbn [Base64.encode length]. rewrite IH.
  replace (S (S (S (length t))) + 2)%nat with (length t + 2 + 1 * 3)%nat by lia.
  rewrite Nat.div_add by lia. lia.
Qed.

Lemma filter_all {A} (f : A -> bool) (l : list A) :
  Forall (fun x => f x = true) l -> filter f l = l.
Proof.
  induction 1 as [|x l Hx _ IH]; cbn [filter]; [reflexivity|].
  now rewrite Hx, IH.
Qed.

Lemma sextet_chars_alphabet (l : bytes) :
  Forall (fun c => Base64.is_alphabet c = true)
         (map Base64.char_of_sextet (to_sextets l)).
Proof.
  apply Forall_map.
  eapply Forall_impl; [|apply to_sextets_bound].
  intros n Hn. now apply char_of_sextet_alphabet.
Qed.

Lemma encode_no_whitespace (l : bytes) :
  filter (fun c => negb (Base64.is_ascii_whitespace c)) (Base64.encode l)
  = Base64.encode l.
Proof.
  apply filter_all. rewrite encode_sextets. apply Forall_app. split.
  - eapply Forall_impl; [|apply sextet_chars_alphabet].
    intros c Hc. cbv beta in *. now rewrite alphabet_not_whitespace.
  - destruct (padding_cases l) as [-> | [-> | ->]]; repeat constructor.
Qed.

Lemma encode_length_mod4 (l : bytes) :
  N.of_nat (length (Base64.encode l)) mod 4 = 0.
Proof.
  rewrite encode_length, Nat2N.inj_mul, N.mul_comm.
  apply N.Div0.mod_mul.
Qed.

Lemma strip_padding_encode (l : bytes) :
  Base64.strip_padding (Base64.encode l)
  = map Base64.char_of_sextet (to_sextets l).
Proof.
  unfold Base64.strip_padding.
  rewrite encode_length_mod4. cbn [N.eqb].
  rewrite encode_sextets, rev_app_distr.
  pose proof (sextet_chars_alphabet l) as Hal.
  apply Forall_rev in Hal.
  set (u := map Base64.char_of_sextet (to_sextets l)) in *.
  assert (Hhd : forall x r, rev u = x :: r -> (x =? Base64.pad) = false).
  { intros x r E. rewrite E in Hal. inversion Hal; subst.
    apply N.eqb_neq. now apply alphabet_not_pad. }
  destruct (padding_cases l) as [-> | [-> | ->]]; cbn [rev app].
  - rewrite app_nil_r.
    destruct (rev u) as [|x r] eqn:E; [reflexivity|].
    now rewrite (Hhd x r eq_refl).
  - change (61 =? Base64.pad) with true. cbv iota.
    destruct (rev u) as [|x r] eqn:E.
    + apply (f_equal (@rev N)) in E. now rewrite rev_involutive in E.
    + rewrite (Hhd x r eq_refl). now rewrite <- E, rev_involutive.
  - change (61 =? Base64.pad) with true. cbv iota.
    apply rev_involutive.
Qed.

Lemma to_sextets_length_mod4 (l : bytes) :
  (N.of_nat (length (to_sextets l)) mod 4 =? 1) = false.
Proof.
  rewrite to_sextets_length, Nat2N.inj_add, Nat2N.inj_mul.
  rewrite N.add_comm, N.mul_comm, N.Div0.mod_add.
  destruct (length l mod 3)%nat as [|[|n]]; reflexivity.
Qed.

(** [atob] inverts [btoa]. *)
Lemma decode_encode (l : bytes) : Base64.decode (Base64.encode l) = Some l.
Proof.
  unfold Base64.decode.
  rewrite encode_no_whitespace, strip_padding_encode.
  rewrite length_map, to_sextets_length_mod4.
  rewrite sextets_map_char by apply to_sextets_bound.
  cbn [option_map]. now rewrite decode_to_sextets.
Qed.

Lemma atob_encode (l : bytes) :
  Base64.atob (Base64.encode l) = Some (map Byte.to_N l).
Proof. unfold Base64.atob. now rewrite decode_encode. Qed.

Lemma btoa_binary (l : bytes) :
  Base64.btoa (map Byte.to_N l) = Some (Base64.encode l).
Proof.
  unfold Base64.btoa.
  now rewrite binary_string_small, map_byte_of_N_to_N.
Qed.

(** ** The classifier on encoder output *)

Lemma skip_alphabet_app (u p : jsstring) :
  Forall (fun c => Base64.is_alphabet c = true) u ->
  p = [] \/ p = [61] \/ p = [61; 61] ->
  CryptoUtils.skip_alphabet (u ++ p) = p.
Proof.
  intros Hu Hp.
  induction Hu as [|c u Hc _ IH]; cbn [app CryptoUtils.skip_alphabet].
  - destruct Hp as [-> | [-> | ->]]; reflexivity.
  - now rewrite Hc.
Qed.

Lemma encode_nonempty (l : bytes) : l <> [] -> truthy (Base64.encode l) = true.
Proof. destruct l as [|a [|b [|c t]]]; [congruence | reflexivity..]. Qed.

Lemma base64Regex_encode (l : bytes) :
  l <> [] -> CryptoUtils.base64Regex_test (Base64.encode l) = true.
Proof.
  intros Hl. rewrite encode_sextets.
  pose proof (sextet_chars_alphabet l) as Hal.
  pose proof (padding_cases l) as Hp.
  destruct (map Base64.char_of_sextet (to_sextets l)) as [|c u] eqn:E.
  - destruct l as [|a [|b [|c t]]]; [congruence | discriminate E ..].
  - inversion Hal as [|? ? Hc Hu]; subst.
    cbn [app CryptoUtils.base64Regex_test]. rewrite Hc.
    rewrite (skip_alphabet_app u _ Hu Hp).
    destruct Hp as [-> | [-> | ->]]; reflexivity.
Qed.

(** Every base64 string of at least 28 bytes passes [isBase64]. *)
Lemma isBase64_encode (l : bytes) :
  (28 <= length l)%nat -> CryptoUtils.isBase64 (JString (Base64.encode l)) = true.
Proof.
  intros Hlen.
  assert (Hl : l <> []) by (intros ->; cbn in Hlen; lia).
  unfold CryptoUtils.isBase64.
  rewrite encode_nonempty by assumption.
  rewrite encode_length_mod4.
  rewrite base64Regex_encode by assumption.
  rewrite atob_encode. cbn [negb N.eqb].
  rewrite length_map.
  destruct (N.ltb_spec (N.of_nat (length l)) 28); [lia | reflexivity].
Qed.

(** ** UTF-8 *)

Lemma step_start (b : N) : UTF8.step None b = UTF8.start b.
Proof. reflexivity. Qed.

Lemma step_last (p : UTF8.pending) (b : N) :
  UTF8.p_lower p <= b -> b <= UTF8.p_upper p -> UTF8.p_needed p = 1 ->
  UTF8.step (Some p) b = ([UTF8.p_cp p * 64 + b mod 64], None).
Proof.
  intros Hl Hu Hn. unfold UTF8.step. rewrite Hn.
  destruct (N.leb_spec (UTF8.p_lower p) b); [|lia].
  destruct (N.leb_spec b (UTF8.p_upper p)); [|lia].
  reflexivity.
Qed.

Lemma step_more (p : UTF8.pending) (b : N) :
  UTF8.p_lower p <= b -> b <= UTF8.p_upper p -> UTF8.p_needed p <> 1 ->
  UTF8.step (Some p) b =
  ([], Some (UTF8.mkPending (UTF8.p_cp p * 64 + b mod 64)
                            (UTF8.p_needed p - 1) 0x80 0xBF)).
Proof.
  intros Hl Hu Hn. unfold UTF8.step.
  destruct (N.leb_spec (UTF8.p_lower p) b); [|lia].
  destruct (N.leb_spec b (UTF8.p_upper p)); [|lia].
  destruct (N.eqb_spec (UTF8.p_needed p) 1); [contradiction|].
  reflexivity.
Qed.

Lemma decode_cons (st : option UTF8.pending) (b : byte) (t : bytes) :
  UTF8.decode_from st (b :: t) =
  fst (UTF8.step st (Byte.to_N b)) ++
  UTF8.decode_from (snd (UTF8.step st (Byte.to_N b))) t.
Proof. cbn [UTF8.decode_from]. now destruct (UTF8.step st (Byte.to_N b)). Qed.

Lemma decode_encode_cp_1 (cp : N) (rest : bytes) :
  cp < 0x80 ->
  UTF8.decode_from None (UTF8.encode_cp cp ++ rest)
  = cp :: UTF8.decode_from None rest.
Proof.
  intros H. unfold UTF8.encode_cp.
  destruct (N.ltb_spec cp 0x80); [|lia].
  cbn [app]. rewrite decode_cons, to_N_byte_of_N, N.mod_small by lia.
  unfold UTF8.step, UTF8.start.
  destruct (N.leb_spec cp 0x7F); [|lia]. reflexivity.
Qed.

Lemma decode_encode_cp_2 (cp : N) (rest : bytes) :
  0x80 <= cp < 0x800 ->
  UTF8.decode_from None (UTF8.encode_cp cp ++ rest)
  = cp :: UTF8.decode_from None rest.
Proof.
  intros H. unfold UTF8.encode_cp.
  destruct (N.ltb_spec cp 0x80); [lia|].
  destruct (N.ltb_spec cp 0x800); [|lia].
  cbn [app]. rewrite !decode_cons, !to_N_byte_of_N.
  rewrite !(N.mod_small _ 256) by lia.
  set (b1 := 0xC0 + cp / 64). set (b2 := 0x80 + cp mod 64).
  assert (E1 : UTF8.step None b1
               = ([], Some (UTF8.mkPending (b1 mod 32) 1 0x80 0xBF))).
  { unfold UTF8.step, UTF8.start. subst b1. decide_tests. reflexivity. }
  rewrite E1. cbn [fst snd app].
  rewrite step_last
    by (cbn [UTF8.p_lower UTF8.p_upper UTF8.p_needed]; subst b2; lia).
  cbn [fst snd app UTF8.p_cp]. f_equal. subst b1 b2. lia.
Qed.

Lemma decode_encode_cp_3 (cp : N) (rest : bytes) :
  0x800 <= cp < 0x10000 -> cp < 0xD800 \/ 0xE000 <= cp ->
  UTF8.decode_from None (UTF8.encode_cp cp ++ rest)
  = cp :: UTF8.decode_from None rest.
Proof.
  intros H Hs. unfold UTF8.encode_cp.
  destruct (N.ltb_spec cp 0x80); [lia|].
  destruct (N.ltb_spec cp 0x800); [lia|].
  destruct (N.ltb_spec cp 0x10000); [|lia].
  cbn [app]. rewrite !decode_cons, !to_N_byte_of_N.
  rewrite !(N.mod_small _ 256) by lia.
  set (b1 := 0xE0 + cp / 4096).
  set (b2 := 0x80 + (cp / 64) mod 64).
  set (b3 := 0x80 + cp mod 64).
  assert (E1 : UTF8.step None b1
               = ([], Some (UTF8.mkPending (b1 mod 16) 2
                              (if b1 =? 0xE0 then 0xA0 else 0x80)
                              (if b1 =? 0xED then 0x9F else 0xBF)))).
  { unfold UTF8.step, UTF8.start.
    destruct (N.leb_spec b1 0x7F); [subst b1; lia|].
    destruct (N.leb_spec 0xC2 b1); [|subst b1; lia].
    destruct (N.leb_spec b1 0xDF); [subst b1; lia|].
    destruct (N.leb_spec 0xE0 b1); [|subst b1; lia].
    destruct (N.leb_spec b1 0xEF); [|subst b1; lia].
    reflexivity. }
  rewrite E1. cbn [fst snd app].
  rewrite step_more; cbn [UTF8.p_lower UTF8.p_upper UTF8.p_needed UTF8.p_cp];
    [ | destruct (N.eqb_spec b1 0xE0); subst b1 b2; lia
      | destruct (N.eqb_spec b1 0xED); subst b1 b2; lia
      | lia ].
  cbn [fst snd app].
  rewrite step_last
    by (cbn [UTF8.p_lower UTF8.p_upper UTF8.p_needed]; subst b3; lia).
  cbn [fst snd app UTF8.p_cp]. f_equal. subst b1 b2 b3. lia.
Qed.

Lemma decode_encode_cp_4 (cp : N) (rest : bytes) :
  0x10000 <= cp <= 0x10FFFF ->
  UTF8.decode_from None (UTF8.encode_cp cp ++ rest)
  = cp :: UTF8.decode_from None rest.
Proof.
  intros H. unfold UTF8.encode_cp.
  destruct (N.ltb_spec cp 0x80); [lia|].
  destruct (N.ltb_spec cp 0x800); [lia|].
  destruct (N.ltb_spec cp 0x10000); [lia|].
  cbn [app]. rewrite !decode_cons, !to_N_byte_of_N.
  rewrite !(N.mod_small _ 256) by lia.
  set (b1 := 0xF0 + cp / 262144).
  set (b2 := 0x80 + (cp / 4096) mod 64).
  set (b3 := 0x80 + (cp / 64) mod 64).
  set (b4 := 0x80 + cp mod 64).
  assert (E1 : UTF8.step None b1
               = ([], Some (UTF8.mkPending (b1 mod 8) 3
                              (if b1 =? 0xF0 then 0x90 else 0x80)
                              (if b1 =? 0xF4 then 0x8F else 0xBF)))).
  { unfold UTF8.step, UTF8.start.
    destruct (N.leb_spec b1 0x7F); [subst b1; lia|].
    destruct (N.leb_spec 0xC2 b1); [|subst b1; lia].
    destruct (N.leb_spec b1 0xDF); [subst b1; lia|].
    destruct (N.leb_spec 0xE0 b1); [|subst b1; lia].
    destruct (N.leb_spec b1 0xEF); [subst b1; lia|].
    destruct (N.leb_spec 0xF0 b1); [|subst b1; lia].
    destruct (N.leb_spec b1 0xF4); [|subst b1; lia].
    reflexivity. }
  rewrite E1. cbn [fst snd app].
  rewrite step_more; cbn [UTF8.p_lower UTF8.p_upper UTF8.p_needed UTF8.p_cp];
    [ | destruct (N.eqb_spec b1 0xF0); subst b1 b2; lia
      | destruct (N.eqb_spec b1 0xF4); subst b1 b2; lia
      | lia ].
  cbn [fst snd app].
  rewrite step_more; cbn [UTF8.p_lower UTF8.p_upper UTF8.p_needed UTF8.p_cp];
    [ | subst b3; lia | subst b3; lia | lia ].
  cbn [fst snd app].
  rewrite step_last
    by (cbn [UTF8.p_lower UTF8.p_upper UTF8.p_needed]; subst b4; lia).
  cbn [fst snd app UTF8.p_cp]. f_equal. subst b1 b2 b3 b4. lia.
Qed.

Lemma decode_encode_cp (cp : N) (rest : bytes) :
  is_scalar cp ->
  UTF8.decode_from None (UTF8.encode_cp cp ++ rest)
  = cp :: UTF8.decode_from None rest.
Proof.
  intros Hs. unfold is_scalar in Hs.
  destruct (N.lt_ge_cases cp 0x80); [now apply decode_encode_cp_1|].
  destruct (N.lt_ge_cases cp 0x800); [apply decode_encode_cp_2; lia|].
  destruct (N.lt_ge_cases cp 0x10000);
    [apply decode_encode_cp_3; lia | apply decode_encode_cp_4; lia].
Qed.

Lemma decode_flat_encode (cps : list N) :
  Forall is_scalar cps ->
  UTF8.decode_from None (flat_map UTF8.encode_cp cps) = cps.
Proof.
  induction 1 as [|cp cps Hcp _ IH]; cbn [flat_map]; [reflexivity|].
  now rewrite decode_encode_cp, IH.
Qed.

Lemma list_ind2 {A} (P : list A -> Prop) :
  P [] -> (forall a, P [a]) ->
  (forall a b t, P t -> P (b :: t) -> P (a :: b :: t)) ->
  forall l, P l.
Proof.
  intros H0 H1 H2 l.
  assert (H : P l /\ forall a, P (a :: l)).
  { induction l as [|b t [IHt IHbt]]; split; auto. }
  apply H.
Qed.

Lemma scalar_values_scalar (s : jsstring) :
  Forall (fun c => c < 0x10000) s -> Forall is_scalar (UTF8.scalar_values s).
Proof.
  induction s as [|a|a b t IHt IHbt] using list_ind2; intros Hs.
  - constructor.
  - inversion Hs; subst. cbn [UTF8.scalar_values].
    unfold UTF8.is_high, UTF8.is_low, UTF8.replacement, is_scalar.
    decide_tests; repeat constructor; lia.
  - inversion Hs as [|? ? Ha Hbt]; subst.
    inversion Hbt as [|? ? Hb Ht]; subst.
    specialize (IHt Ht). specialize (IHbt Hbt).
    change (UTF8.scalar_values (a :: b :: t)) with
      (if UTF8.is_high a then
         if UTF8.is_low b
         then (0x10000 + (a - 0xD800) * 0x400 + (b - 0xDC00))
                :: UTF8.scalar_values t
         else UTF8.replacement :: UTF8.scalar_values (b :: t)
       else if UTF8.is_low a then UTF8.replacement :: UTF8.scalar_values (b :: t)
       else a :: UTF8.scalar_values (b :: t)).
    unfold UTF8.is_high, UTF8.is_low, UTF8.replacement, is_scalar.
    decide_tests; constructor; try assumption; unfold is_scalar; lia.
Qed.

Lemma scalar_values_cons2 (a b : N) (t : jsstring) :
  UTF8.scalar_values (a :: b :: t) =
  if UTF8.is_high a then
    if UTF8.is_low b
    then (0x10000 + (a - 0xD800) * 0x400 + (b - 0xDC00)) :: UTF8.scalar_values t
    else UTF8.replacement :: UTF8.scalar_values (b :: t)
  else if UTF8.is_low a then UTF8.replacement :: UTF8.scalar_values (b :: t)
  else a :: UTF8.scalar_values (b :: t).
Proof. reflexivity. Qed.

Lemma well_formed_units (s : jsstring) :
  UTF8.well_formed s = true -> Forall (fun c => c < 0x10000) s.
Proof.
  induction s as [|a|a b t IHt IHbt] using list_ind2; intros Hs.
  - constructor.
  - cbn [UTF8.well_formed] in Hs.
    destruct (UTF8.is_high a); [discriminate|].
    apply andb_prop in Hs as [Hs _]. apply andb_prop in Hs as [_ Hs].
    apply N.ltb_lt in Hs. now repeat constructor.
  - cbn [UTF8.well_formed] in Hs.
    destruct (UTF8.is_high a) eqn:Ha.
    + apply andb_prop in Hs as [Hb Ht].
      unfold UTF8.is_high in Ha. unfold UTF8.is_low in Hb.
      apply andb_prop in Ha as [_ Ha]. apply andb_prop in Hb as [_ Hb].
      apply N.leb_le in Ha, Hb.
      constructor; [lia|]. constructor; [lia|]. now apply IHt.
    + apply andb_prop in Hs as [Hs Hbt]. apply andb_prop in Hs as [_ Hs].
      apply N.ltb_lt in Hs. constructor; [assumption|]. now apply IHbt.
Qed.

Lemma units_scalar_values (s : jsstring) :
  UTF8.well_formed s = true ->
  flat_map UTF8.units_of_cp (UTF8.scalar_values s) = s.
Proof.
  induction s as [|a|a b t IHt IHbt] using list_ind2; intros Hs.
  - reflexivity.
  - cbn [UTF8.well_formed] in Hs. cbn [UTF8.scalar_values].
    destruct (UTF8.is_high a); [discriminate|].
    apply andb_prop in Hs as [Hs _]. apply andb_prop in Hs as [Hl Hs].
    apply negb_true_iff in Hl. rewrite Hl.
    cbn [flat_map]. unfold UTF8.units_of_cp. now rewrite Hs.
  - rewrite scalar_values_cons2. cbn [UTF8.well_formed] in Hs.
    destruct (UTF8.is_high a) eqn:Ha.
    + apply andb_prop in Hs as [Hb Ht]. rewrite Hb.
      cbn [flat_map]. rewrite (IHt Ht).
      unfold UTF8.is_high in Ha. unfold UTF8.is_low in Hb.
      apply andb_prop in Ha as [Ha1 Ha2]. apply andb_prop in Hb as [Hb1 Hb2].
      apply N.leb_le in Ha1, Ha2, Hb1, Hb2.
      unfold UTF8.units_of_cp.
      destruct (N.ltb_spec (0x10000 + (a - 0xD800) * 0x400 + (b - 0xDC00)) 0x10000);
        [lia|].
      cbn [app]. f_equal; [lia|]. f_equal. lia.
    + apply andb_prop in Hs as [Hs Hbt]. apply andb_prop in Hs as [Hl Hs].
      apply negb_true_iff in Hl. rewrite Hl.
      cbn [flat_map]. rewrite (IHbt Hbt).
      unfold UTF8.units_of_cp. now rewrite Hs.
Qed.

Lemma strip_bom_scalar_values (s : jsstring) :
  UTF8.starts_with_bom s = false ->
  UTF8.strip_bom (UTF8.scalar_values s) = UTF8.scalar_values s.
Proof.
  destruct s as [|a [|b t]]; intros Hs; [reflexivity | |].
  - cbn [UTF8.scalar_values UTF8.starts_with_bom] in *.
    destruct (UTF8.is_high a); [reflexivity|].
    destruct (UTF8.is_low a); [reflexivity|].
    cbn [UTF8.strip_bom]. now rewrite Hs.
  - rewrite scalar_values_cons2. cbn [UTF8.starts_with_bom] in Hs.
    destruct (UTF8.is_high a) eqn:Ha.
    + destruct (UTF8.is_low b) eqn:Hb; [|reflexivity].
      cbn [UTF8.strip_bom].
      unfold UTF8.is_high in Ha. unfold UTF8.is_low in Hb.
      apply andb_prop in Ha as [Ha1 Ha2]. apply andb_prop in Hb as [Hb1 Hb2].
      apply N.leb_le in Ha1, Ha2, Hb1, Hb2.
      destruct (N.eqb_spec (0x10000 + (a - 0xD800) * 0x400 + (b - 0xDC00)) UTF8.BOM)
        as [E|E]; [|reflexivity].
      unfold UTF8.BOM in E. lia.
    + destruct (UTF8.is_low a); [reflexivity|].
      cbn [UTF8.strip_bom]. now rewrite Hs.
Qed.

(** [decoder.decode(encoder.encode(s))] in general... *)
Lemma decode_encode_string (s : jsstring) :
  Forall (fun c => c < 0x10000) s ->
  UTF8.decode (UTF8.encode s)
  = flat_map UTF8.units_of_cp (UTF8.strip_bom (UTF8.scalar_values s)).
Proof.
  intros Hs. unfold UTF8.decode, UTF8.encode.
  now rewrite decode_flat_encode by now apply scalar_values_scalar.
Qed.

Lemma utf8_roundtrip (s : jsstring) :
  UTF8.well_formed s = true -> UTF8.starts_with_bom s = false ->
  UTF8.decode (UTF8.encode s) = s.
Proof.
  intros Hwf Hbom.
  rewrite decode_encode_string by now apply well_formed_units.
  rewrite strip_bom_scalar_values by assumption.
  now apply units_scalar_values.
Qed.

(** ** The codec of SecurityManager *)

Lemma random_bytes_length (n : nat) (w : World) : length (random_bytes n w) = n.
Proof. unfold random_bytes. now rewrite length_map, length_seq. Qed.

Lemma SM_arrayBufferToBase64_eval {wc : WebCrypto} (buffer : bytes) (w : World) :
  SecurityManager.arrayBufferToBase64 buffer w = (Ok (Base64.encode buffer), w).
Proof.
  unfold SecurityManager.arrayBufferToBase64. now rewrite btoa_binary.
Qed.

Lemma SM_base64ToArrayBuffer_encode (buffer : bytes) (w : World) :
  SecurityManager.base64ToArrayBuffer (Base64.encode buffer) w = (Ok buffer, w).
Proof.
  unfold SecurityManager.base64ToArrayBuffer.
  now rewrite atob_encode, map_byte_of_N_to_N.
Qed.

Lemma firstn_prefix {A} (n : nat) (l1 l2 : list A) :
  length l1 = n -> firstn n (l1 ++ l2) = l1.
Proof.
  intros <-. induction l1 as [|a l1 IH]; cbn [length firstn app].
  - now destruct l2.
  - now rewrite IH.
Qed.

Lemma skipn_prefix {A} (n : nat) (l1 l2 : list A) :
  length l1 = n -> skipn n (l1 ++ l2) = l2.
Proof.
  intros <-. induction l1 as [|a l1 IH]; cbn [length skipn app];
    [reflexivity | exact IH].
Qed.

Lemma SM_encrypt_eval {wc : WebCrypto} (plaintext : jsval) (k : CryptoKey)
    (w : World) :
  SecurityManager.encrypt plaintext k w
  = (Ok (sealed plaintext k (random_bytes 12 w)), consume 12 w).
Proof.
  unfold SecurityManager.encrypt, bind, getRandomValues.
  now rewrite SM_arrayBufferToBase64_eval.
Qed.

Lemma SM_decrypt_sealed {wc : WebCrypto} (plaintext : jsval) (k : CryptoKey)
    (iv : bytes) (w : World) :
  aead_correct wc -> length iv = 12%nat ->
  SecurityManager.decrypt (sealed plaintext k iv) k w
  = (Ok (UTF8.decode (TextEncoder_encode plaintext)), w).
Proof.
  intros Hc Hiv. unfold SecurityManager.decrypt, sealed, bind.
  rewrite SM_base64ToArrayBuffer_encode.
  rewrite firstn_prefix, skipn_prefix by assumption.
  now rewrite Hc by assumption.
Qed.

Lemma SM_roundtrip_general {wc : WebCrypto} (w : World) (plaintext : jsval)
    (k : CryptoKey) :
  aead_correct wc ->
  (c <- SecurityManager.encrypt plaintext k ;; SecurityManager.decrypt c k) w
  = (Ok (UTF8.decode (TextEncoder_encode plaintext)), consume 12 w).
Proof.
  intros Hc. unfold bind at 1. rewrite SM_encrypt_eval.
  apply SM_decrypt_sealed; [assumption | apply random_bytes_length].
Qed.

(** C8 (as amended): for every key and every plaintext string that is
    well-formed UTF-16 and does not begin with U+FEFF, decrypting what
    [encrypt] produced under the same key returns exactly the plaintext. *)
Theorem SM_decrypt_encrypt_wellformed (wc : WebCrypto) (w : World)
    (s : jsstring) (k : CryptoKey) :
  aead_correct wc ->
  UTF8.well_formed s = true ->
  UTF8.starts_with_bom s = false ->
  (c <- SecurityManager.encrypt (JString s) k ;; SecurityManager.decrypt c k) w
  = (Ok s, consume 12 w).
Proof.
  intros Hc Hwf Hbom. rewrite SM_roundtrip_general by assumption.
  cbn [TextEncoder_encode ToString].
  now rewrite utf8_roundtrip.
Qed.

(** ** The toy instance satisfies the laws *)

Lemma toy_tag_length (k : CryptoKey) (iv body : bytes) :
  length (Toy.toy_tag k iv body) = 16%nat.
Proof. reflexivity. Qed.

Lemma toy_aead_length : aead_length Toy.toy.
Proof.
  intros k iv m. cbn [aes_gcm_encrypt Toy.toy]. unfold Toy.toy_encrypt.
  now rewrite length_app, length_map, toy_tag_length.
Qed.

Lemma bytes_eqb_refl (a : bytes) : Toy.bytes_eqb a a = true.
Proof.
  unfold Toy.bytes_eqb. now destruct (list_eq_dec byte_eq_dec a a).
Qed.

Lemma toy_unshift (s : N) (m : bytes) :
  s < 256 ->
  map (fun b => byte_of_N (Byte.to_N b + 256 - s))
      (map (fun b => byte_of_N (Byte.to_N b + s)) m) = m.
Proof.
  intros Hs. induction m as [|b m IH]; cbn [map]; [reflexivity|].
  rewrite IH. f_equal.
  rewrite to_N_byte_of_N.
  pose proof (Byte.to_N_bounded b).
  rewrite <- (byte_of_N_to_N b) at 2.
  unfold byte_of_N.
  replace (((Byte.to_N b + s) mod 256 + 256 - s) mod 256)
    with (Byte.to_N b mod 256) by lia.
  reflexivity.
Qed.

Lemma toy_aead_correct : aead_correct Toy.toy.
Proof.
  intros k iv m _. cbn [aes_gcm_encrypt aes_gcm_decrypt Toy.toy].
  unfold Toy.toy_decrypt, Toy.toy_encrypt.
  set (body := map (fun b => byte_of_N (Byte.to_N b + Toy.shift k iv)) m).
  assert (Hlen : (length (body ++ Toy.toy_tag k iv body) - 16 = length body)%nat).
  { rewrite length_app, toy_tag_length. lia. }
  destruct (Nat.ltb_spec (length (body ++ Toy.toy_tag k iv body)) 16) as [H|H].
  { rewrite length_app, toy_tag_length in H. lia. }
  rewrite Hlen, firstn_prefix, skipn_prefix by reflexivity.
  rewrite bytes_eqb_refl. subst body.
  rewrite toy_unshift; [reflexivity|].
  unfold Toy.shift. apply N.mod_upper_bound. discriminate.
Qed.

Lemma SM_decrypt_encrypt_wellformed_witness :
  (c <- SecurityManager.encrypt (wc := Toy.toy) (JString (js "hunter2")) Toy.key0 ;;
   SecurityManager.decrypt (wc := Toy.toy) c Toy.key0) Toy.world0
  = (Ok (js "hunter2"), consume 12 Toy.world0).
Proof.
  apply (SM_decrypt_encrypt_wellformed Toy.toy Toy.world0 (js "hunter2") Toy.key0).
  - exact toy_aead_correct.
  - reflexivity.
  - reflexivity.
Defined.

(** C8, counterexample: a string holding an unpaired surrogate comes back
    changed, the surrogate replaced by U+FFFD. *)
Lemma SM_roundtrip_lone_surrogate :
  fst ((c <- SecurityManager.encrypt (wc := Toy.toy) (JString [0xD800]) Toy.key0 ;;
        SecurityManager.decrypt (wc := Toy.toy) c Toy.key0) Toy.world0)
  = Ok [0xFFFD]
  /\ str_eqb [0xFFFD] [0xD800] = false.
Proof. split; vm_compute; reflexivity. Qed.

(** A leading U+FEFF is lost the same way. *)
Lemma SM_roundtrip_leading_bom :
  fst ((c <- SecurityManager.encrypt (wc := Toy.toy)
               (JString (0xFEFF :: js "abc")) Toy.key0 ;;
        SecurityManager.decrypt (wc := Toy.toy) c Toy.key0) Toy.world0)
  = Ok (js "abc").
Proof. vm_compute. reflexivity. Qed.

(** Independently of the instance: what comes back is the plaintext
    with unpaired surrogates replaced and a leading U+FEFF removed. *)
Lemma SM_roundtrip_characterised {wc : WebCrypto} (w : World) (s : jsstring)
    (k : CryptoKey) :
  aead_correct wc -> Forall (fun c => c < 0x10000) s ->
  (c <- SecurityManager.encrypt (JString s) k ;; SecurityManager.decrypt c k) w
  = (Ok (flat_map UTF8.units_of_cp (UTF8.strip_bom (UTF8.scalar_values s))),
     consume 12 w).
Proof.
  intros Hc Hs. rewrite SM_roundtrip_general by assumption.
  cbn [TextEncoder_encode ToString]. now rewrite decode_encode_string.
Qed.

(** ** The classifier *)

Lemma sealed_isBase64 {wc : WebCrypto} (p : jsval) (k : CryptoKey) (iv : bytes) :
  aead_length wc -> length iv = 12%nat ->
  CryptoUtils.isBase64 (JString (sealed p k iv)) = true.
Proof.
  intros Hl Hiv. apply isBase64_encode.
  rewrite length_app, Hl, Hiv. lia.
Qed.

Lemma isBase64_true_inv (str : jsstring) :
  CryptoUtils.isBase64 (JString str) = true ->
  N.of_nat (length str) mod 4 = 0 /\
  CryptoUtils.base64Regex_test str = true /\
  exists decoded, Base64.atob str = Some decoded /\
                  28 <= N.of_nat (length decoded).
Proof.
  unfold CryptoUtils.isBase64.
  destruct (truthy str); cbn [negb]; [|discriminate].
  destruct (N.eqb_spec (N.of_nat (length str) mod 4) 0); cbn [negb];
    [|discriminate].
  destruct (CryptoUtils.base64Regex_test str); cbn [negb]; [|discriminate].
  destruct (Base64.atob str) as [decoded|]; [|discriminate].
  destruct (N.ltb_spec (N.of_nat (length decoded)) 28); cbn [negb];
    [discriminate|].
  intros _. repeat split; try assumption. now exists decoded.
Qed.

(** C9: [isBase64] accepts every string [encrypt] produces, and rejects
    every string that is not valid base64 (fails the pattern or does not
    decode), whose length is not a multiple of 4, or whose decoded form is
    shorter than 28 bytes. *)
Theorem isBase64_classifier (wc : WebCrypto) :
  aead_length wc ->
  (forall (w : World) (plaintext : jsval) (k : CryptoKey),
      exists c, fst (SecurityManager.encrypt plaintext k w) = Ok c /\
                CryptoUtils.isBase64 (JString c) = true) /\
  (forall str : jsstring,
      CryptoUtils.base64Regex_test str = false \/
      Base64.atob str = None \/
      N.of_nat (length str) mod 4 <> 0 \/
      (exists decoded, Base64.atob str = Some decoded /\
                       N.of_nat (length decoded) < 28) ->
      CryptoUtils.isBase64 (JString str) = false).
Proof.
  intros Hl. split.
  - intros w p k. rewrite SM_encrypt_eval. eexists. split; [reflexivity|].
    apply sealed_isBase64; [assumption | apply random_bytes_length].
  - intros str H.
    destruct (CryptoUtils.isBase64 (JString str)) eqn:E; [|reflexivity].
    apply isBase64_true_inv in E as (Hm & Hr & d & Hd & Hlen).
    destruct H as [H | [H | [H | (d' & Hd' & H)]]]; try congruence.
    rewrite Hd in Hd'. injection Hd' as <-. lia.
Qed.

Lemma isBase64_classifier_witness :
  (exists c, fst (SecurityManager.encrypt (wc := Toy.toy)
                    (JString (js "hunter2")) Toy.key0 Toy.world0) = Ok c /\
             CryptoUtils.isBase64 (JString c) = true) /\
  CryptoUtils.isBase64 (JString (js "hunter2")) = false.
Proof.
  destruct (isBase64_classifier Toy.toy toy_aead_length) as [Henc Hrej].
  split.
  - apply Henc.
  - apply Hrej. right. right. left. vm_compute. discriminate.
Defined.

(** ** The codec of CryptoUtils *)

Lemma CU_arrayBufferToBase64_eval (buffer : bytes) (w : World) :
  CryptoUtils.arrayBufferToBase64 buffer w = (Ok (Base64.encode buffer), w).
Proof.
  unfold CryptoUtils.arrayBufferToBase64. now rewrite btoa_binary.
Qed.

Lemma CU_base64ToArrayBuffer_encode (buffer : bytes) (w : World) :
  CryptoUtils.base64ToArrayBuffer (JString (Base64.encode buffer)) w
  = (Ok buffer, w).
Proof.
  unfold CryptoUtils.base64ToArrayBuffer. cbn [ToString].
  now rewrite atob_encode, map_byte_of_N_to_N.
Qed.

Lemma CU_encrypt_eval {wc : WebCrypto} (plaintext password : jsval) (w : World) :
  CryptoUtils.encrypt plaintext password w
  = (Ok (sealed_with_salt plaintext password
           (random_bytes 16 w) (random_bytes 12 (consume 16 w))),
     consume 12 (consume 16 w)).
Proof.
  unfold CryptoUtils.encrypt, try_catch, bind, CryptoUtils.generateSalt,
    CryptoUtils.generateIV, getRandomValues.
  now rewrite CU_arrayBufferToBase64_eval.
Qed.

Lemma CU_decrypt_sealed {wc : WebCrypto} (plaintext password password' : jsval)
    (salt iv : bytes) (w : World) :
  aead_correct wc -> length salt = 16%nat -> length iv = 12%nat ->
  TextEncoder_encode password' = TextEncoder_encode password ->
  CryptoUtils.decrypt (JString (sealed_with_salt plaintext password salt iv))
                      password' w
  = (Ok (UTF8.decode (TextEncoder_encode plaintext)), w).
Proof.
  intros Hc Hsalt Hiv Hpw.
  unfold CryptoUtils.decrypt, try_catch, bind, sealed_with_salt.
  rewrite CU_base64ToArrayBuffer_encode.
  rewrite firstn_prefix by assumption.
  rewrite skipn_prefix by assumption.
  rewrite firstn_prefix by assumption.
  replace (skipn 28 (salt ++ iv ++
             aes_gcm_encrypt (CryptoUtils.deriveKey password salt) iv
               (TextEncoder_encode plaintext)))
    with (aes_gcm_encrypt (CryptoUtils.deriveKey password salt) iv
            (TextEncoder_encode plaintext)).
  2:{ rewrite app_assoc. symmetry. apply skipn_prefix.
      rewrite length_app. lia. }
  unfold CryptoUtils.deriveKey. rewrite Hpw.
  now rewrite Hc by assumption.
Qed.

Lemma sealed_with_salt_isBase64 {wc : WebCrypto} (plaintext password : jsval)
    (salt iv : bytes) :
  aead_length wc -> length salt = 16%nat -> length iv = 12%nat ->
  CryptoUtils.isBase64 (JString (sealed_with_salt plaintext password salt iv))
  = true.
Proof.
  intros Hl Hsalt Hiv. apply isBase64_encode.
  rewrite !length_app, Hl, Hsalt, Hiv. lia.
Qed.

(** Every [CryptoKey] is encoded to the same password bytes. *)
Lemma CryptoKey_encoding (k1 k2 : CryptoKey) :
  TextEncoder_encode (JCryptoKey k1) = TextEncoder_encode (JCryptoKey k2).
Proof. cbn [TextEncoder_encode ToString]. reflexivity. Qed.

(** C1, on the code: [decryptPassword] under any key [k2] opens what
    [encryptPassword] sealed under any key [k1], and returns the
    plaintext; the two keys need not be equal. *)
Theorem decryptPassword_accepts_any_key (wc : WebCrypto) (w : World)
    (s : jsstring) (k1 k2 : CryptoKey) :
  aead_correct wc -> aead_length wc ->
  UTF8.well_formed s = true -> UTF8.starts_with_bom s = false ->
  (c <- CryptoUtils.encryptPassword (JString s) (JCryptoKey k1) ;;
   CryptoUtils.decryptPassword (JString c) (JCryptoKey k2)) w
  = (Ok s, consume 12 (consume 16 w)).
Proof.
  intros Hc Hl Hwf Hbom.
  unfold bind, CryptoUtils.encryptPassword. cbn [is_truthy negb].
  rewrite CU_encrypt_eval.
  unfold CryptoUtils.decryptPassword.
  rewrite sealed_with_salt_isBase64
    by (try assumption; apply random_bytes_length).
  cbn [is_truthy negb].
  rewrite (CU_decrypt_sealed _ (JCryptoKey k1) (JCryptoKey k2))
    by (try assumption; try apply random_bytes_length;
        apply CryptoKey_encoding).
  cbn [TextEncoder_encode ToString]. now rewrite utf8_roundtrip.
Qed.

Lemma decryptPassword_accepts_any_key_witness :
  (c <- CryptoUtils.encryptPassword (wc := Toy.toy)
          (JString (js "hunter2")) (JCryptoKey Toy.key0) ;;
   CryptoUtils.decryptPassword (wc := Toy.toy)
          (JString c) (JCryptoKey Toy.key1)) Toy.world0
  = (Ok (js "hunter2"), consume 12 (consume 16 Toy.world0)).
Proof.
  apply (decryptPassword_accepts_any_key Toy.toy Toy.world0 (js "hunter2")
           Toy.key0 Toy.key1).
  - exact toy_aead_correct.
  - exact toy_aead_length.
  - reflexivity.
  - reflexivity.
Defined.

(** The same by evaluation, the two keys being different. *)
Lemma decryptPassword_other_key_example :
  Toy.bytes_eqb Toy.key0 Toy.key1 = false /\
  fst ((c <- CryptoUtils.encryptPassword (wc := Toy.toy)
               (JString (js "hunter2")) (JCryptoKey Toy.key0) ;;
        CryptoUtils.decryptPassword (wc := Toy.toy)
               (JString c) (JCryptoKey Toy.key1)) Toy.world0)
  = Ok (js "hunter2").
Proof. split; vm_compute; reflexivity. Qed.

(** ** The session authority *)

Lemma str_eqb_eq (s t : jsstring) : str_eqb s t = true <-> s = t.
Proof.
  unfold str_eqb. destruct (jsstring_eq_dec s t); split; congruence.
Qed.

Lemma str_eqb_refl (s : jsstring) : str_eqb s s = true.
Proof. now apply str_eqb_eq. Qed.

Lemma str_eqb_neq (s t : jsstring) : s <> t -> str_eqb s t = false.
Proof.
  intros H. destruct (str_eqb s t) eqn:E; [|reflexivity].
  apply str_eqb_eq in E. contradiction.
Qed.

Lemma or_default_truthy (m : jsstring) : truthy (Background.or_default m) = true.
Proof. unfold Background.or_default. now destruct m. Qed.

Lemma or_default_idem (m : jsstring) :
  Background.or_default (Background.or_default m) = Background.or_default m.
Proof. now destruct m. Qed.

Lemma or_default_nonempty (m : jsstring) : m <> [] -> Background.or_default m = m.
Proof. destruct m; [congruence | reflexivity]. Qed.

Lemma exported_key_truthy (raw : bytes) :
  length raw = 32%nat -> truthy (Base64.encode raw) = true.
Proof. intros H. apply encode_nonempty. intros ->. discriminate H. Qed.

(** What [setSessionKey] leaves behind. *)
Lemma setSessionKey_response (k mode : jsstring) (w : World) :
  fst (Background.setSessionKey k mode w) = Ok (Background.mkResponse true None).
Proof.
  unfold Background.setSessionKey, Background.alarms_clear,
    Background.alarms_create, bind, modify, Date_now, gets, ret.
  destruct (str_eqb _ (js "default")); [reflexivity|].
  destruct (str_eqb _ (js "today")); reflexivity.
Qed.

Lemma setSessionKey_memory (k mode : jsstring) (w : World) :
  sessionKey (snd (Background.setSessionKey k mode w)) = Some k /\
  sessionMode (snd (Background.setSessionKey k mode w))
  = Background.or_default mode.
Proof.
  unfold Background.setSessionKey, Background.alarms_clear,
    Background.alarms_create, bind, modify, Date_now, gets, ret.
  destruct (str_eqb _ (js "default")); [split; reflexivity|].
  destruct (str_eqb _ (js "today")); split; reflexivity.
Qed.

Lemma setSessionKey_mirror (k mode : jsstring) (w : World) :
  session (snd (Background.setSessionKey k mode w))
  = mkSession (Some k) (Some (Background.or_default mode)) (Some (now w)).
Proof.
  unfold Background.setSessionKey, Background.alarms_clear,
    Background.alarms_create, bind, modify, Date_now, gets, ret.
  destruct (str_eqb _ (js "default")); [reflexivity|].
  destruct (str_eqb _ (js "today")); reflexivity.
Qed.

Lemma setSessionKey_clock (k mode : jsstring) (w : World) :
  now (snd (Background.setSessionKey k mode w)) = now w /\
  tz_offset (snd (Background.setSessionKey k mode w)) = tz_offset w.
Proof.
  unfold Background.setSessionKey, Background.alarms_clear,
    Background.alarms_create, bind, modify, Date_now, gets, ret.
  destruct (str_eqb _ (js "default")); [split; reflexivity|].
  destruct (str_eqb _ (js "today")); split; reflexivity.
Qed.

Lemma setSessionKey_alarm (k mode : jsstring) (w : World) :
  alarm (snd (Background.setSessionKey k mode w))
  = if str_eqb (Background.or_default mode) (js "default")
    then Some (now w + 30 * 60000)%Z
    else if str_eqb (Background.or_default mode) (js "today")
    then Some (now w +
               Z.max 1 (Background.ceil_div
                          (Background.end_of_day (tz_offset w) (now w) - now w)
                          60000) * 60000)%Z
    else None.
Proof.
  unfold Background.setSessionKey, Background.alarms_clear,
    Background.alarms_create, bind, modify, Date_now, gets, ret.
  destruct (str_eqb _ (js "default")); [reflexivity|].
  destruct (str_eqb _ (js "today")); reflexivity.
Qed.

(** [getSessionKey] with the key in memory. *)
Lemma getSessionKey_memory (k : jsstring) (w : World) :
  sessionKey w = Some k -> truthy k = true ->
  Background.getSessionKey w = (Ok (Background.mkResponse true (Some k)), w).
Proof.
  intros Hk Ht. unfold Background.getSessionKey, bind, gets.
  now rewrite Hk, Ht.
Qed.

(** [getSessionKey] after a restart, the mirror holding a session. *)
Lemma getSessionKey_mirror (k m : jsstring) (c : Z) (w : World) :
  sessionKey w = None ->
  session w = mkSession (Some k) (Some m) (Some c) ->
  truthy k = true -> truthy m = true ->
  Background.getSessionKey w
  = if Background.expired (tz_offset w) m c (now w)
    then (Ok Background.session_expired_response, set_session empty_session w)
    else (Ok (Background.mkResponse true (Some k)), set_memory (Some k) m w).
Proof.
  intros Hmem Hs Hk Hm.
  unfold Background.getSessionKey, Background.restore_from_mirror, bind, gets.
  rewrite Hmem, Hs. cbn [ss_sessionKey ss_sessionMode ss_sessionCreatedAt].
  rewrite Hk. unfold Background.or_default. rewrite Hm.
  unfold Date_now, gets.
  now destruct (Background.expired (tz_offset w) m c (now w)).
Qed.

(** The expiry rule, mode by mode. *)
Lemma expired_default (tz : TimeZone) (c t : Z) :
  Background.expired tz (js "default") c t = true <-> (t - c > 30 * 60 * 1000)%Z.
Proof.
  unfold Background.expired. rewrite str_eqb_refl.
  rewrite (str_eqb_neq (js "default") (js "today")) by discriminate.
  cbn [andb]. destruct (Z.gtb_spec (t - c) (30 * 60 * 1000)).
  - split; [lia | reflexivity].
  - split; [discriminate | lia].
Qed.

Lemma expired_today (tz : TimeZone) (c t : Z) :
  Background.expired tz (js "today") c t = true
  <-> Background.local_day tz c <> Background.local_day tz t.
Proof.
  unfold Background.expired.
  rewrite (str_eqb_neq (js "today") (js "default")) by discriminate.
  rewrite str_eqb_refl. cbn [andb].
  destruct (Z.eqb_spec (Background.local_day tz c) (Background.local_day tz t));
    cbn [negb]; split; congruence.
Qed.

Lemma expired_other (tz : TimeZone) (c t : Z) (m : jsstring) :
  m <> js "default" -> m <> js "today" -> Background.expired tz m c t = false.
Proof.
  intros H1 H2. unfold Background.expired.
  now rewrite (str_eqb_neq m _ H1), (str_eqb_neq m _ H2).
Qed.

Lemma restarted_world (dt : Z) (w : World) :
  sessionKey (Background.tick dt (Background.restart w)) = None /\
  session (Background.tick dt (Background.restart w)) = session w /\
  now (Background.tick dt (Background.restart w)) = (now w + dt)%Z /\
  tz_offset (Background.tick dt (Background.restart w)) = tz_offset w.
Proof. repeat split. Qed.

(** [getSessionKey] after [setSessionKey], a restart and [dt]
    milliseconds, the alarm not having been delivered. *)
Lemma getSessionKey_after_restart (w : World) (k mode : jsstring) (dt : Z) :
  truthy k = true ->
  Background.getSessionKey
    (Background.tick dt (Background.restart
       (snd (Background.setSessionKey k mode w))))
  = let w2 := Background.tick dt (Background.restart
                (snd (Background.setSessionKey k mode w))) in
    if Background.expired (tz_offset w) (Background.or_default mode)
         (now w) (now w + dt)
    then (Ok Background.session_expired_response, set_session empty_session w2)
    else (Ok (Background.mkResponse true (Some k)),
          set_memory (Some k) (Background.or_default mode) w2).
Proof.
  intros Hk. cbv zeta.
  set (w1 := snd (Background.setSessionKey k mode w)).
  destruct (restarted_world dt w1) as (Hm & Hs & Hn & Htz).
  destruct (setSessionKey_clock k mode w) as [Hn1 Htz1].
  fold w1 in Hn1, Htz1.
  rewrite (getSessionKey_mirror k (Background.or_default mode) (now w));
    [ | assumption
      | rewrite Hs; apply setSessionKey_mirror
      | assumption
      | apply or_default_truthy ].
  now rewrite Hn, Htz, Hn1, Htz1.
Qed.

(** Delivery of the alarm. *)
Lemma alarm_fires_early (w : World) (ta : Z) :
  alarm w = Some ta -> (now w < ta)%Z -> Background.alarm_fires w = w.
Proof.
  intros Ha Hlt. unfold Background.alarm_fires. rewrite Ha.
  destruct (Z.leb_spec ta (now w)); [lia | reflexivity].
Qed.

Lemma alarm_fires_due (w : World) (ta : Z) :
  alarm w = Some ta -> (ta <= now w)%Z ->
  sessionKey (Background.alarm_fires w) = None /\
  session (Background.alarm_fires w) = empty_session /\
  alarm (Background.alarm_fires w) = None.
Proof.
  intros Ha Hle. unfold Background.alarm_fires. rewrite Ha.
  destruct (Z.leb_spec ta (now w)); [|lia].
  repeat split.
Qed.

Lemma getSessionKey_locked (w : World) :
  sessionKey w = None -> session w = empty_session ->
  Background.getSessionKey w = (Ok (Background.mkResponse false None), w).
Proof.
  intros Hm Hs.
  unfold Background.getSessionKey, Background.restore_from_mirror, bind, gets.
  now rewrite Hm, Hs.
Qed.

(** C7 (as amended): after [setSessionKey(k, m)] and a restart of the
    service worker that keeps the mirror, as long as the alarm has not been
    delivered, [getSessionKey] returns [k] and puts it back into memory
    when the session is not expired under the rule recomputed from the
    mirror, and otherwise removes the mirror and returns no key.  The rule:
    a 'default' session is expired when more than 30 minutes have passed; a
    'today' session when the local calendar day of the instant, taken with
    the offset in force at that instant, is not the local calendar day of
    the creation, taken with the offset in force then; a session of any
    other mode never.  Once the alarm has been delivered no key is
    returned, whatever the rule says. *)
Theorem session_survives_restart (w : World) (raw : bytes) (mode : jsstring)
    (dt : Z) :
  length raw = 32%nat ->
  let k := Base64.encode raw in
  let m := Background.or_default mode in
  let w2 := Background.tick dt (Background.restart
              (snd (Background.setSessionKey k mode w))) in
  ((m = js "default" /\ (dt <= 30 * 60 * 1000)%Z) \/
   (m = js "today" /\
    ((now w + utc_offset (tz_offset w) (now w)) / 86400000
     = (now w + dt + utc_offset (tz_offset w) (now w + dt)) / 86400000)%Z) \/
   (m <> js "default" /\ m <> js "today") ->
   fst (Background.getSessionKey w2) = Ok (Background.mkResponse true (Some k)) /\
   sessionKey (snd (Background.getSessionKey w2)) = Some k) /\
  ((m = js "default" /\ (dt > 30 * 60 * 1000)%Z) \/
   (m = js "today" /\
    ((now w + utc_offset (tz_offset w) (now w)) / 86400000
     <> (now w + dt + utc_offset (tz_offset w) (now w + dt)) / 86400000)%Z) ->
   fst (Background.getSessionKey w2) = Ok (Background.mkResponse false None) /\
   session (snd (Background.getSessionKey w2)) = empty_session /\
   sessionKey (snd (Background.getSessionKey w2)) = None) /\
  (forall ta,
      alarm (snd (Background.setSessionKey k mode w)) = Some ta ->
      (ta <= now w + dt)%Z ->
      fst (Background.getSessionKey (Background.alarm_fires w2))
      = Ok (Background.mkResponse false None)).
Proof.
  intros Hraw k m w2.
  pose proof (getSessionKey_after_restart w k mode dt
                (exported_key_truthy raw Hraw)) as E.
  cbv zeta in E. fold w2 in E. fold m in E.
  split; [|split].
  - intros Hrule.
    assert (Hexp : Background.expired (tz_offset w) m (now w) (now w + dt)
                   = false).
    { destruct (Background.expired (tz_offset w) m (now w) (now w + dt)) eqn:X;
        [|reflexivity].
      destruct Hrule as [[Hm Hdt] | [[Hm Hday] | [Hm1 Hm2]]].
      - rewrite Hm in X. apply expired_default in X. lia.
      - rewrite Hm in X. apply expired_today in X.
        unfold Background.local_day in X. contradiction.
      - now rewrite expired_other in X. }
    rewrite E, Hexp. split; reflexivity.
  - intros Hrule.
    assert (Hexp : Background.expired (tz_offset w) m (now w) (now w + dt)
                   = true).
    { destruct Hrule as [[Hm Hdt] | [Hm Hday]]; rewrite Hm.
      - apply expired_default. lia.
      - apply expired_today. exact Hday. }
    rewrite E, Hexp. repeat split.
  - intros ta Ha Hta.
    destruct (restarted_world dt (snd (Background.setSessionKey k mode w)))
      as (_ & _ & Hn & _).
    destruct (setSessionKey_clock k mode w) as [Hn1 _].
    assert (Hta' : (ta <= now w2)%Z) by (unfold w2; rewrite Hn, Hn1; exact Hta).
    destruct (alarm_fires_due w2 ta Ha Hta') as (Hmem & Hmir & _).
    now rewrite (getSessionKey_locked _ Hmem Hmir).
Qed.

Lemma session_survives_restart_witness :
  fst (Background.getSessionKey
         (Background.tick 86400000
            (Background.restart
               (snd (Background.setSessionKey (Base64.encode Toy.key0)
                       (js "today") Toy.world_new_york)))))
  = Ok (Background.mkResponse true (Some (Base64.encode Toy.key0))).
Proof.
  apply (session_survives_restart Toy.world_new_york Toy.key0 (js "today")
           86400000).
  - reflexivity.
  - right. left. split; reflexivity.
Defined.

(** C7, counterexample: a 'today' session is created at 22:13:59.000, so
    that its alarm is set for 23:59:59.000 of the same day.  The service
    worker restarts, the alarm is delivered, and half a second later, still
    on the day of creation, [getSessionKey] returns no key although the
    session is not expired by the calendar rule. *)
Lemma session_purged_by_alarm_before_expiry :
  alarm (snd (Background.setSessionKey (Base64.encode Toy.key0) (js "today")
                (set_now 1700000039000 Toy.world0)))
  = Some (1700000039000 + 6360000)%Z /\
  Background.expired (fixed_zone 0) (js "today") 1700000039000
    (1700000039000 + 6360500) = false /\
  fst (Background.getSessionKey
         (Background.alarm_fires
            (Background.tick 6360500
               (Background.restart
                  (snd (Background.setSessionKey (Base64.encode Toy.key0)
                          (js "today")
                          (set_now 1700000039000 Toy.world0)))))))
  = Ok (Background.mkResponse false None).
Proof. repeat split; vm_compute; reflexivity. Qed.

(** C6 (as amended): with mode 'default', the alarm is set for 30 minutes
    after creation and cannot be delivered earlier.  While it has not been
    delivered, [getSessionKey] returns the key at every instant if the key
    is still in memory, and after a restart returns it up to and including
    30 minutes after creation, and no key (removing the mirror) at every
    instant later than that.  Once the alarm has been delivered, no key is
    returned, restart or not. *)
Theorem fixed_session_expiry (w : World) (raw : bytes) (dt : Z) :
  length raw = 32%nat -> (0 <= dt)%Z ->
  let k := Base64.encode raw in
  let w1 := snd (Background.setSessionKey k (js "default") w) in
  let kept := Background.tick dt w1 in
  let restarted := Background.tick dt (Background.restart w1) in
  let found := Ok (Background.mkResponse true (Some k)) in
  let absent := Ok (Background.mkResponse false None) in
  alarm w1 = Some (now w + 30 * 60 * 1000)%Z /\
  fst (Background.getSessionKey kept) = found /\
  ((dt <= 30 * 60 * 1000)%Z ->
   fst (Background.getSessionKey restarted) = found) /\
  ((dt > 30 * 60 * 1000)%Z ->
   fst (Background.getSessionKey restarted) = absent /\
   session (snd (Background.getSessionKey restarted)) = empty_session) /\
  ((dt < 30 * 60 * 1000)%Z ->
   Background.alarm_fires kept = kept /\
   Background.alarm_fires restarted = restarted) /\
  ((dt >= 30 * 60 * 1000)%Z ->
   fst (Background.getSessionKey (Background.alarm_fires kept)) = absent /\
   fst (Background.getSessionKey (Background.alarm_fires restarted)) = absent).
Proof.
  intros Hraw Hdt k w1 kept restarted found absent.
  pose proof (exported_key_truthy raw Hraw) as Hk. fold k in Hk.
  pose proof (setSessionKey_alarm k (js "default") w) as Ha.
  fold w1 in Ha. cbn [Background.or_default truthy js map list_ascii_of_string] in Ha.
  rewrite str_eqb_refl in Ha.
  destruct (setSessionKey_memory k (js "default") w) as [Hmem _].
  destruct (setSessionKey_clock k (js "default") w) as [Hnow _].
  fold w1 in Hmem, Hnow.
  pose proof (getSessionKey_after_restart w k (js "default") dt Hk) as E.
  cbv zeta in E. fold w1 in E. fold restarted in E.
  change (Background.or_default (js "default")) with (js "default") in E.
  assert (Hka : alarm kept = Some (now w + 30 * 60000)%Z) by exact Ha.
  assert (Hra : alarm restarted = Some (now w + 30 * 60000)%Z) by exact Ha.
  assert (Hkn : now kept = (now w + dt)%Z)
    by (unfold kept, Background.tick; cbn [now set_now]; now rewrite Hnow).
  assert (Hrn : now restarted = (now w + dt)%Z)
    by (unfold restarted, Background.tick, Background.restart;
        cbn [now set_now set_memory]; now rewrite Hnow).
  split; [exact Ha|].
  split.
  { unfold found. rewrite (getSessionKey_memory k); [reflexivity | exact Hmem | exact Hk]. }
  split.
  { intros Hle. rewrite E.
    destruct (Background.expired (tz_offset w) (js "default") (now w) (now w + dt))
      eqn:X; [|reflexivity].
    apply expired_default in X. lia. }
  split.
  { intros Hgt.
    assert (X : Background.expired (tz_offset w) (js "default") (now w) (now w + dt) = true)
      by (apply expired_default; lia).
    rewrite E, X. split; reflexivity. }
  split.
  { intros Hlt. split.
    - apply (alarm_fires_early kept _ Hka). lia.
    - apply (alarm_fires_early restarted _ Hra). lia. }
  intros Hge. split.
  - destruct (alarm_fires_due kept _ Hka) as (F1 & F2 & _); [lia|].
    now rewrite getSessionKey_locked.
  - destruct (alarm_fires_due restarted _ Hra) as (F1 & F2 & _); [lia|].
    now rewrite getSessionKey_locked.
Qed.

Lemma fixed_session_expiry_witness :
  fst (Background.getSessionKey
         (Background.tick 1800001
            (Background.restart
               (snd (Background.setSessionKey (Base64.encode Toy.key0)
                       (js "default") Toy.world0)))))
  = Ok (Background.mkResponse false None).
Proof.
  apply (fixed_session_expiry Toy.world0 Toy.key0 1800001); [reflexivity | lia | lia].
Defined.

(** C6, counterexample: exactly 30 minutes after creation, a restarted
    service worker still finds the session in the mirror and returns the
    key. *)
Lemma fixed_session_alive_at_deadline :
  fst (Background.getSessionKey
         (Background.tick (30 * 60 * 1000)
            (Background.restart
               (snd (Background.setSessionKey (Base64.encode Toy.key0)
                       (js "default") Toy.world0)))))
  = Ok (Background.mkResponse true (Some (Base64.encode Toy.key0))).
Proof. vm_compute. reflexivity. Qed.

(** With the key kept in memory and the alarm late, the key is returned
    long after the 30 minutes. *)
Lemma fixed_session_alive_while_alarm_late :
  fst (Background.getSessionKey
         (Background.tick (2 * 60 * 60 * 1000)
            (snd (Background.setSessionKey (Base64.encode Toy.key0)
                    (js "default") Toy.world0))))
  = Ok (Background.mkResponse true (Some (Base64.encode Toy.key0))).
Proof. vm_compute. reflexivity. Qed.

(** C10 (as amended): [setSessionKey] with a non-empty mode string other
    than 'default' and 'today' succeeds, keeps the key and that very mode
    in memory and in the mirror, leaves no alarm pending, and the
    recomputation after a restart never finds the session expired: the
    same as with mode 'browser'. *)
Theorem unrecognised_mode_like_browser (w : World) (raw : bytes)
    (mode : jsstring) (dt : Z) :
  length raw = 32%nat ->
  mode <> [] -> mode <> js "default" -> mode <> js "today" ->
  let k := Base64.encode raw in
  let w1 := snd (Background.setSessionKey k mode w) in
  let wb := snd (Background.setSessionKey k (js "browser") w) in
  fst (Background.setSessionKey k mode w) = Ok (Background.mkResponse true None) /\
  sessionKey w1 = Some k /\
  sessionMode w1 = mode /\
  session w1 = mkSession (Some k) (Some mode) (Some (now w)) /\
  alarm w1 = None /\
  (forall tz c t, Background.expired tz mode c t = false) /\
  fst (Background.getSessionKey (Background.tick dt (Background.restart w1)))
  = Ok (Background.mkResponse true (Some k)) /\
  alarm wb = alarm w1 /\
  fst (Background.getSessionKey (Background.tick dt (Background.restart wb)))
  = fst (Background.getSessionKey (Background.tick dt (Background.restart w1))).
Proof.
  intros Hraw Hne Hd Ht k w1 wb.
  pose proof (exported_key_truthy raw Hraw) as Hk. fold k in Hk.
  pose proof (or_default_nonempty mode Hne) as Hm.
  assert (Hexp : forall tz c t, Background.expired tz mode c t = false)
    by (intros; now apply expired_other).
  assert (Hget : fst (Background.getSessionKey
                        (Background.tick dt (Background.restart w1)))
                 = Ok (Background.mkResponse true (Some k))).
  { unfold w1. rewrite (getSessionKey_after_restart w k mode dt Hk).
    cbv zeta. now rewrite Hm, Hexp. }
  assert (Hgetb : fst (Background.getSessionKey
                         (Background.tick dt (Background.restart wb)))
                  = Ok (Background.mkResponse true (Some k))).
  { unfold wb. rewrite (getSessionKey_after_restart w k (js "browser") dt Hk).
    cbv zeta. change (Background.or_default (js "browser")) with (js "browser").
    rewrite expired_other by discriminate. reflexivity. }
  assert (Hal : alarm w1 = None).
  { unfold w1. rewrite setSessionKey_alarm, Hm.
    now rewrite (str_eqb_neq mode _ Hd), (str_eqb_neq mode _ Ht). }
  assert (Halb : alarm wb = None).
  { unfold wb. rewrite setSessionKey_alarm.
    change (Background.or_default (js "browser")) with (js "browser").
    now rewrite !str_eqb_neq by discriminate. }
  destruct (setSessionKey_memory k mode w) as [Hmem Hmode]. fold w1 in Hmem, Hmode.
  repeat split.
  - apply setSessionKey_response.
  - exact Hmem.
  - now rewrite Hmode.
  - unfold w1. now rewrite setSessionKey_mirror, Hm.
  - exact Hal.
  - exact Hexp.
  - exact Hget.
  - now rewrite Hal.
  - now rewrite Hget.
Qed.

Lemma unrecognised_mode_like_browser_witness :
  alarm (snd (Background.setSessionKey (Base64.encode Toy.key0)
                (js "forever") Toy.world0)) = None.
Proof.
  apply (unrecognised_mode_like_browser Toy.world0 Toy.key0 (js "forever") 0);
    [reflexivity | discriminate | discriminate | discriminate].
Defined.

(** C10, counterexample: the empty mode string is neither 'default' nor
    'today', yet it is replaced by 'default': the mode is not kept, an
    alarm is set for 30 minutes later, and after a restart the session is
    found expired once 30 minutes have passed. *)
Lemma empty_mode_is_default :
  sessionMode (snd (Background.setSessionKey (Base64.encode Toy.key0) []
                      Toy.world0)) = js "default" /\
  alarm (snd (Background.setSessionKey (Base64.encode Toy.key0) []
                Toy.world0)) = Some (now Toy.world0 + 30 * 60 * 1000)%Z /\
  fst (Background.getSessionKey
         (Background.tick (30 * 60 * 1000 + 1)
            (Background.restart
               (snd (Background.setSessionKey (Base64.encode Toy.key0) []
                       Toy.world0)))))
  = Ok (Background.mkResponse false None).
Proof. repeat split; vm_compute; reflexivity. Qed.

(** ** Verification of the passphrase *)

Lemma setSessionKey_total (k mode : jsstring) (w : World) :
  Background.setSessionKey k mode w
  = (Ok (Background.mkResponse true None),
     snd (Background.setSessionKey k mode w)).
Proof.
  rewrite <- (setSessionKey_response k mode w).
  now destruct (Background.setSessionKey k mode w).
Qed.

Lemma SM_base64ToArrayBuffer_eval (base64 : jsstring) (w : World) :
  SecurityManager.base64ToArrayBuffer base64 w
  = match Base64.atob base64 with
    | Some binary => (Ok (map byte_of_N binary), w)
    | None => (Throw InvalidCharacterError, w)
    end.
Proof.
  unfold SecurityManager.base64ToArrayBuffer.
  now destruct (Base64.atob base64).
Qed.

Lemma SM_decrypt_eval {wc : WebCrypto} (ciphertext : jsstring) (k : CryptoKey)
    (w : World) :
  SecurityManager.decrypt ciphertext k w
  = match Base64.atob ciphertext with
    | None => (Throw InvalidCharacterError, w)
    | Some binary =>
        let data := map byte_of_N binary in
        match aes_gcm_decrypt k (firstn 12 data) (skipn 12 data) with
        | Some decrypted => (Ok (UTF8.decode decrypted), w)
        | None => (Throw OperationError, w)
        end
    end.
Proof.
  unfold SecurityManager.decrypt, bind.
  rewrite SM_base64ToArrayBuffer_eval.
  destruct (Base64.atob ciphertext) as [binary|]; [|reflexivity].
  cbv zeta.
  now destruct (aes_gcm_decrypt k (firstn 12 (map byte_of_N binary))
                  (skipn 12 (map byte_of_N binary))).
Qed.




(** The same configuration with its salt intact accepts the passphrase
    and rejects another one as 'wrong password'. *)
Lemma verify_intact_config_example :
  SecurityManager.success
    (verification_outcome (wc := Toy.toy)
       (Toy.config_with 120000 Toy.salt0 Toy.iv0) (js "Abcd1234")) = true /\
  verification_outcome (wc := Toy.toy)
    (Toy.config_with 120000 Toy.salt0 Toy.iv0) (js "abcd1234")
  = SecurityManager.mkOutcome false SecurityManager.MsgWrongPassword None.
Proof. split; vm_compute; reflexivity. Qed.

(** ** Migration from the legacy scheme *)

Lemma CU_decrypt_eval {wc : WebCrypto} (ciphertext password : jsval) (w : World) :
  CryptoUtils.decrypt ciphertext password w
  = (legacy_open ciphertext password, w).
Proof.
  unfold CryptoUtils.decrypt, legacy_open, try_catch, bind,
    CryptoUtils.base64ToArrayBuffer, ret, throw.
  destruct (Base64.atob (ToString ciphertext)) as [binary|]; [|reflexivity].
  cbv zeta. now destruct (aes_gcm_decrypt _ _ _).
Qed.

Lemma log_all_nil (w : World) : log_all [] w = w.
Proof. destruct w. unfold log_all. cbn. now rewrite app_nil_r. Qed.

Lemma log_all_app (es1 es2 : list log_entry) (w : World) :
  log_all es2 (log_all es1 w) = log_all (es1 ++ es2) w.
Proof. unfold log_all. cbn. now rewrite app_assoc. Qed.

Lemma legacy_decrypt_eval {wc : WebCrypto} (cu : bool) (old : jsstring)
    (a : Account) (w : World) :
  SecurityManager.legacy_decrypt cu old a w
  = (Ok (a, legacy_plain cu old a),
     log_all (legacy_warnings cu old [a]) w).
Proof.
  unfold SecurityManager.legacy_decrypt, legacy_plain, legacy_warnings,
    legacy_failure, try_catch, bind. cbn [flat_map]. cbv zeta.
  destruct (cu && is_truthy (SecurityManager.jsval_of_password (acc_password a))).
  - rewrite CU_decrypt_eval.
    destruct (legacy_open _ _) as [d|e].
    + cbn [app]. now rewrite log_all_nil.
    + reflexivity.
  - cbn [app]. now rewrite log_all_nil.
Qed.

Lemma legacy_warnings_cons {wc : WebCrypto} (cu : bool) (old : jsstring)
    (a : Account) (accs : list Account) :
  legacy_warnings cu old (a :: accs)
  = legacy_warnings cu old [a] ++ legacy_warnings cu old accs.
Proof. unfold legacy_warnings. cbn [flat_map]. now rewrite app_nil_r. Qed.

Lemma legacy_decrypt_all_eval {wc : WebCrypto} (cu : bool) (old : jsstring)
    (accs : list Account) (w : World) :
  SecurityManager.legacy_decrypt_all cu old accs w
  = (Ok (map (fun a => (a, legacy_plain cu old a)) accs),
     log_all (legacy_warnings cu old accs) w).
Proof.
  revert w. induction accs as [|a accs IH]; intros w.
  - cbn. now rewrite log_all_nil.
  - cbn [SecurityManager.legacy_decrypt_all map]. unfold bind at 1.
    rewrite legacy_decrypt_eval. unfold bind at 1. rewrite IH.
    unfold ret. now rewrite log_all_app, <- legacy_warnings_cons.
Qed.

Lemma initializeMasterPassword_eval {wc : WebCrypto} (masterPassword : jsstring)
    (w : World) :
  fst (SecurityManager.validatePasswordStrength masterPassword) = true ->
  SecurityManager.initializeMasterPassword masterPassword w
  = (Ok (SecurityManager.mkOutcome true SecurityManager.MsgInitOk None),
     initialized masterPassword w).
Proof.
  intros Hv.
  unfold SecurityManager.initializeMasterPassword, try_catch, initialized.
  rewrite Hv. cbn [negb]. unfold bind at 1.
  unfold SecurityManager.generateSalt, getRandomValues at 1.
  unfold SecurityManager.SALT_LENGTH.
  unfold bind at 1. rewrite SM_encrypt_eval.
  unfold bind at 1. rewrite SM_arrayBufferToBase64_eval.
  unfold bind at 1, Date_now, gets.
  unfold bind at 1, SecurityManager.set_securityConfig, modify.
  unfold bind at 1. rewrite SM_arrayBufferToBase64_eval.
  unfold bind at 1. rewrite setSessionKey_total.
  reflexivity.
Qed.

Lemma setSessionKey_frame (k mode : jsstring) (w : World) :
  local (snd (Background.setSessionKey k mode w)) = local w /\
  entropy (snd (Background.setSessionKey k mode w)) = entropy w /\
  consumed (snd (Background.setSessionKey k mode w)) = consumed w /\
  console (snd (Background.setSessionKey k mode w)) = console w.
Proof.
  unfold Background.setSessionKey, Background.alarms_clear,
    Background.alarms_create, bind, modify, Date_now, gets, ret.
  destruct (str_eqb _ (js "default")); [repeat split|].
  destruct (str_eqb _ (js "today")); repeat split.
Qed.

Lemma reencrypt_all_eval {wc : WebCrypto} (newKey : CryptoKey)
    (ds : list (Account * jsval)) (w : World) :
  SecurityManager.reencrypt_all newKey ds w
  = (Ok (reencrypted newKey ds w), after_reencrypt ds w).
Proof.
  revert w. induction ds as [|[a dp] ds IH]; intros w; [reflexivity|].
  cbn [SecurityManager.reencrypt_all reencrypted after_reencrypt].
  unfold bind at 1. rewrite SM_encrypt_eval.
  unfold bind at 1. now rewrite IH.
Qed.

Lemma after_reencrypt_local {A} (l : list A) (w : World) :
  local (after_reencrypt l w) = local w.
Proof. revert w. induction l as [|x l IH]; intros w; [reflexivity|]. cbn. now rewrite IH. Qed.

Lemma after_reencrypt_console {A} (l : list A) (w : World) :
  console (after_reencrypt l w) = console w.
Proof. revert w. induction l as [|x l IH]; intros w; [reflexivity|]. cbn. now rewrite IH. Qed.

Lemma initialized_local {wc : WebCrypto} (p : jsstring) (w : World) :
  local (initialized p w)
  = mkLocal
      (Some (mkConfig (js "2.0") (Base64.encode (random_bytes 16 w))
               SecurityManager.PBKDF2_ITERATIONS
               (sealed (JString SecurityManager.VERIFICATION_TEXT)
                  (SecurityManager.deriveKey p (random_bytes 16 w))
                  (random_bytes 12 (consume 16 w)))
               (now w)))
      (masterPassword (local w)) (accounts (local w))
      (environments (local w)) (backup_v1_2_0 (local w)).
Proof.
  unfold initialized. cbv zeta.
  now rewrite (proj1 (setSessionKey_frame _ _ _)).
Qed.

Lemma initialized_console {wc : WebCrypto} (p : jsstring) (w : World) :
  console (initialized p w) = console w.
Proof.
  unfold initialized. cbv zeta.
  now rewrite (proj2 (proj2 (proj2 (setSessionKey_frame _ _ _)))).
Qed.

(** A successful run of [migrateFromOldVersion]. *)
Lemma migrateFromOldVersion_eval {wc : WebCrypto} (cu : bool)
    (old new : jsstring) (w : World) :
  masterPassword (local w) = Some old -> truthy old = true ->
  fst (SecurityManager.validatePasswordStrength new) = true ->
  SecurityManager.migrateFromOldVersion cu old new w
  = (Ok (SecurityManager.mkOutcome true SecurityManager.MsgMigrateOk None),
     migrated_world cu old new w).
Proof.
  intros Hmp Hold Hnew.
  unfold SecurityManager.migrateFromOldVersion, try_catch, bind at 1, gets.
  rewrite Hmp, Hold, str_eqb_refl. cbn [negb].
  unfold bind at 1. rewrite legacy_decrypt_all_eval.
  unfold bind at 1. rewrite initializeMasterPassword_eval by assumption.
  cbn [SecurityManager.success negb].
  unfold bind at 1, gets. rewrite initialized_local.
  cbn [securityConfig cfg_salt].
  unfold bind at 1. rewrite SM_base64ToArrayBuffer_encode.
  unfold bind at 1. rewrite reencrypt_all_eval.
  reflexivity.
Qed.

Lemma migrated_world_local {wc : WebCrypto} (cu : bool) (old new : jsstring)
    (w : World) :
  local (migrated_world cu old new w)
  = mkLocal
      (securityConfig
         (local (initialized new
            (log_all (legacy_warnings cu old
               match accounts (local w) with Some l => l | None => [] end) w))))
      None (Some (migrated_accounts cu old new w))
      (environments (local w)) (backup_v1_2_0 (local w)).
Proof.
  unfold migrated_world. cbv zeta.
  cbn [local set_local securityConfig masterPassword accounts environments
       backup_v1_2_0].
  rewrite after_reencrypt_local, initialized_local.
  reflexivity.
Qed.

Lemma migrated_world_console {wc : WebCrypto} (cu : bool) (old new : jsstring)
    (w : World) :
  console (migrated_world cu old new w)
  = console w ++
    legacy_warnings cu old
      match accounts (local w) with Some l => l | None => [] end.
Proof.
  unfold migrated_world. cbv zeta. cbn [console set_local].
  now rewrite after_reencrypt_console, initialized_console.
Qed.


Lemma reencrypted_isBase64 {wc : WebCrypto} (k : CryptoKey)
    (ds : list (Account * jsval)) (w : World) :
  aead_length wc ->
  Forall (fun a => exists c, acc_password a = Some c /\
                             CryptoUtils.isBase64 (JString c) = true)
         (reencrypted k ds w).
Proof.
  intros Hl. revert w. induction ds as [|[a dp] ds IH]; intros w;
    cbn [reencrypted]; constructor; [|apply IH].
  eexists. split; [reflexivity|].
  apply sealed_isBase64; [assumption | apply random_bytes_length].
Qed.

Lemma reencrypted_nth {wc : WebCrypto} (k : CryptoKey)
    (ds : list (Account * jsval)) (w : World) (i : nat) (a : Account)
    (dp : jsval) :
  nth_error ds i = Some (a, dp) ->
  exists iv, length iv = 12%nat /\
    nth_error (reencrypted k ds w) i
    = Some (mkAccount (acc_id a) (acc_envId a) (acc_username a)
                      (Some (sealed dp k iv))).
Proof.
  revert w i. induction ds as [|[a0 dp0] ds IH]; intros w i H.
  - destruct i; discriminate H.
  - destruct i as [|i]; cbn [nth_error reencrypted] in *.
    + injection H as -> ->. eexists. split; [|reflexivity].
      apply random_bytes_length.
    + now apply IH.
Qed.

(** UTF-8 never encodes a string in fewer bytes than it has code units. *)
Lemma encode_cp_length (cp : N) :
  (1 <= length (UTF8.encode_cp cp))%nat /\
  (0x10000 <= cp -> length (UTF8.encode_cp cp) = 4%nat).
Proof.
  unfold UTF8.encode_cp.
  destruct (N.ltb_spec cp 0x80); [split; [cbn; lia | lia]|].
  destruct (N.ltb_spec cp 0x800); [split; [cbn; lia | lia]|].
  destruct (N.ltb_spec cp 0x10000); split; cbn; lia.
Qed.

Lemma utf8_encode_length (s : jsstring) :
  (length s <= length (UTF8.encode s))%nat.
Proof.
  unfold UTF8.encode.
  induction s as [|a|a b t IHt IHbt] using list_ind2.
  - cbn. lia.
  - cbn [UTF8.scalar_values].
    destruct (UTF8.is_high a); [cbn; lia|].
    destruct (UTF8.is_low a); [cbn; lia|].
    cbn [flat_map length]. rewrite app_nil_r.
    destruct (encode_cp_length a). cbn [length]. lia.
  - rewrite scalar_values_cons2.
    destruct (UTF8.is_high a) eqn:Ha.
    + destruct (UTF8.is_low b) eqn:Hb.
      * cbn [flat_map]. rewrite length_app.
        unfold UTF8.is_high in Ha. unfold UTF8.is_low in Hb.
        apply andb_prop in Ha as [Ha1 Ha2]. apply andb_prop in Hb as [Hb1 Hb2].
        apply N.leb_le in Ha1, Ha2, Hb1, Hb2.
        destruct (encode_cp_length
                    (0x10000 + (a - 0xD800) * 0x400 + (b - 0xDC00))) as [_ H4].
        rewrite H4 by lia. cbn [length]. lia.
      * cbn [flat_map]. rewrite length_app. cbn [length] in *. 
        change (length (UTF8.encode_cp UTF8.replacement)) with 3%nat. lia.
    + destruct (UTF8.is_low a).
      * cbn [flat_map]. rewrite length_app. cbn [length] in *.
        change (length (UTF8.encode_cp UTF8.replacement)) with 3%nat. lia.
      * cbn [flat_map]. rewrite length_app. cbn [length] in *.
        destruct (encode_cp_length a). lia.
Qed.

Lemma sealed_longer {wc : WebCrypto} (p : jsstring) (k : CryptoKey) (iv : bytes) :
  aead_length wc -> length iv = 12%nat ->
  (length p < length (sealed (JString p) k iv))%nat.
Proof.
  intros Hl Hiv. unfold sealed.
  rewrite encode_length, length_app, Hl, Hiv.
  cbn [TextEncoder_encode ToString].
  pose proof (utf8_encode_length p).
  pose proof (Nat.div_mod_eq (12 + (length (UTF8.encode p) + 16) + 2) 3).
  pose proof (Nat.mod_upper_bound (12 + (length (UTF8.encode p) + 16) + 2) 3).
  lia.
Qed.



(** One account through a successful migration: what is stored for it
    afterwards is its [decryptedPassword] of step 3 sealed under the key
    derived from the new passphrase and the new salt. *)
Lemma migrated_item {wc : WebCrypto} (cu : bool) (w : World)
    (old new : jsstring) (i : nat) (a : Account) :
  aead_correct wc ->
  masterPassword (local w) = Some old -> truthy old = true ->
  fst (SecurityManager.validatePasswordStrength new) = true ->
  nth_error match accounts (local w) with Some l => l | None => [] end i
  = Some a ->
  forall salt,
  salt = random_bytes 16
           (log_all (legacy_warnings cu old
              match accounts (local w) with Some l => l | None => [] end) w) ->
  exists (iv : bytes),
    length iv = 12%nat /\
    option_map cfg_salt
      (securityConfig
         (local (snd (SecurityManager.migrateFromOldVersion cu old new w))))
    = Some (Base64.encode salt) /\
    accounts (local (snd (SecurityManager.migrateFromOldVersion cu old new w)))
    = Some (migrated_accounts cu old new w) /\
    nth_error (migrated_accounts cu old new w) i
    = Some (mkAccount (acc_id a) (acc_envId a) (acc_username a)
              (Some (sealed (legacy_plain cu old a)
                       (SecurityManager.deriveKey new salt) iv))) /\
    forall w',
      SecurityManager.decrypt
        (sealed (legacy_plain cu old a) (SecurityManager.deriveKey new salt) iv)
        (SecurityManager.deriveKey new salt) w'
      = (Ok (UTF8.decode (TextEncoder_encode (legacy_plain cu old a))), w').
Proof.
  intros Hc Hmp Hold Hnew Hnth salt ->.
  rewrite (migrateFromOldVersion_eval cu old new w) by assumption.
  cbn [snd]. rewrite migrated_world_local.
  cbn [securityConfig accounts]. rewrite initialized_local.
  cbn [securityConfig option_map cfg_salt].
  set (accs := match accounts (local w) with Some l => l | None => [] end) in *.
  set (w1 := log_all (legacy_warnings cu old accs) w).
  destruct (reencrypted_nth
              (SecurityManager.deriveKey new (random_bytes 16 w1))
              (map (fun a => (a, legacy_plain cu old a)) accs)
              (initialized new w1) i a (legacy_plain cu old a))
    as (iv & Hiv & Hnth').
  { rewrite nth_error_map, Hnth. reflexivity. }
  exists iv.
  split; [exact Hiv|]. split; [reflexivity|]. split; [reflexivity|].
  split; [exact Hnth'|].
  intros w'. now apply SM_decrypt_sealed.
Qed.


Lemma legacy_plain_without_cryptoUtils {wc : WebCrypto} (old : jsstring)
    (a : Account) :
  legacy_plain false old a = SecurityManager.jsval_of_password (acc_password a).
Proof. reflexivity. Qed.

Lemma legacy_plain_opened {wc : WebCrypto} (old c0 s : jsstring)
    (a : Account) (w : World) :
  acc_password a = Some c0 -> truthy c0 = true ->
  fst (CryptoUtils.decrypt (JString c0) (JString old) w) = Ok s ->
  legacy_plain true old a = JString s.
Proof.
  intros Hp Ht Hd. rewrite CU_decrypt_eval in Hd. cbn [fst] in Hd.
  unfold legacy_plain. rewrite Hp.
  cbn [SecurityManager.jsval_of_password is_truthy andb]. rewrite Ht.
  now rewrite Hd.
Qed.




Lemma legacy_failure_inv {wc : WebCrypto} (cu : bool) (old : jsstring)
    (a : Account) (e : exn) :
  legacy_failure cu old a = Some e ->
  exists p, acc_password a = Some p /\ legacy_plain cu old a = JString p.
Proof.
  unfold legacy_failure, legacy_plain. cbv zeta.
  destruct (acc_password a) as [p|]; cbn [SecurityManager.jsval_of_password].
  - intros H. exists p. split; [reflexivity|].
    destruct (cu && is_truthy (JString p)); [|reflexivity].
    destruct (legacy_open _ _); [discriminate H | reflexivity].
  - rewrite andb_false_r. discriminate.
Qed.

Lemma log_all_entropy (es : list log_entry) (w : World) (n : nat) :
  random_bytes n (log_all es w) = random_bytes n w.
Proof. reflexivity. Qed.

Lemma legacy_failure_of_decrypt {wc : WebCrypto} (old p : jsstring)
    (a : Account) (e : exn) (w : World) :
  acc_password a = Some p -> truthy p = true ->
  fst (CryptoUtils.decrypt (JString p) (JString old) w) = Throw e ->
  legacy_failure true old a = Some e.
Proof.
  intros Hp Ht Hd. rewrite CU_decrypt_eval in Hd. cbn [fst] in Hd.
  unfold legacy_failure. rewrite Hp.
  cbn [SecurityManager.jsval_of_password is_truthy andb]. rewrite Ht.
  now rewrite Hd.
Qed.

Lemma legacy_warnings_without_cryptoUtils {wc : WebCrypto} (old : jsstring)
    (accs : list Account) :
  legacy_warnings false old accs = [].
Proof. induction accs as [|a accs IH]; [reflexivity | exact IH]. Qed.

Lemma legacy_plain_failed {wc : WebCrypto} (cu : bool) (old p : jsstring)
    (a : Account) (e : exn) (w : World) :
  acc_password a = Some p -> truthy p = true ->
  fst (CryptoUtils.decrypt (JString p) (JString old) w) = Throw e ->
  legacy_plain cu old a = JString p.
Proof.
  intros Hp Ht Hd. destruct cu.
  - destruct (legacy_failure_inv true old a e
                (legacy_failure_of_decrypt old p a e w Hp Ht Hd))
      as (p' & Hp' & Hplain).
    rewrite Hp in Hp'. now injection Hp' as <-.
  - rewrite legacy_plain_without_cryptoUtils, Hp. reflexivity.
Qed.

(** C3 (as amended): a stored secret that the legacy [decrypt] does not
    open under the old passphrase is not carried through.  The migration
    takes the stored string itself as the plaintext and seals it under the
    new key like every other secret: the value stored afterwards is a new
    ciphertext, never the value stored before, and the new key opens it to
    the stored string as it comes back from UTF-8, which is the stored
    string itself when that is well-formed UTF-16 and does not begin with
    U+FEFF.  The failure is logged, as a warning naming the account and
    the error, when the page has [window.cryptoUtils]: only then is the
    legacy decryption attempted.  Without it nothing is logged. *)
Theorem migration_failed_item (wc : WebCrypto) (cu : bool) (w : World)
    (old new : jsstring) (i : nat) (a : Account) (p : jsstring) (e : exn) :
  aead_correct wc -> aead_length wc ->
  masterPassword (local w) = Some old -> truthy old = true ->
  fst (SecurityManager.validatePasswordStrength new) = true ->
  nth_error match accounts (local w) with Some l => l | None => [] end i
  = Some a ->
  acc_password a = Some p -> truthy p = true ->
  fst (CryptoUtils.decrypt (JString p) (JString old) w) = Throw e ->
  exists (c : jsstring) (salt : bytes) (accs' : list Account),
    (cu = true ->
     In (WarnDecryptFailed (acc_username a) e)
        (console (snd (SecurityManager.migrateFromOldVersion cu old new w)))) /\
    (cu = false ->
     console (snd (SecurityManager.migrateFromOldVersion cu old new w))
     = console w) /\
    option_map cfg_salt
      (securityConfig
         (local (snd (SecurityManager.migrateFromOldVersion cu old new w))))
    = Some (Base64.encode salt) /\
    accounts (local (snd (SecurityManager.migrateFromOldVersion cu old new w)))
    = Some accs' /\
    nth_error accs' i
    = Some (mkAccount (acc_id a) (acc_envId a) (acc_username a) (Some c)) /\
    c <> p /\
    (forall w',
        SecurityManager.decrypt c (SecurityManager.deriveKey new salt) w'
        = (Ok (UTF8.decode (UTF8.encode p)), w')) /\
    (UTF8.well_formed p = true -> UTF8.starts_with_bom p = false ->
     forall w',
       SecurityManager.decrypt c (SecurityManager.deriveKey new salt) w'
       = (Ok p, w')).
Proof.
  intros Hc Hl Hmp Hold Hnew Hnth Hp Htp Hdec.
  pose proof (legacy_plain_failed cu old p a e w Hp Htp Hdec) as Hplain.
  destruct (migrated_item cu w old new i a Hc Hmp Hold Hnew Hnth _ eq_refl)
    as (iv & Hiv & Hsalt & Haccs & Hnth' & Hopen).
  rewrite Hplain in Hnth', Hopen. cbn [TextEncoder_encode ToString] in Hopen.
  eexists _, _, _.
  split.
  { intros ->.
    rewrite (migrateFromOldVersion_eval true old new w) by assumption.
    cbn [snd]. rewrite migrated_world_console.
    apply in_or_app. right. unfold legacy_warnings. apply in_flat_map.
    exists a. split; [eapply nth_error_In; exact Hnth|].
    rewrite (legacy_failure_of_decrypt old p a e w Hp Htp Hdec). now left. }
  split.
  { intros ->.
    rewrite (migrateFromOldVersion_eval false old new w) by assumption.
    cbn [snd]. rewrite migrated_world_console.
    rewrite legacy_warnings_without_cryptoUtils. apply app_nil_r. }
  split; [exact Hsalt|]. split; [exact Haccs|]. split; [exact Hnth'|]. split.
  { intros E.
    match type of E with
    | sealed _ ?k _ = _ => pose proof (sealed_longer p k iv Hl Hiv) as Hlt
    end.
    rewrite E in Hlt. lia. }
  split; [exact Hopen|].
  intros Hwf Hbom w'. rewrite Hopen. now rewrite utf8_roundtrip.
Qed.

Lemma migration_failed_item_witness :
  exists (c : jsstring) (salt : bytes) (accs' : list Account),
    (true = true ->
     In (WarnDecryptFailed (acc_username Toy.bob) (Error ErrDecrypt))
        (console (snd (SecurityManager.migrateFromOldVersion (wc := Toy.toy)
                         true (js "OldPass1") (js "NewPass1")
                         Toy.legacy_world)))) /\
    (true = false ->
     console (snd (SecurityManager.migrateFromOldVersion (wc := Toy.toy)
                     true (js "OldPass1") (js "NewPass1") Toy.legacy_world))
     = console Toy.legacy_world) /\
    option_map cfg_salt
      (securityConfig
         (local (snd (SecurityManager.migrateFromOldVersion (wc := Toy.toy)
                        true (js "OldPass1") (js "NewPass1") Toy.legacy_world))))
    = Some (Base64.encode salt) /\
    accounts
      (local (snd (SecurityManager.migrateFromOldVersion (wc := Toy.toy)
                     true (js "OldPass1") (js "NewPass1") Toy.legacy_world)))
    = Some accs' /\
    nth_error accs' 1
    = Some (mkAccount (acc_id Toy.bob) (acc_envId Toy.bob)
                      (acc_username Toy.bob) (Some c)) /\
    c <> js "plain-old-password" /\
    (forall w',
        SecurityManager.decrypt (wc := Toy.toy) c
          (SecurityManager.deriveKey (wc := Toy.toy) (js "NewPass1") salt) w'
        = (Ok (UTF8.decode (UTF8.encode (js "plain-old-password"))), w')) /\
    (UTF8.well_formed (js "plain-old-password") = true ->
     UTF8.starts_with_bom (js "plain-old-password") = false ->
     forall w',
       SecurityManager.decrypt (wc := Toy.toy) c
         (SecurityManager.deriveKey (wc := Toy.toy) (js "NewPass1") salt) w'
       = (Ok (js "plain-old-password"), w')).
Proof.
  apply (migration_failed_item Toy.toy true Toy.legacy_world
           (js "OldPass1") (js "NewPass1") 1 Toy.bob
           (js "plain-old-password") (Error ErrDecrypt)).
  - exact toy_aead_correct.
  - exact toy_aead_length.
  - reflexivity.
  - reflexivity.
  - reflexivity.
  - reflexivity.
  - reflexivity.
  - reflexivity.
  - vm_compute. reflexivity.
Defined.

(** C3, counterexample: the second account holds a string the legacy
    scheme cannot open.  After migration its stored value is a new
    ciphertext, not the string stored before; the failure is in the
    console. *)
Lemma migration_rewrites_failed_item :
  acc_password Toy.bob = Some (js "plain-old-password") /\
  option_map (map acc_password)
    (accounts
       (local (snd (SecurityManager.migrateFromOldVersion (wc := Toy.toy) true
                      (js "OldPass1") (js "NewPass1") Toy.legacy_world))))
  = Some
      [Some (js "4fIDFCU2R1hpeoucw4OzwrXEREVGR0hJSktMTU5PUFFSUw==");
       Some (js "rb7P4PECEyQ1RldoUExBSU4NT0xEDVBBU1NXT1JEeHl6e3x9fn+AgYKDhIWGhw==")] /\
  str_eqb (js "rb7P4PECEyQ1RldoUExBSU4NT0xEDVBBU1NXT1JEeHl6e3x9fn+AgYKDhIWGhw==")
          (js "plain-old-password") = false /\
  console (snd (SecurityManager.migrateFromOldVersion (wc := Toy.toy) true
                  (js "OldPass1") (js "NewPass1") Toy.legacy_world))
  = [WarnDecryptFailed (js "bob") (Error ErrDecrypt)].
Proof. repeat split; vm_compute; reflexivity. Qed.

(** In the same run the first account, which the legacy scheme opens, is
    sealed anew from its plaintext. *)
Lemma migration_reseals_opened_item :
  legacy_plain (wc := Toy.toy) true (js "OldPass1") Toy.alice
  = JString (js "s3cret") /\
  fst (SecurityManager.decrypt (wc := Toy.toy)
         (js "4fIDFCU2R1hpeoucw4OzwrXEREVGR0hJSktMTU5PUFFSUw==")
         (SecurityManager.deriveKey (wc := Toy.toy) (js "NewPass1")
            (random_bytes 16 Toy.legacy_world))
         Toy.legacy_world)
  = Ok (js "s3cret").
Proof. split; vm_compute; reflexivity. Qed.

(** ** A key the primitive rejects *)

(** [SecurityManager.decrypt] adds nothing to the primitive's verdict:
    when AES-GCM rejects the ciphertext under the key given, the call
    throws and no plaintext is returned. *)
Lemma SM_decrypt_rejected {wc : WebCrypto} (plaintext : jsval)
    (k1 k2 : CryptoKey) (iv : bytes) (w : World) :
  length iv = 12%nat ->
  aes_gcm_decrypt k2 iv (aes_gcm_encrypt k1 iv (TextEncoder_encode plaintext))
  = None ->
  SecurityManager.decrypt (sealed plaintext k1 iv) k2 w
  = (Throw OperationError, w).
Proof.
  intros Hiv Hrej. unfold SecurityManager.decrypt, sealed, bind.
  rewrite SM_base64ToArrayBuffer_encode.
  rewrite firstn_prefix, skipn_prefix by assumption.
  now rewrite Hrej.
Qed.

Example SM_decrypt_other_key_example :
  fst ((c <- SecurityManager.encrypt (wc := Toy.toy)
               (JString (js "hunter2")) Toy.key0 ;;
        SecurityManager.decrypt (wc := Toy.toy) c Toy.key1) Toy.world0)
  = Throw OperationError.
Proof. vm_compute. reflexivity. Qed.

(** * Further properties of the code *)

(** ** The session authority, continued *)

(** [setSessionKey] supersedes the session before it: the world after two
    calls is the world after the second call alone. *)
Theorem setSessionKey_supersedes (w : World) (k1 m1 k2 m2 : jsstring) :
  snd (Background.setSessionKey k2 m2 (snd (Background.setSessionKey k1 m1 w)))
  = snd (Background.setSessionKey k2 m2 w).
Proof.
  unfold Background.setSessionKey, Background.alarms_clear,
    Background.alarms_create, bind, modify, Date_now, gets, ret.
  destruct (str_eqb (Background.or_default m1) (js "default"));
    [|destruct (str_eqb (Background.or_default m1) (js "today"))];
    (destruct (str_eqb (Background.or_default m2) (js "default"));
     [|destruct (str_eqb (Background.or_default m2) (js "today"))]);
    reflexivity.
Qed.

(** [clearSession] locks the vault whatever the state was: it answers
    success, no alarm is pending, and [getSessionKey] finds no key
    afterwards, at any later time, with or without a restart; the local
    store is not touched. *)
Theorem clearSession_locks (w : World) (dt : Z) :
  fst (Background.clearSession w) = Ok (Background.mkResponse true None) /\
  alarm (snd (Background.clearSession w)) = None /\
  sessionKey (snd (Background.clearSession w)) = None /\
  session (snd (Background.clearSession w)) = empty_session /\
  local (snd (Background.clearSession w)) = local w /\
  fst (Background.getSessionKey (Background.tick dt (snd (Background.clearSession w))))
  = Ok (Background.mkResponse false None) /\
  fst (Background.getSessionKey
         (Background.tick dt (Background.restart (snd (Background.clearSession w)))))
  = Ok (Background.mkResponse false None).
Proof. repeat split. Qed.

(** The alarm of a 'today' session.  It is set a whole number of minutes
    after creation and at least one minute ahead, and never before the
    instant [new Date(y, m, d, 23, 59, 59)] of the local date of creation:
    23:59:59 of that date, read by the offset that belongs to this local
    time, which on a day when the clocks change is not the offset in force
    at creation.  It is less than a minute after that instant, unless the
    instant is already past and the alarm is the minimum of one minute.
    When the two offsets are the same, it is less than 61 seconds after
    it. *)
Theorem today_alarm_window (w : World) (k : jsstring) :
  (0 <= now w + utc_offset (tz_offset w) (now w))%Z ->
  let endOfDay :=
    ((now w + utc_offset (tz_offset w) (now w)) / 86400000 * 86400000
     + 86399000)%Z in
  exists ta,
    alarm (snd (Background.setSessionKey k (js "today") w)) = Some ta /\
    (now w + 60000 <= ta)%Z /\
    ((ta - now w) mod 60000 = 0)%Z /\
    (endOfDay - local_offset (tz_offset w) endOfDay <= ta)%Z /\
    ((ta < endOfDay - local_offset (tz_offset w) endOfDay + 60000)%Z \/
     (ta = now w + 60000 /\
      endOfDay - local_offset (tz_offset w) endOfDay <= now w)%Z) /\
    (utc_offset (tz_offset w) (now w) = local_offset (tz_offset w) endOfDay ->
     (ta < endOfDay - local_offset (tz_offset w) endOfDay + 61000)%Z).
Proof.
  intros _ endOfDay.
  rewrite setSessionKey_alarm.
  change (Background.or_default (js "today")) with (js "today").
  rewrite (str_eqb_neq (js "today") (js "default")) by discriminate.
  rewrite str_eqb_refl.
  eexists. split; [reflexivity|].
  unfold Background.ceil_div, Background.end_of_day, Background.local_day.
  cbv zeta. fold endOfDay.
  set (e := (endOfDay - local_offset (tz_offset w) endOfDay)%Z).
  assert (Hday : (endOfDay - 86399000
                  <= now w + utc_offset (tz_offset w) (now w)
                  < endOfDay + 1000)%Z) by (unfold endOfDay; lia).
  assert (He : e = (endOfDay - local_offset (tz_offset w) endOfDay)%Z)
    by reflexivity.
  clearbody e endOfDay. set (t := now w) in *.
  split; [lia|]. split.
  { rewrite Z.add_simpl_l. apply Z.mod_mul. lia. }
  split; [lia|]. split; [lia|].
  intros Hsame. lia.
Qed.

Lemma today_alarm_window_witness :
  exists ta,
    alarm (snd (Background.setSessionKey (Base64.encode Toy.key0) (js "today")
                  Toy.world_new_york)) = Some ta /\
    (1699158600000 + 60000 <= ta)%Z /\
    ((ta - 1699158600000) mod 60000 = 0)%Z /\
    (1699246799000 <= ta)%Z /\
    ((ta < 1699246799000 + 60000)%Z \/
     (ta = 1699158600000 + 60000 /\ 1699246799000 <= 1699158600000)%Z) /\
    (utc_offset Toy.new_york 1699158600000
     = local_offset Toy.new_york 1699228799000 ->
     (ta < 1699246799000 + 61000)%Z).
Proof.
  apply (today_alarm_window Toy.world_new_york (Base64.encode Toy.key0)).
  vm_compute. discriminate.
Defined.

(** On Sunday 5 November 2023 at 00:30 in New York, the day the clocks go
    back, the alarm of a 'today' session is set 1470 minutes ahead. *)
Example today_alarm_new_york :
  alarm (snd (Background.setSessionKey (Base64.encode Toy.key0) (js "today")
                Toy.world_new_york))
  = Some (1699158600000 + 1470 * 60000)%Z.
Proof. vm_compute. reflexivity. Qed.

(** After a restart, once [getSessionKey] has answered with the key that
    it found in the mirror, the key is in memory again: from then on it is
    returned without any test of the time, however late, as long as no
    alarm is delivered, the session is not cleared and the service worker
    does not restart again. *)
Theorem restored_key_is_not_rechecked (w : World) (raw : bytes)
    (mode : jsstring) (dt1 dt2 : Z) :
  length raw = 32%nat ->
  fst (Background.getSessionKey
         (Background.tick dt1
            (Background.restart
               (snd (Background.setSessionKey (Base64.encode raw) mode w)))))
  = Ok (Background.mkResponse true (Some (Base64.encode raw))) ->
  fst (Background.getSessionKey
         (Background.tick dt2
            (snd (Background.getSessionKey
                    (Background.tick dt1
                       (Background.restart
                          (snd (Background.setSessionKey (Base64.encode raw)
                                  mode w))))))))
  = Ok (Background.mkResponse true (Some (Base64.encode raw))).
Proof.
  intros Hraw.
  pose proof (exported_key_truthy raw Hraw) as Hk.
  rewrite (getSessionKey_after_restart w (Base64.encode raw) mode dt1 Hk).
  cbv zeta.
  destruct (Background.expired _ _ _ _); cbn [fst snd]; [discriminate|].
  intros _. now rewrite (getSessionKey_memory (Base64.encode raw)).
Qed.

Lemma restored_key_is_not_rechecked_witness :
  fst (Background.getSessionKey
         (Background.tick (7 * 24 * 60 * 60 * 1000)
            (snd (Background.getSessionKey
                    (Background.tick 86400000
                       (Background.restart
                          (snd (Background.setSessionKey
                                  (Base64.encode Toy.key0)
                                  (js "today") Toy.world_new_york))))))))
  = Ok (Background.mkResponse true (Some (Base64.encode Toy.key0))).
Proof.
  apply (restored_key_is_not_rechecked Toy.world_new_york Toy.key0
           (js "today") 86400000 (7 * 24 * 60 * 60 * 1000)).
  - reflexivity.
  - vm_compute. reflexivity.
Defined.

(** ** Setting and verifying the passphrase *)

Lemma toy_pbkdf2_length : pbkdf2_length Toy.toy.
Proof. intros p s i. reflexivity. Qed.

Lemma toy_aead_min_length : aead_min_length Toy.toy.
Proof.
  intros k iv c H. cbn [aes_gcm_decrypt Toy.toy]. unfold Toy.toy_decrypt.
  destruct (Nat.ltb_spec (length c) 16); [reflexivity | lia].
Qed.

(** A run of [verifyMasterPassword]: the outcome, and the world, which
    changes only by the session of a successful verification. *)
Lemma verifyMasterPassword_run {wc : WebCrypto} (inputPassword mode : jsstring)
    (w : World) :
  SecurityManager.verifyMasterPassword inputPassword mode w
  = match securityConfig (local w) with
    | None =>
        (Ok (SecurityManager.mkOutcome false SecurityManager.MsgNoConfig None), w)
    | Some config =>
        (Ok (verification_outcome config inputPassword),
         match SecurityManager.key (verification_outcome config inputPassword) with
         | Some k => snd (Background.setSessionKey (Base64.encode k) mode w)
         | None => w
         end)
    end.
Proof.
  unfold SecurityManager.verifyMasterPassword, try_catch at 1, bind at 1, gets.
  destruct (securityConfig (local w)) as [config|]; [|reflexivity].
  unfold verification_outcome, bind at 1.
  rewrite SM_base64ToArrayBuffer_eval.
  destruct (Base64.atob (cfg_salt config)) as [salt|]; [|reflexivity].
  cbv zeta. unfold try_catch, bind at 1.
  rewrite SM_decrypt_eval.
  destruct (Base64.atob (cfg_verificationData config)) as [binary|];
    [|reflexivity].
  cbv zeta.
  destruct (aes_gcm_decrypt _ _ _) as [decrypted|]; [|reflexivity].
  destruct (str_eqb (UTF8.decode decrypted) SecurityManager.VERIFICATION_TEXT);
    [|reflexivity].
  unfold bind. rewrite SM_arrayBufferToBase64_eval.
  now rewrite setSessionKey_total.
Qed.

Lemma verification_outcome_key {wc : WebCrypto} (config : SecurityConfig)
    (p : jsstring) :
  (SecurityManager.success (verification_outcome config p) = true ->
   exists salt,
     Base64.atob (cfg_salt config) = Some salt /\
     verification_outcome config p
     = SecurityManager.mkOutcome true SecurityManager.MsgVerifyOk
         (Some (SecurityManager.deriveKey p (map byte_of_N salt)))) /\
  (SecurityManager.success (verification_outcome config p) = false ->
   SecurityManager.key (verification_outcome config p) = None).
Proof.
  unfold verification_outcome.
  destruct (Base64.atob (cfg_salt config)) as [salt|];
    [|split; [discriminate | reflexivity]].
  cbv zeta.
  destruct (Base64.atob (cfg_verificationData config)) as [binary|];
    [|split; [discriminate | reflexivity]].
  destruct (aes_gcm_decrypt _ _ _) as [decrypted|];
    [|split; [discriminate | reflexivity]].
  destruct (str_eqb (UTF8.decode decrypted) SecurityManager.VERIFICATION_TEXT);
    [|split; [discriminate | reflexivity]].
  split; [|discriminate]. intros _. now exists salt.
Qed.

(** A failed verification changes nothing: whatever the reason (no
    configuration, undecodable salt, wrong passphrase), the session in
    memory, the mirror, the alarm and the store are as before. *)
Theorem verify_failure_changes_nothing (wc : WebCrypto) (w : World)
    (inputPassword mode : jsstring) (o : SecurityManager.outcome) :
  fst (SecurityManager.verifyMasterPassword inputPassword mode w) = Ok o ->
  SecurityManager.success o = false ->
  snd (SecurityManager.verifyMasterPassword inputPassword mode w) = w.
Proof.
  rewrite verifyMasterPassword_run.
  destruct (securityConfig (local w)) as [config|]; [|reflexivity].
  cbn [fst snd]. intros [= <-] Hf.
  now rewrite (proj2 (verification_outcome_key config inputPassword) Hf).
Qed.

Lemma verify_failure_changes_nothing_witness :
  snd (SecurityManager.verifyMasterPassword (wc := Toy.toy)
         (js "abcd1234") (js "today")
         (store_config (Toy.config_with 120000 Toy.salt0 Toy.iv0) Toy.world0))
  = store_config (Toy.config_with 120000 Toy.salt0 Toy.iv0) Toy.world0.
Proof.
  apply (verify_failure_changes_nothing Toy.toy _ (js "abcd1234") (js "today")
           (SecurityManager.mkOutcome false SecurityManager.MsgWrongPassword None)).
  - vm_compute. reflexivity.
  - reflexivity.
Defined.

(** A successful verification returns the key derived from the passphrase
    and the stored salt, and installs exactly the session that
    [setSessionKey] makes of that key and the caller's mode: the key in
    memory and in the mirror, the mode (the empty mode being 'default'),
    the creation time.  The local store and the random source are not
    touched. *)
Theorem verify_success_installs_session (wc : WebCrypto) (w : World)
    (inputPassword mode : jsstring) (o : SecurityManager.outcome) :
  fst (SecurityManager.verifyMasterPassword inputPassword mode w) = Ok o ->
  SecurityManager.success o = true ->
  exists config salt k,
    securityConfig (local w) = Some config /\
    fst (SecurityManager.base64ToArrayBuffer (cfg_salt config) w) = Ok salt /\
    k = SecurityManager.deriveKey inputPassword salt /\
    o = SecurityManager.mkOutcome true SecurityManager.MsgVerifyOk (Some k) /\
    snd (SecurityManager.verifyMasterPassword inputPassword mode w)
    = snd (Background.setSessionKey (Base64.encode k) mode w) /\
    sessionKey (snd (SecurityManager.verifyMasterPassword inputPassword mode w))
    = Some (Base64.encode k) /\
    sessionMode (snd (SecurityManager.verifyMasterPassword inputPassword mode w))
    = Background.or_default mode /\
    session (snd (SecurityManager.verifyMasterPassword inputPassword mode w))
    = mkSession (Some (Base64.encode k)) (Some (Background.or_default mode))
                (Some (now w)) /\
    local (snd (SecurityManager.verifyMasterPassword inputPassword mode w))
    = local w /\
    consumed (snd (SecurityManager.verifyMasterPassword inputPassword mode w))
    = consumed w.
Proof.
  rewrite verifyMasterPassword_run.
  destruct (securityConfig (local w)) as [config|];
    [|cbn [fst]; intros [= <-]; discriminate].
  cbn [fst snd]. intros [= <-] Hs.
  destruct (proj1 (verification_outcome_key config inputPassword) Hs)
    as (salt & Hsalt & Ho).
  exists config, (map byte_of_N salt),
         (SecurityManager.deriveKey inputPassword (map byte_of_N salt)).
  rewrite Ho. cbn [SecurityManager.key].
  split; [reflexivity|].
  split; [now rewrite SM_base64ToArrayBuffer_eval, Hsalt|].
  split; [reflexivity|]. split; [reflexivity|]. split; [reflexivity|].
  split; [apply setSessionKey_memory|].
  split; [apply setSessionKey_memory|].
  split; [apply setSessionKey_mirror|].
  split; apply setSessionKey_frame.
Qed.

Lemma verify_success_installs_session_witness :
  exists config salt k,
    securityConfig
      (local (store_config (Toy.config_with 120000 Toy.salt0 Toy.iv0) Toy.world0))
    = Some config /\
    fst (SecurityManager.base64ToArrayBuffer (cfg_salt config)
           (store_config (Toy.config_with 120000 Toy.salt0 Toy.iv0) Toy.world0))
    = Ok salt /\
    k = SecurityManager.deriveKey (wc := Toy.toy) (js "Abcd1234") salt /\
    verification_outcome (wc := Toy.toy)
      (Toy.config_with 120000 Toy.salt0 Toy.iv0) (js "Abcd1234")
    = SecurityManager.mkOutcome true SecurityManager.MsgVerifyOk (Some k) /\
    snd (SecurityManager.verifyMasterPassword (wc := Toy.toy)
           (js "Abcd1234") (js "today")
           (store_config (Toy.config_with 120000 Toy.salt0 Toy.iv0) Toy.world0))
    = snd (Background.setSessionKey (Base64.encode k) (js "today")
             (store_config (Toy.config_with 120000 Toy.salt0 Toy.iv0) Toy.world0)) /\
    sessionKey
      (snd (SecurityManager.verifyMasterPassword (wc := Toy.toy)
              (js "Abcd1234") (js "today")
              (store_config (Toy.config_with 120000 Toy.salt0 Toy.iv0) Toy.world0)))
    = Some (Base64.encode k) /\
    sessionMode
      (snd (SecurityManager.verifyMasterPassword (wc := Toy.toy)
              (js "Abcd1234") (js "today")
              (store_config (Toy.config_with 120000 Toy.salt0 Toy.iv0) Toy.world0)))
    = Background.or_default (js "today") /\
    session
      (snd (SecurityManager.verifyMasterPassword (wc := Toy.toy)
              (js "Abcd1234") (js "today")
              (store_config (Toy.config_with 120000 Toy.salt0 Toy.iv0) Toy.world0)))
    = mkSession (Some (Base64.encode k))
                (Some (Background.or_default (js "today")))
                (Some (now (store_config (Toy.config_with 120000 Toy.salt0 Toy.iv0)
                              Toy.world0))) /\
    local
      (snd (SecurityManager.verifyMasterPassword (wc := Toy.toy)
              (js "Abcd1234") (js "today")
              (store_config (Toy.config_with 120000 Toy.salt0 Toy.iv0) Toy.world0)))
    = local (store_config (Toy.config_with 120000 Toy.salt0 Toy.iv0) Toy.world0) /\
    consumed
      (snd (SecurityManager.verifyMasterPassword (wc := Toy.toy)
              (js "Abcd1234") (js "today")
              (store_config (Toy.config_with 120000 Toy.salt0 Toy.iv0) Toy.world0)))
    = consumed (store_config (Toy.config_with 120000 Toy.salt0 Toy.iv0) Toy.world0).
Proof.
  apply (verify_success_installs_session Toy.toy
           (store_config (Toy.config_with 120000 Toy.salt0 Toy.iv0) Toy.world0)
           (js "Abcd1234") (js "today")
           (verification_outcome (wc := Toy.toy)
              (Toy.config_with 120000 Toy.salt0 Toy.iv0) (js "Abcd1234"))).
  - vm_compute. reflexivity.
  - vm_compute. reflexivity.
Defined.

(** A passphrase that fails the strength test is refused by
    [initializeMasterPassword] with the validator's own message and
    without any effect: nothing is stored, no random byte is drawn, the
    session is not touched. *)
Theorem initialize_weak_password_no_effect (wc : WebCrypto) (w : World)
    (p : jsstring) :
  fst (SecurityManager.validatePasswordStrength p) = false ->
  SecurityManager.initializeMasterPassword p w
  = (Ok (SecurityManager.mkOutcome false
           (snd (SecurityManager.validatePasswordStrength p)) None), w).
Proof.
  intros Hv. unfold SecurityManager.initializeMasterPassword, try_catch.
  now rewrite Hv.
Qed.

Lemma initialize_weak_password_no_effect_witness :
  SecurityManager.initializeMasterPassword (wc := Toy.toy) (js "abcd1234")
    Toy.world0
  = (Ok (SecurityManager.mkOutcome false SecurityManager.MsgNeedUpper None),
     Toy.world0).
Proof.
  apply (initialize_weak_password_no_effect Toy.toy Toy.world0 (js "abcd1234")).
  reflexivity.
Defined.

Lemma verification_text_roundtrip :
  UTF8.decode (UTF8.encode SecurityManager.VERIFICATION_TEXT)
  = SecurityManager.VERIFICATION_TEXT.
Proof. apply utf8_roundtrip; vm_compute; reflexivity. Qed.

(** The configuration [initializeMasterPassword] writes accepts the
    passphrase it was made for. *)
Lemma verification_outcome_initialized {wc : WebCrypto} (p : jsstring)
    (salt iv : bytes) (t : Z) :
  aead_correct wc -> length iv = 12%nat ->
  verification_outcome
    (mkConfig (js "2.0") (Base64.encode salt) SecurityManager.PBKDF2_ITERATIONS
       (sealed (JString SecurityManager.VERIFICATION_TEXT)
          (SecurityManager.deriveKey p salt) iv) t) p
  = SecurityManager.mkOutcome true SecurityManager.MsgVerifyOk
      (Some (SecurityManager.deriveKey p salt)).
Proof.
  intros Hc Hiv. unfold verification_outcome.
  cbn [cfg_salt cfg_verificationData].
  rewrite atob_encode, map_byte_of_N_to_N. cbv zeta.
  unfold sealed. rewrite atob_encode, map_byte_of_N_to_N.
  rewrite firstn_prefix, skipn_prefix by assumption.
  rewrite Hc by assumption.
  cbn [TextEncoder_encode ToString].
  now rewrite verification_text_roundtrip, str_eqb_refl.
Qed.




(** What a successful [initializeMasterPassword] establishes: a
    configuration of version 2.0 with a fresh 16-byte salt, the iteration
    count 120000, a marker [isBase64] accepts and the time of creation;
    and a 'default' session for the derived key, with its alarm 30 minutes
    ahead.  28 random bytes are drawn; the other records of the store are
    as before. *)
Theorem initialize_establishes (wc : WebCrypto) (w : World) (p : jsstring) :
  aead_length wc ->
  fst (SecurityManager.validatePasswordStrength p) = true ->
  exists salt verificationData,
    length salt = 16%nat /\
    fst (SecurityManager.initializeMasterPassword p w)
    = Ok (SecurityManager.mkOutcome true SecurityManager.MsgInitOk None) /\
    local (snd (SecurityManager.initializeMasterPassword p w))
    = mkLocal
        (Some (mkConfig (js "2.0") (Base64.encode salt) 120000
                 verificationData (now w)))
        (masterPassword (local w)) (accounts (local w))
        (environments (local w)) (backup_v1_2_0 (local w)) /\
    CryptoUtils.isBase64 (JString verificationData) = true /\
    sessionKey (snd (SecurityManager.initializeMasterPassword p w))
    = Some (Base64.encode (SecurityManager.deriveKey p salt)) /\
    sessionMode (snd (SecurityManager.initializeMasterPassword p w))
    = js "default" /\
    alarm (snd (SecurityManager.initializeMasterPassword p w))
    = Some (now w + 30 * 60 * 1000)%Z /\
    consumed (snd (SecurityManager.initializeMasterPassword p w))
    = (consumed w + 28)%nat.
Proof.
  intros Hl Hv. rewrite initializeMasterPassword_eval by assumption.
  cbn [fst snd].
  exists (random_bytes 16 w),
         (sealed (JString SecurityManager.VERIFICATION_TEXT)
            (SecurityManager.deriveKey p (random_bytes 16 w))
            (random_bytes 12 (consume 16 w))).
  split; [apply random_bytes_length|]. split; [reflexivity|].
  split; [apply initialized_local|].
  split; [apply sealed_isBase64; [assumption | apply random_bytes_length]|].
  unfold initialized. cbv zeta.
  split; [apply setSessionKey_memory|].
  split; [apply setSessionKey_memory|].
  split.
  - rewrite setSessionKey_alarm.
    change (Background.or_default (js "default")) with (js "default").
    rewrite str_eqb_refl. reflexivity.
  - rewrite (proj1 (proj2 (proj2 (setSessionKey_frame _ _ _)))).
    cbn [consumed store_config set_local consume]. lia.
Qed.

Lemma initialize_establishes_witness :
  exists salt verificationData,
    length salt = 16%nat /\
    fst (SecurityManager.initializeMasterPassword (wc := Toy.toy)
           (js "Abcd1234") Toy.world0)
    = Ok (SecurityManager.mkOutcome true SecurityManager.MsgInitOk None) /\
    local (snd (SecurityManager.initializeMasterPassword (wc := Toy.toy)
                  (js "Abcd1234") Toy.world0))
    = mkLocal
        (Some (mkConfig (js "2.0") (Base64.encode salt) 120000
                 verificationData (now Toy.world0)))
        (masterPassword (local Toy.world0)) (accounts (local Toy.world0))
        (environments (local Toy.world0)) (backup_v1_2_0 (local Toy.world0)) /\
    CryptoUtils.isBase64 (JString verificationData) = true /\
    sessionKey (snd (SecurityManager.initializeMasterPassword (wc := Toy.toy)
                       (js "Abcd1234") Toy.world0))
    = Some (Base64.encode
              (SecurityManager.deriveKey (wc := Toy.toy) (js "Abcd1234") salt)) /\
    sessionMode (snd (SecurityManager.initializeMasterPassword (wc := Toy.toy)
                        (js "Abcd1234") Toy.world0))
    = js "default" /\
    alarm (snd (SecurityManager.initializeMasterPassword (wc := Toy.toy)
                  (js "Abcd1234") Toy.world0))
    = Some (now Toy.world0 + 30 * 60 * 1000)%Z /\
    consumed (snd (SecurityManager.initializeMasterPassword (wc := Toy.toy)
                     (js "Abcd1234") Toy.world0))
    = (consumed Toy.world0 + 28)%nat.
Proof.
  apply (initialize_establishes Toy.toy Toy.world0 (js "Abcd1234")).
  - exact toy_aead_length.
  - reflexivity.
Defined.

(** Setting a passphrase and then verifying the same passphrase, under
    any session mode, succeeds: the key returned is the one derived at
    set-up, and the session is replaced by one of that key and the mode
    asked for. *)
Theorem initialize_then_verify (wc : WebCrypto) (w : World)
    (p mode : jsstring) :
  aead_correct wc ->
  fst (SecurityManager.validatePasswordStrength p) = true ->
  exists k,
    sessionKey (snd (SecurityManager.initializeMasterPassword p w))
    = Some (Base64.encode k) /\
    fst (SecurityManager.verifyMasterPassword p mode
           (snd (SecurityManager.initializeMasterPassword p w)))
    = Ok (SecurityManager.mkOutcome true SecurityManager.MsgVerifyOk (Some k)) /\
    sessionKey
      (snd (SecurityManager.verifyMasterPassword p mode
              (snd (SecurityManager.initializeMasterPassword p w))))
    = Some (Base64.encode k) /\
    sessionMode
      (snd (SecurityManager.verifyMasterPassword p mode
              (snd (SecurityManager.initializeMasterPassword p w))))
    = Background.or_default mode.
Proof.
  intros Hc Hv. rewrite initializeMasterPassword_eval by assumption.
  cbn [snd].
  exists (SecurityManager.deriveKey p (random_bytes 16 w)).
  rewrite verifyMasterPassword_run, initialized_local.
  cbn [securityConfig].
  change SecurityManager.PBKDF2_ITERATIONS with 120000.
  pose proof (verification_outcome_initialized p (random_bytes 16 w)
                (random_bytes 12 (consume 16 w)) (now w) Hc
                (random_bytes_length 12 _)) as E.
  change SecurityManager.PBKDF2_ITERATIONS with 120000 in E.
  rewrite E. cbn [fst snd SecurityManager.key].
  split; [unfold initialized; cbv zeta; apply setSessionKey_memory|].
  split; [reflexivity|].
  split; apply setSessionKey_memory.
Qed.

Lemma initialize_then_verify_witness :
  exists k,
    sessionKey (snd (SecurityManager.initializeMasterPassword (wc := Toy.toy)
                       (js "Abcd1234") Toy.world0))
    = Some (Base64.encode k) /\
    fst (SecurityManager.verifyMasterPassword (wc := Toy.toy)
           (js "Abcd1234") (js "today")
           (snd (SecurityManager.initializeMasterPassword (wc := Toy.toy)
                   (js "Abcd1234") Toy.world0)))
    = Ok (SecurityManager.mkOutcome true SecurityManager.MsgVerifyOk (Some k)) /\
    sessionKey
      (snd (SecurityManager.verifyMasterPassword (wc := Toy.toy)
              (js "Abcd1234") (js "today")
              (snd (SecurityManager.initializeMasterPassword (wc := Toy.toy)
                      (js "Abcd1234") Toy.world0))))
    = Some (Base64.encode k) /\
    sessionMode
      (snd (SecurityManager.verifyMasterPassword (wc := Toy.toy)
              (js "Abcd1234") (js "today")
              (snd (SecurityManager.initializeMasterPassword (wc := Toy.toy)
                      (js "Abcd1234") Toy.world0))))
    = Background.or_default (js "today").
Proof.
  apply (initialize_then_verify Toy.toy Toy.world0 (js "Abcd1234") (js "today")).
  - exact toy_aead_correct.
  - reflexivity.
Defined.

(** ** Migration, continued *)

(** Migration is refused without any effect when there is no legacy
    passphrase in the store (absent or empty) or when the passphrase given
    is not the stored one; the message tells the two apart. *)
Theorem migration_refused_no_effect (wc : WebCrypto) (cu : bool) (w : World)
    (old new : jsstring) :
  (forall stored, masterPassword (local w) = Some stored ->
                  truthy stored = true -> stored <> old) ->
  SecurityManager.migrateFromOldVersion cu old new w
  = (Ok (SecurityManager.mkOutcome false
           match masterPassword (local w) with
           | Some stored =>
               if truthy stored then SecurityManager.MsgOldPasswordWrong
               else SecurityManager.MsgNoOldData
           | None => SecurityManager.MsgNoOldData
           end None), w).
Proof.
  intros H.
  unfold SecurityManager.migrateFromOldVersion, try_catch, bind at 1, gets.
  destruct (masterPassword (local w)) as [stored|]; [|reflexivity].
  destruct (truthy stored) eqn:Ht; [|reflexivity].
  cbn [negb]. rewrite str_eqb_neq by (now apply H). reflexivity.
Qed.

Lemma migration_refused_no_effect_witness :
  SecurityManager.migrateFromOldVersion (wc := Toy.toy) true
    (js "oldpass1") (js "NewPass1") Toy.legacy_world
  = (Ok (SecurityManager.mkOutcome false SecurityManager.MsgOldPasswordWrong None),
     Toy.legacy_world).
Proof.
  apply (migration_refused_no_effect Toy.toy true Toy.legacy_world
           (js "oldpass1") (js "NewPass1")).
  intros stored [= <-] _. discriminate.
Defined.

(** With the right old passphrase but a new one that fails the strength
    test, migration stops after the legacy decryption pass with the
    validator's message: the store, the session and the random source are
    as before, and the legacy passphrase is still there. *)
Theorem migration_weak_new_password (wc : WebCrypto) (cu : bool) (w : World)
    (old new : jsstring) :
  masterPassword (local w) = Some old -> truthy old = true ->
  fst (SecurityManager.validatePasswordStrength new) = false ->
  fst (SecurityManager.migrateFromOldVersion cu old new w)
  = Ok (SecurityManager.mkOutcome false
          (snd (SecurityManager.validatePasswordStrength new)) None) /\
  local (snd (SecurityManager.migrateFromOldVersion cu old new w)) = local w /\
  session (snd (SecurityManager.migrateFromOldVersion cu old new w)) = session w /\
  sessionKey (snd (SecurityManager.migrateFromOldVersion cu old new w))
  = sessionKey w /\
  alarm (snd (SecurityManager.migrateFromOldVersion cu old new w)) = alarm w /\
  consumed (snd (SecurityManager.migrateFromOldVersion cu old new w))
  = consumed w.
Proof.
  intros Hmp Hold Hnew.
  assert (E : SecurityManager.migrateFromOldVersion cu old new w
              = (Ok (SecurityManager.mkOutcome false
                       (snd (SecurityManager.validatePasswordStrength new)) None),
                 log_all
                   (legacy_warnings cu old
                      match accounts (local w) with Some l => l | None => [] end)
                   w)).
  { unfold SecurityManager.migrateFromOldVersion, try_catch, bind at 1, gets.
    rewrite Hmp, Hold, str_eqb_refl. cbn [negb].
    unfold bind at 1. rewrite legacy_decrypt_all_eval.
    unfold bind at 1.
    unfold SecurityManager.initializeMasterPassword, try_catch.
    now rewrite Hnew. }
  rewrite E. repeat split.
Qed.

Lemma migration_weak_new_password_witness :
  local (snd (SecurityManager.migrateFromOldVersion (wc := Toy.toy) true
                (js "OldPass1") (js "short") Toy.legacy_world))
  = local Toy.legacy_world.
Proof.
  apply (migration_weak_new_password Toy.toy true Toy.legacy_world
           (js "OldPass1") (js "short")); reflexivity.
Defined.

(** Migration runs once: after a successful migration the store no longer
    needs one, holds a configuration, and any further call, whatever the
    passphrases, is refused as having no legacy data and changes nothing. *)
Theorem migration_runs_once (wc : WebCrypto) (cu cu' : bool) (w : World)
    (old new old' new' : jsstring) :
  masterPassword (local w) = Some old -> truthy old = true ->
  fst (SecurityManager.validatePasswordStrength new) = true ->
  SecurityManager.migrateFromOldVersion cu' old' new'
    (snd (SecurityManager.migrateFromOldVersion cu old new w))
  = (Ok (SecurityManager.mkOutcome false SecurityManager.MsgNoOldData None),
     snd (SecurityManager.migrateFromOldVersion cu old new w)) /\
  fst (SecurityManager.needsMigration
         (snd (SecurityManager.migrateFromOldVersion cu old new w)))
  = Ok false /\
  fst (SecurityManager.hasSecurityConfig
         (snd (SecurityManager.migrateFromOldVersion cu old new w)))
  = Ok true.
Proof.
  intros Hmp Hold Hnew.
  rewrite (migrateFromOldVersion_eval cu old new w) by assumption.
  cbn [snd].
  assert (Hm : masterPassword (local (migrated_world cu old new w)) = None)
    by now rewrite migrated_world_local.
  split; [|split].
  - unfold SecurityManager.migrateFromOldVersion, try_catch, bind at 1, gets.
    now rewrite Hm.
  - unfold SecurityManager.needsMigration, bind, gets, ret. now rewrite Hm.
  - unfold SecurityManager.hasSecurityConfig, bind, gets, ret.
    rewrite migrated_world_local, initialized_local. reflexivity.
Qed.

Lemma migration_runs_once_witness :
  fst (SecurityManager.needsMigration
         (snd (SecurityManager.migrateFromOldVersion (wc := Toy.toy) true
                 (js "OldPass1") (js "NewPass1") Toy.legacy_world)))
  = Ok false.
Proof.
  apply (migration_runs_once Toy.toy true true Toy.legacy_world
           (js "OldPass1") (js "NewPass1") (js "OldPass1") (js "NewPass1"));
    reflexivity.
Defined.

Lemma after_reencrypt_memory {A} (l : list A) (w : World) :
  sessionKey (after_reencrypt l w) = sessionKey w /\
  sessionMode (after_reencrypt l w) = sessionMode w.
Proof.
  revert w. induction l as [|x l IH]; intros w; [split; reflexivity|].
  cbn [after_reencrypt]. destruct (IH (consume 12 w)) as [H1 H2].
  now rewrite H1, H2.
Qed.

(** After a successful migration the new passphrase verifies, and the key
    that verification returns is the key of the session the migration
    left. *)
Theorem migration_then_verify (wc : WebCrypto) (cu : bool) (w : World)
    (old new mode : jsstring) :
  aead_correct wc ->
  masterPassword (local w) = Some old -> truthy old = true ->
  fst (SecurityManager.validatePasswordStrength new) = true ->
  exists k,
    sessionKey (snd (SecurityManager.migrateFromOldVersion cu old new w))
    = Some (Base64.encode k) /\
    sessionMode (snd (SecurityManager.migrateFromOldVersion cu old new w))
    = js "default" /\
    fst (SecurityManager.verifyMasterPassword new mode
           (snd (SecurityManager.migrateFromOldVersion cu old new w)))
    = Ok (SecurityManager.mkOutcome true SecurityManager.MsgVerifyOk (Some k)).
Proof.
  intros Hc Hmp Hold Hnew.
  rewrite (migrateFromOldVersion_eval cu old new w) by assumption.
  cbn [snd].
  set (accs := match accounts (local w) with Some l => l | None => [] end).
  set (w1 := log_all (legacy_warnings cu old accs) w).
  exists (SecurityManager.deriveKey new (random_bytes 16 w1)).
  rewrite verifyMasterPassword_run, migrated_world_local.
  cbn [securityConfig]. fold accs. fold w1. rewrite initialized_local.
  cbn [securityConfig].
  rewrite (verification_outcome_initialized new (random_bytes 16 w1)
             (random_bytes 12 (consume 16 w1)) (now w1) Hc
             (random_bytes_length 12 _)).
  cbn [fst].
  unfold migrated_world. cbv zeta. fold accs. fold w1.
  cbn [sessionKey sessionMode set_local].
  rewrite !(proj1 (after_reencrypt_memory _ _)),
          !(proj2 (after_reencrypt_memory _ _)).
  unfold initialized. cbv zeta.
  split; [apply setSessionKey_memory|].
  split; [apply setSessionKey_memory | reflexivity].
Qed.

Lemma migration_then_verify_witness :
  exists k,
    sessionKey (snd (SecurityManager.migrateFromOldVersion (wc := Toy.toy) true
                       (js "OldPass1") (js "NewPass1") Toy.legacy_world))
    = Some (Base64.encode k) /\
    sessionMode (snd (SecurityManager.migrateFromOldVersion (wc := Toy.toy) true
                        (js "OldPass1") (js "NewPass1") Toy.legacy_world))
    = js "default" /\
    fst (SecurityManager.verifyMasterPassword (wc := Toy.toy)
           (js "NewPass1") (js "today")
           (snd (SecurityManager.migrateFromOldVersion (wc := Toy.toy) true
                   (js "OldPass1") (js "NewPass1") Toy.legacy_world)))
    = Ok (SecurityManager.mkOutcome true SecurityManager.MsgVerifyOk (Some k)).
Proof.
  apply (migration_then_verify Toy.toy true Toy.legacy_world
           (js "OldPass1") (js "NewPass1") (js "today")).
  - exact toy_aead_correct.
  - reflexivity.
  - reflexivity.
  - reflexivity.
Defined.

(** A secret that the legacy [decrypt] opens under the old passphrase,
    through the migration.  When the page has [window.cryptoUtils], the
    plaintext is kept: the value stored afterwards opens, under the key
    derived from the new passphrase and the new salt, to the same string
    (taken well-formed and without a leading U+FEFF).  When the page has
    not, no legacy decryption takes place and the legacy ciphertext is
    sealed as it stands: the value stored afterwards opens to the string
    that was stored before, not to the plaintext. *)
Theorem migration_preserves_opened_secret (wc : WebCrypto) (cu : bool)
    (w : World) (old new : jsstring) (i : nat) (a : Account)
    (c0 s : jsstring) :
  aead_correct wc ->
  masterPassword (local w) = Some old -> truthy old = true ->
  fst (SecurityManager.validatePasswordStrength new) = true ->
  nth_error match accounts (local w) with Some l => l | None => [] end i
  = Some a ->
  acc_password a = Some c0 -> truthy c0 = true ->
  fst (CryptoUtils.decrypt (JString c0) (JString old) w) = Ok s ->
  exists (c : jsstring) (salt : bytes) (accs' : list Account),
    option_map cfg_salt
      (securityConfig
         (local (snd (SecurityManager.migrateFromOldVersion cu old new w))))
    = Some (Base64.encode salt) /\
    accounts (local (snd (SecurityManager.migrateFromOldVersion cu old new w)))
    = Some accs' /\
    nth_error accs' i
    = Some (mkAccount (acc_id a) (acc_envId a) (acc_username a) (Some c)) /\
    (cu = true ->
     UTF8.well_formed s = true -> UTF8.starts_with_bom s = false ->
     forall w',
       SecurityManager.decrypt c (SecurityManager.deriveKey new salt) w'
       = (Ok s, w')) /\
    (cu = false ->
     UTF8.well_formed c0 = true -> UTF8.starts_with_bom c0 = false ->
     forall w',
       SecurityManager.decrypt c (SecurityManager.deriveKey new salt) w'
       = (Ok c0, w')).
Proof.
  intros Hc Hmp Hold Hnew Hnth Hp Htp Hdec.
  destruct (migrated_item cu w old new i a Hc Hmp Hold Hnew Hnth _ eq_refl)
    as (iv & Hiv & Hsalt & Haccs & Hnth' & Hopen).
  eexists _, _, _.
  split; [exact Hsalt|]. split; [exact Haccs|]. split; [exact Hnth'|].
  split.
  - intros -> Hwf Hbom w'. rewrite Hopen.
    rewrite (legacy_plain_opened old c0 s a w Hp Htp Hdec).
    cbn [TextEncoder_encode ToString]. now rewrite utf8_roundtrip.
  - intros -> Hwf Hbom w'. rewrite Hopen.
    rewrite legacy_plain_without_cryptoUtils, Hp.
    cbn [SecurityManager.jsval_of_password TextEncoder_encode ToString].
    now rewrite utf8_roundtrip.
Qed.

Lemma migration_preserves_opened_secret_witness :
  exists (c : jsstring) (salt : bytes) (accs' : list Account),
    option_map cfg_salt
      (securityConfig
         (local (snd (SecurityManager.migrateFromOldVersion (wc := Toy.toy)
                        false (js "OldPass1") (js "NewPass1")
                        Toy.legacy_world))))
    = Some (Base64.encode salt) /\
    accounts
      (local (snd (SecurityManager.migrateFromOldVersion (wc := Toy.toy) false
                     (js "OldPass1") (js "NewPass1") Toy.legacy_world)))
    = Some accs' /\
    nth_error accs' 0
    = Some (mkAccount (acc_id Toy.alice) (acc_envId Toy.alice)
                      (acc_username Toy.alice) (Some c)) /\
    (false = true ->
     UTF8.well_formed (js "s3cret") = true ->
     UTF8.starts_with_bom (js "s3cret") = false ->
     forall w',
       SecurityManager.decrypt (wc := Toy.toy) c
         (SecurityManager.deriveKey (wc := Toy.toy) (js "NewPass1") salt) w'
       = (Ok (js "s3cret"), w')) /\
    (false = false ->
     UTF8.well_formed Toy.legacy_blob = true ->
     UTF8.starts_with_bom Toy.legacy_blob = false ->
     forall w',
       SecurityManager.decrypt (wc := Toy.toy) c
         (SecurityManager.deriveKey (wc := Toy.toy) (js "NewPass1") salt) w'
       = (Ok Toy.legacy_blob, w')).
Proof.
  apply (migration_preserves_opened_secret Toy.toy false Toy.legacy_world
           (js "OldPass1") (js "NewPass1") 0 Toy.alice Toy.legacy_blob
           (js "s3cret")).
  - exact toy_aead_correct.
  - reflexivity.
  - reflexivity.
  - reflexivity.
  - reflexivity.
  - reflexivity.
  - vm_compute. reflexivity.
  - vm_compute. reflexivity.
Defined.

(** The run of the migration on the legacy store of the examples, on a
    page without [window.cryptoUtils]: the first account, whose secret
    's3cret' the legacy scheme would open, is stored with a value that the
    new key opens to the legacy ciphertext; nothing is logged. *)
Example migration_without_cryptoUtils_example :
  fst (CryptoUtils.decrypt (wc := Toy.toy) (JString Toy.legacy_blob)
         (JString (js "OldPass1")) Toy.legacy_world)
  = Ok (js "s3cret") /\
  option_map
    (fun accs =>
       map (fun a =>
              match acc_password a with
              | Some c =>
                  fst (SecurityManager.decrypt (wc := Toy.toy) c
                         (SecurityManager.deriveKey (wc := Toy.toy)
                            (js "NewPass1")
                            (random_bytes 16 Toy.legacy_world))
                         Toy.legacy_world)
              | None => Throw TypeError
              end)
           accs)
    (accounts
       (local (snd (SecurityManager.migrateFromOldVersion (wc := Toy.toy)
                      false (js "OldPass1") (js "NewPass1")
                      Toy.legacy_world))))
  = Some [Ok Toy.legacy_blob; Ok (js "plain-old-password")] /\
  console (snd (SecurityManager.migrateFromOldVersion (wc := Toy.toy) false
                  (js "OldPass1") (js "NewPass1") Toy.legacy_world))
  = [].
Proof. repeat split; vm_compute; reflexivity. Qed.

Lemma reencrypted_identity {wc : WebCrypto} (k : CryptoKey)
    (ds : list (Account * jsval)) (w : World) :
  map acc_id (reencrypted k ds w) = map (fun d => acc_id (fst d)) ds /\
  map acc_envId (reencrypted k ds w) = map (fun d => acc_envId (fst d)) ds /\
  map acc_username (reencrypted k ds w) = map (fun d => acc_username (fst d)) ds.
Proof.
  revert w. induction ds as [|[a dp] ds IH]; intros w; [repeat split|].
  cbn [reencrypted map fst acc_id acc_envId acc_username].
  destruct (IH (consume 12 w)) as (H1 & H2 & H3).
  now rewrite H1, H2, H3.
Qed.

Lemma exportData_refused_none (accs : list Account) :
  Forall (fun a => exists c, acc_password a = Some c /\
                             CryptoUtils.isBase64 (JString c) = true) accs ->
  Popup.exportData_refused accs = None.
Proof.
  induction 1 as [|a accs (c & Hc & Hb) _ IH]; [reflexivity|].
  cbn [Popup.exportData_refused]. rewrite Hc.
  cbn [SecurityManager.jsval_of_password]. now rewrite Hb.
Qed.

(** Migration keeps the accounts as they are but for the password: the
    same identifiers, sites and user names in the same order; the list of
    sites is not touched.  What it writes passes the check that guards an
    export: no account is refused. *)
Theorem migration_keeps_accounts (wc : WebCrypto) (cu : bool) (w : World)
    (old new : jsstring) :
  aead_length wc ->
  masterPassword (local w) = Some old -> truthy old = true ->
  fst (SecurityManager.validatePasswordStrength new) = true ->
  exists accs',
    accounts (local (snd (SecurityManager.migrateFromOldVersion cu old new w)))
    = Some accs' /\
    map acc_id accs'
    = map acc_id match accounts (local w) with Some l => l | None => [] end /\
    map acc_envId accs'
    = map acc_envId match accounts (local w) with Some l => l | None => [] end /\
    map acc_username accs'
    = map acc_username match accounts (local w) with Some l => l | None => [] end /\
    environments (local (snd (SecurityManager.migrateFromOldVersion cu old new w)))
    = environments (local w) /\
    Popup.exportData_refused accs' = None.
Proof.
  intros Hl Hmp Hold Hnew.
  rewrite (migrateFromOldVersion_eval cu old new w) by assumption.
  cbn [snd]. rewrite migrated_world_local. cbn [accounts environments].
  exists (migrated_accounts cu old new w).
  split; [reflexivity|].
  unfold migrated_accounts. cbv zeta.
  set (accs := match accounts (local w) with Some l => l | None => [] end).
  destruct (reencrypted_identity
              (SecurityManager.deriveKey new
                 (random_bytes 16 (log_all (legacy_warnings cu old accs) w)))
              (map (fun a => (a, legacy_plain cu old a)) accs)
              (initialized new (log_all (legacy_warnings cu old accs) w)))
    as (H1 & H2 & H3).
  rewrite H1, H2, H3, !map_map. cbn [fst].
  repeat split.
  apply exportData_refused_none. now apply reencrypted_isBase64.
Qed.

Lemma migration_keeps_accounts_witness :
  exists accs',
    accounts
      (local (snd (SecurityManager.migrateFromOldVersion (wc := Toy.toy) true
                     (js "OldPass1") (js "NewPass1") Toy.legacy_world)))
    = Some accs' /\
    map acc_id accs'
    = map acc_id match accounts (local Toy.legacy_world) with
                 | Some l => l | None => [] end /\
    map acc_envId accs'
    = map acc_envId match accounts (local Toy.legacy_world) with
                    | Some l => l | None => [] end /\
    map acc_username accs'
    = map acc_username match accounts (local Toy.legacy_world) with
                       | Some l => l | None => [] end /\
    environments
      (local (snd (SecurityManager.migrateFromOldVersion (wc := Toy.toy) true
                     (js "OldPass1") (js "NewPass1") Toy.legacy_world)))
    = environments (local Toy.legacy_world) /\
    Popup.exportData_refused accs' = None.
Proof.
  apply (migration_keeps_accounts Toy.toy true Toy.legacy_world
           (js "OldPass1") (js "NewPass1")).
  - exact toy_aead_length.
  - reflexivity.
  - reflexivity.
  - reflexivity.
Defined.

(** ** The legacy codec and the guards of CryptoUtils *)

(** The legacy pair: [decrypt] under the passphrase that [encrypt] was
    given returns the plaintext (a well-formed string without a leading
    U+FEFF); 28 random bytes are drawn. *)
Theorem CU_decrypt_encrypt (wc : WebCrypto) (w : World) (s pw : jsstring) :
  aead_correct wc ->
  UTF8.well_formed s = true -> UTF8.starts_with_bom s = false ->
  (c <- CryptoUtils.encrypt (JString s) (JString pw) ;;
   CryptoUtils.decrypt (JString c) (JString pw)) w
  = (Ok s, consume 12 (consume 16 w)).
Proof.
  intros Hc Hwf Hbom. unfold bind. rewrite CU_encrypt_eval.
  rewrite (CU_decrypt_sealed _ (JString pw) (JString pw))
    by (try assumption; try apply random_bytes_length; reflexivity).
  cbn [TextEncoder_encode ToString]. now rewrite utf8_roundtrip.
Qed.

Lemma CU_decrypt_encrypt_witness :
  (c <- CryptoUtils.encrypt (wc := Toy.toy) (JString (js "s3cret"))
          (JString (js "OldPass1")) ;;
   CryptoUtils.decrypt (wc := Toy.toy) (JString c) (JString (js "OldPass1")))
    Toy.world0
  = (Ok (js "s3cret"), consume 12 (consume 16 Toy.world0)).
Proof.
  apply (CU_decrypt_encrypt Toy.toy Toy.world0 (js "s3cret") (js "OldPass1")).
  - exact toy_aead_correct.
  - reflexivity.
  - reflexivity.
Defined.

(** The guards of [encryptPassword] and [decryptPassword].  Without a key
    (null, undefined or the empty string) [encryptPassword] throws before
    any random byte is drawn.  [decryptPassword] tests the format first
    and the key second; it never changes the world, and whatever goes
    wrong inside the decryption surfaces as the one decryption error. *)
Theorem password_guards (wc : WebCrypto) (w : World) (v key : jsval) :
  (is_truthy key = false ->
   CryptoUtils.encryptPassword v key w = (Throw (Error ErrNoEncryptKey), w)) /\
  (CryptoUtils.isBase64 v = false ->
   CryptoUtils.decryptPassword v key w = (Throw (Error ErrNotEncrypted), w)) /\
  (CryptoUtils.isBase64 v = true -> is_truthy key = false ->
   CryptoUtils.decryptPassword v key w = (Throw (Error ErrNoDecryptKey), w)) /\
  snd (CryptoUtils.decryptPassword v key w) = w /\
  (forall e, fst (CryptoUtils.decryptPassword v key w) = Throw e ->
             e = Error ErrNotEncrypted \/ e = Error ErrNoDecryptKey \/
             e = Error ErrDecrypt).
Proof.
  unfold CryptoUtils.encryptPassword, CryptoUtils.decryptPassword.
  split; [intros ->; reflexivity|].
  split; [intros ->; reflexivity|].
  split; [intros -> ->; reflexivity|].
  destruct (CryptoUtils.isBase64 v); cbn [negb].
  - destruct (is_truthy key); cbn [negb].
    + rewrite CU_decrypt_eval. split; [reflexivity|].
      cbn [fst]. unfold legacy_open.
      destruct (Base64.atob (ToString v)); [|intros e [= <-]; auto].
      cbv zeta. destruct (aes_gcm_decrypt _ _ _); intros e [= <-]; auto.
    + split; [reflexivity|]. intros e [= <-]. auto.
  - split; [reflexivity|]. intros e [= <-]. auto.
Qed.

Lemma password_guards_witness :
  CryptoUtils.encryptPassword (wc := Toy.toy) (JString (js "hunter2")) JNull
    Toy.world0
  = (Throw (Error ErrNoEncryptKey), Toy.world0).
Proof.
  apply (password_guards Toy.toy Toy.world0 (JString (js "hunter2")) JNull).
  reflexivity.
Defined.

(** A string sealed by [SecurityManager.encrypt] is laid out as
    [iv ‖ ciphertext], while [CryptoUtils.decrypt] reads
    [salt ‖ iv ‖ ciphertext].  When the plaintext has fewer than 16 bytes
    in UTF-8, what is left after the first 28 bytes cannot hold a tag:
    [decryptPassword] fails on such a string whatever key it is given. *)
Theorem decryptPassword_rejects_sealed (wc : WebCrypto) (w : World)
    (plaintext key : jsval) (k : CryptoKey) :
  aead_length wc -> aead_min_length wc ->
  (length (TextEncoder_encode plaintext) < 16)%nat ->
  is_truthy key = true ->
  (c <- SecurityManager.encrypt plaintext k ;;
   CryptoUtils.decryptPassword (JString c) key) w
  = (Throw (Error ErrDecrypt), consume 12 w).
Proof.
  intros Hl Hmin Hshort Hkey. unfold bind. rewrite SM_encrypt_eval.
  unfold CryptoUtils.decryptPassword.
  rewrite sealed_isBase64 by (try assumption; apply random_bytes_length).
  rewrite Hkey. cbn [negb].
  rewrite CU_decrypt_eval. unfold legacy_open, sealed. cbn [ToString].
  rewrite atob_encode, map_byte_of_N_to_N. cbv zeta.
  rewrite Hmin; [reflexivity|].
  rewrite length_skipn, length_app, Hl, random_bytes_length. lia.
Qed.

Lemma decryptPassword_rejects_sealed_witness :
  (c <- SecurityManager.encrypt (wc := Toy.toy) (JString (js "hunter2"))
          Toy.key0 ;;
   CryptoUtils.decryptPassword (wc := Toy.toy) (JString c)
     (JCryptoKey Toy.key0)) Toy.world0
  = (Throw (Error ErrDecrypt), consume 12 Toy.world0).
Proof.
  apply (decryptPassword_rejects_sealed Toy.toy Toy.world0
           (JString (js "hunter2")) (JCryptoKey Toy.key0) Toy.key0).
  - exact toy_aead_length.
  - exact toy_aead_min_length.
  - vm_compute. lia.
  - reflexivity.
Defined.

(** [arrayBufferToBase64] never throws, and [base64ToArrayBuffer] inverts
    it, in both classes; the string has four characters for every three
    bytes, rounded up. *)
Theorem buffer_base64_roundtrip (buffer : bytes) (w : World) :
  (b <- SecurityManager.arrayBufferToBase64 buffer ;;
   SecurityManager.base64ToArrayBuffer b) w = (Ok buffer, w) /\
  (b <- CryptoUtils.arrayBufferToBase64 buffer ;;
   CryptoUtils.base64ToArrayBuffer (JString b)) w = (Ok buffer, w) /\
  (exists b, SecurityManager.arrayBufferToBase64 buffer w = (Ok b, w) /\
             CryptoUtils.arrayBufferToBase64 buffer w = (Ok b, w) /\
             length b = (4 * ((length buffer + 2) / 3))%nat).
Proof.
  unfold bind.
  rewrite (SM_arrayBufferToBase64_eval (wc := Toy.toy)),
          CU_arrayBufferToBase64_eval.
  rewrite SM_base64ToArrayBuffer_encode, CU_base64ToArrayBuffer_encode.
  repeat split. eexists. repeat split. apply encode_length.
Qed.

(** ** The classifier is a test of form *)

Lemma list_ind4 {A} (P : list A -> Prop) :
  P [] -> (forall a, P [a]) -> (forall a b, P [a; b]) ->
  (forall a b c, P [a; b; c]) ->
  (forall a b c d t, P t -> P (a :: b :: c :: d :: t)) ->
  forall l, P l.
Proof.
  intros H0 H1 H2 H3 H4.
  fix IH 1.
  intros [|a [|b [|c [|d t]]]];
    [exact H0 | apply H1 | apply H2 | apply H3 | apply H4, IH].
Qed.

Lemma decode_sextets_length (l : list N) :
  (4 * length (Base64.decode_sextets l) <= 3 * length l)%nat /\
  (forall n, length l = (4 * n)%nat ->
             length (Base64.decode_sextets l) = (3 * n)%nat).
Proof.
  induction l as [|a|a b|a b c|a b c d t [IH1 IH2]] using list_ind4;
    cbn [Base64.decode_sextets length]; try (split; [lia | intros n Hn; lia]).
  split; [lia|]. intros n Hn.
  destruct n as [|n]; [lia|].
  rewrite (IH2 n) by lia. lia.
Qed.

Lemma sextets_length (data : jsstring) (l : list N) :
  Base64.sextets data = Some l -> length l = length data.
Proof.
  revert l. induction data as [|c t IH]; cbn [Base64.sextets]; intros l H.
  - now injection H as <-.
  - destruct (Base64.sextet_of_char c); [|discriminate].
    destruct (Base64.sextets t) as [l'|]; [|discriminate].
    injection H as <-. cbn [length]. now rewrite (IH l' eq_refl).
Qed.

Lemma sextets_alphabet (data : jsstring) :
  Forall (fun c => Base64.is_alphabet c = true) data ->
  exists l, Base64.sextets data = Some l.
Proof.
  induction 1 as [|c t Hc _ [l IH]]; cbn [Base64.sextets]; [now eexists|].
  unfold Base64.is_alphabet in Hc.
  destruct (Base64.sextet_of_char c); [|discriminate].
  rewrite IH. now eexists.
Qed.

Lemma strip_padding_length (data : jsstring) :
  (length (Base64.strip_padding data) <= length data)%nat.
Proof.
  unfold Base64.strip_padding.
  destruct (N.of_nat (length data) mod 4 =? 0); [|lia].
  pose proof (length_rev data) as Hr.
  destruct (rev data) as [|c1 t]; [lia|].
  destruct (c1 =? Base64.pad); [|lia].
  destruct t as [|c2 t']; [cbn; lia|].
  cbn [length] in Hr.
  destruct (c2 =? Base64.pad); rewrite length_rev; cbn [length]; lia.
Qed.

Lemma atob_length (str : jsstring) (decoded : jsstring) :
  Base64.atob str = Some decoded ->
  (4 * length decoded <= 3 * length str)%nat.
Proof.
  unfold Base64.atob, Base64.decode.
  set (f := filter (fun c => negb (Base64.is_ascii_whitespace c)) str).
  destruct (N.of_nat (length (Base64.strip_padding f)) mod 4 =? 1);
    [discriminate|].
  destruct (Base64.sextets (Base64.strip_padding f)) as [l|] eqn:E;
    [|discriminate].
  cbn [option_map]. intros [= <-]. rewrite length_map.
  pose proof (proj1 (decode_sextets_length l)).
  pose proof (sextets_length _ _ E).
  pose proof (strip_padding_length f).
  pose proof (filter_length_le (fun c => negb (Base64.is_ascii_whitespace c)) str).
  fold f in H2. lia.
Qed.

Lemma strip_padding_alphabet (data : jsstring) :
  Forall (fun c => Base64.is_alphabet c = true) data ->
  Base64.strip_padding data = data.
Proof.
  intros Hal. unfold Base64.strip_padding.
  destruct (N.of_nat (length data) mod 4 =? 0); [|reflexivity].
  apply Forall_rev in Hal.
  destruct (rev data) as [|c1 t]; [reflexivity|].
  inversion Hal as [|? ? Hc _]; subst.
  apply alphabet_not_pad in Hc. apply N.eqb_neq in Hc.
  unfold Base64.pad. now rewrite Hc.
Qed.

(** [isBase64] judges by form alone.  It rejects every string of fewer
    than 40 characters; and it accepts every string of 40 or more
    characters of the alphabet [A-Za-z0-9+/] whose length is a multiple
    of four, whether or not it was ever produced by an encryption. *)
Theorem isBase64_by_form (str : jsstring) :
  ((length str < 40)%nat -> CryptoUtils.isBase64 (JString str) = false) /\
  (Forall (fun c => Base64.is_alphabet c = true) str ->
   (40 <= length str)%nat -> (length str mod 4 = 0)%nat ->
   CryptoUtils.isBase64 (JString str) = true).
Proof.
  split.
  - intros Hlen.
    destruct (CryptoUtils.isBase64 (JString str)) eqn:E; [|reflexivity].
    apply isBase64_true_inv in E as (Hm & _ & d & Hd & Hd28).
    apply atob_length in Hd.
    pose proof (N.div_mod (N.of_nat (length str)) 4). lia.
  - intros Hal Hlen Hmod.
    assert (Hm4 : N.of_nat (length str) mod 4 = 0).
    { pose proof (Nat.div_mod_eq (length str) 4).
      rewrite Hmod in H. rewrite H, Nat.add_0_r, Nat2N.inj_mul, N.mul_comm.
      apply N.Div0.mod_mul. }
    unfold CryptoUtils.isBase64.
    destruct str as [|c t]; [cbn in Hlen; lia|].
    cbn [truthy negb]. rewrite Hm4. cbn [N.eqb negb].
    assert (Hre : CryptoUtils.base64Regex_test (c :: t) = true).
    { inversion Hal as [|? ? Hc Ht]; subst.
      cbn [CryptoUtils.base64Regex_test]. rewrite Hc.
      rewrite <- (app_nil_r t), skip_alphabet_app by auto. reflexivity. }
    rewrite Hre. cbn [negb].
    unfold Base64.atob, Base64.decode.
    rewrite filter_all
      by (eapply Forall_impl; [|exact Hal]; intros x Hx; cbv beta;
          now rewrite alphabet_not_whitespace).
    rewrite strip_padding_alphabet by assumption.
    rewrite Hm4. cbn [N.eqb].
    destruct (sextets_alphabet _ Hal) as [l Hl]. rewrite Hl.
    cbn [option_map]. rewrite length_map.
    pose proof (sextets_length _ _ Hl) as Hll.
    pose proof (Nat.div_mod_eq (length (c :: t)) 4) as Hdm.
    rewrite Hmod, Nat.add_0_r in Hdm.
    rewrite (proj2 (decode_sextets_length l) (length (c :: t) / 4)%nat)
      by (rewrite Hll; exact Hdm).
    destruct (N.ltb_spec (N.of_nat (3 * (length (c :: t) / 4))%nat) 28);
      [lia | reflexivity].
Qed.

Lemma isBase64_by_form_witness :
  CryptoUtils.isBase64 (JString (js "hunter2")) = false /\
  CryptoUtils.isBase64
    (JString (js "ThisIsJustALongPlainPasswordOf40Letters1")) = true.
Proof.
  split.
  - apply (isBase64_by_form (js "hunter2")). vm_compute. lia.
  - apply (isBase64_by_form (js "ThisIsJustALongPlainPasswordOf40Letters1")).
    + repeat constructor.
    + vm_compute. lia.
    + reflexivity.
Defined.

(** ** Backup and restore *)

(** A backup restored into any store, however different, is accepted,
    and a backup taken afterwards lists the same environments and
    accounts.  The restore writes these two entries only: the security
    configuration of the receiving store (the salt its key is derived
    with), its legacy passphrase, its update backup and its session stay
    as they were, so the restored secrets come without the configuration
    they were sealed under. *)
Theorem restore_of_backup (w w2 : World) (v v2 : jsstring)
    (b : BackgroundData.backup_data) :
  fst (BackgroundData.backupData v w) = Ok b ->
  snd (BackgroundData.backupData v w) = w /\
  fst (BackgroundData.restoreData (BackgroundData.restore_request b) w2)
  = Ok BackgroundData.RestoreOk /\
  (exists b2,
     fst (BackgroundData.backupData v2
            (snd (BackgroundData.restoreData
                    (BackgroundData.restore_request b) w2))) = Ok b2 /\
     BackgroundData.br_environments b2 = BackgroundData.br_environments b /\
     BackgroundData.br_accounts b2 = BackgroundData.br_accounts b) /\
  securityConfig (local (snd (BackgroundData.restoreData
                                (BackgroundData.restore_request b) w2)))
  = securityConfig (local w2) /\
  masterPassword (local (snd (BackgroundData.restoreData
                                (BackgroundData.restore_request b) w2)))
  = masterPassword (local w2) /\
  backup_v1_2_0 (local (snd (BackgroundData.restoreData
                               (BackgroundData.restore_request b) w2)))
  = backup_v1_2_0 (local w2) /\
  session (snd (BackgroundData.restoreData
                  (BackgroundData.restore_request b) w2)) = session w2 /\
  sessionKey (snd (BackgroundData.restoreData
                     (BackgroundData.restore_request b) w2)) = sessionKey w2.
Proof.
  intros Hb. cbn in Hb. injection Hb as <-.
  repeat split. eexists. repeat split.
Qed.

Lemma restore_of_backup_witness :
  securityConfig
    (local (snd (BackgroundData.restoreData
                   (BackgroundData.restore_request
                      (BackgroundData.mkBackupData (js "2.0.0")
                         (now Toy.legacy_world) []
                         [Toy.alice; Toy.bob]))
                   Toy.world0)))
  = securityConfig (local Toy.world0).
Proof.
  apply (restore_of_backup Toy.legacy_world Toy.world0 (js "2.0.0")
           (js "2.0.0")).
  reflexivity.
Defined.

(** A [restoreData] message without data, or whose environments or
    accounts are not an array, is refused and changes nothing. *)
Theorem restore_refuses_malformed (w : World)
    (data : option BackgroundData.restore_data) :
  (data = None \/
   (exists d, data = Some d /\
      (BackgroundData.rd_environments d = None \/
       BackgroundData.rd_accounts d = None))) ->
  BackgroundData.restoreData data w = (Ok BackgroundData.RestoreInvalid, w).
Proof.
  intros [-> | (d & -> & H)]; [reflexivity|].
  destruct d as [[e|] [a|]]; cbn in H; destruct H as [H|H];
    try discriminate H; reflexivity.
Qed.

Lemma restore_refuses_malformed_witness :
  BackgroundData.restoreData
    (Some (BackgroundData.mkRestoreData (Some []) None)) Toy.legacy_world
  = (Ok BackgroundData.RestoreInvalid, Toy.legacy_world).
Proof.
  apply (restore_refuses_malformed Toy.legacy_world).
  right. eexists. split; [reflexivity|]. right. reflexivity.
Defined.

(** An update of the extension over a store without a legacy passphrase
    (absent, or the empty string) writes no backup and changes nothing. *)
Theorem update_without_legacy_data (w : World) :
  (masterPassword (local w) = None \/ masterPassword (local w) = Some []) ->
  Background.onInstalled_update w = (Ok tt, w).
Proof.
  intros H.
  unfold Background.onInstalled_update, Background.checkNeedsMigration,
    bind, gets, ret.
  destruct H as [-> | ->]; reflexivity.
Qed.

Lemma update_without_legacy_data_witness :
  Background.onInstalled_update Toy.world0 = (Ok tt, Toy.world0).
Proof.
  apply (update_without_legacy_data Toy.world0). left. reflexivity.
Defined.

(** ** The session as the pages see it *)

Lemma importKey_raw_32 (k : bytes) :
  length k = 32%nat -> SessionClient.importKey_raw k = Some k.
Proof. intros H. unfold SessionClient.importKey_raw. now rewrite H. Qed.

Lemma client_getSessionKey_answer (raw : bytes) (w w' : World) :
  length raw = 32%nat ->
  Background.getSessionKey w
  = (Ok (Background.mkResponse true (Some (Base64.encode raw))), w') ->
  SessionClient.getSessionKey w = (Ok (Some raw), w').
Proof.
  intros Hraw H.
  unfold SessionClient.getSessionKey, try_catch, bind.
  rewrite H. cbn [Background.r_keyData].
  rewrite (exported_key_truthy raw Hraw).
  rewrite SM_base64ToArrayBuffer_encode.
  now rewrite (importKey_raw_32 raw Hraw).
Qed.

Lemma not_expired_by_rule (tz : TimeZone) (m : jsstring) (c dt : Z) :
  (m = js "default" /\ (dt <= 30 * 60 * 1000)%Z) \/
  (m = js "today" /\
   ((c + utc_offset tz c) / 86400000
    = (c + dt + utc_offset tz (c + dt)) / 86400000)%Z) \/
  (m <> js "default" /\ m <> js "today") ->
  Background.expired tz m c (c + dt) = false.
Proof.
  intros Hrule.
  destruct (Background.expired tz m c (c + dt)) eqn:X; [|reflexivity].
  destruct Hrule as [[Hm Hdt] | [[Hm Hday] | [Hm1 Hm2]]].
  - rewrite Hm in X. apply expired_default in X. lia.
  - rewrite Hm in X. apply expired_today in X.
    unfold Background.local_day in X. contradiction.
  - now rewrite expired_other in X.
Qed.

(** After a successful verification every page obtains, through
    [SecurityManager.getSessionKey], the very key that the verification
    returned: at once from the memory of the service worker; and after a
    restart of the worker from the mirror, as long as the alarm has not
    been delivered and the session has not expired by its mode (more than
    30 minutes for 'default', another local calendar day for 'today',
    never for another mode).  Once the alarm has been delivered the pages
    obtain null. *)
Theorem unlock_then_getSessionKey (wc : WebCrypto) (w : World)
    (inputPassword mode : jsstring) (o : SecurityManager.outcome) (dt : Z) :
  pbkdf2_length wc ->
  fst (SecurityManager.verifyMasterPassword inputPassword mode w) = Ok o ->
  SecurityManager.success o = true ->
  SecurityManager.key o <> None /\
  SessionClient.getSessionKey
    (snd (SecurityManager.verifyMasterPassword inputPassword mode w))
  = (Ok (SecurityManager.key o),
     snd (SecurityManager.verifyMasterPassword inputPassword mode w)) /\
  ((Background.or_default mode = js "default" /\ (dt <= 30 * 60 * 1000)%Z) \/
   (Background.or_default mode = js "today" /\
    ((now w + utc_offset (tz_offset w) (now w)) / 86400000
     = (now w + dt + utc_offset (tz_offset w) (now w + dt)) / 86400000)%Z) \/
   (Background.or_default mode <> js "default" /\
    Background.or_default mode <> js "today") ->
   fst (SessionClient.getSessionKey
          (Background.tick dt
             (Background.restart
                (snd (SecurityManager.verifyMasterPassword inputPassword
                        mode w)))))
   = Ok (SecurityManager.key o)) /\
  (forall ta,
      alarm (snd (SecurityManager.verifyMasterPassword inputPassword mode w))
      = Some ta ->
      (ta <= now w + dt)%Z ->
      fst (SessionClient.getSessionKey
             (Background.alarm_fires
                (Background.tick dt
                   (Background.restart
                      (snd (SecurityManager.verifyMasterPassword inputPassword
                              mode w))))))
      = Ok None).
Proof.
  intros Hlen. rewrite verifyMasterPassword_run.
  destruct (securityConfig (local w)) as [config|];
    [|cbn [fst]; intros [= <-]; discriminate].
  cbn [fst snd]. intros [= <-] Hs.
  destruct (proj1 (verification_outcome_key config inputPassword) Hs)
    as (salt & _ & Ho).
  rewrite Ho. cbn [SecurityManager.key].
  set (k := SecurityManager.deriveKey inputPassword (map byte_of_N salt)).
  assert (Hk32 : length k = 32%nat) by apply Hlen.
  split; [discriminate|]. split; [|split].
  - apply client_getSessionKey_answer; [assumption|].
    apply getSessionKey_memory; [apply setSessionKey_memory|].
    now apply exported_key_truthy.
  - intros Hrule.
    erewrite client_getSessionKey_answer; [reflexivity | assumption |].
    rewrite (getSessionKey_after_restart w (Base64.encode k) mode dt
               (exported_key_truthy k Hk32)).
    cbv zeta. rewrite (not_expired_by_rule _ _ _ _ Hrule). reflexivity.
  - intros ta Ha Hta.
    set (w2 := Background.tick dt
                 (Background.restart
                    (snd (Background.setSessionKey (Base64.encode k) mode w)))).
    destruct (restarted_world dt
                (snd (Background.setSessionKey (Base64.encode k) mode w)))
      as (_ & _ & Hn & _).
    destruct (setSessionKey_clock (Base64.encode k) mode w) as [Hn1 _].
    assert (Hta' : (ta <= now w2)%Z) by (unfold w2; rewrite Hn, Hn1; exact Hta).
    destruct (alarm_fires_due w2 ta Ha Hta') as (Hmem & Hmir & _).
    unfold SessionClient.getSessionKey, try_catch, bind.
    now rewrite (getSessionKey_locked _ Hmem Hmir).
Qed.

Lemma unlock_then_getSessionKey_witness :
  fst (SessionClient.getSessionKey
         (Background.tick 86400000
            (Background.restart
               (snd (SecurityManager.verifyMasterPassword (wc := Toy.toy)
                       (js "Abcd1234") (js "today")
                       (store_config (Toy.config_with 120000 Toy.salt0 Toy.iv0)
                          Toy.world_new_york))))))
  = Ok (SecurityManager.key
          (verification_outcome (wc := Toy.toy)
             (Toy.config_with 120000 Toy.salt0 Toy.iv0) (js "Abcd1234"))).
Proof.
  refine (proj1 (proj2 (proj2 (unlock_then_getSessionKey Toy.toy
           (store_config (Toy.config_with 120000 Toy.salt0 Toy.iv0)
              Toy.world_new_york)
           (js "Abcd1234") (js "today")
           (verification_outcome (wc := Toy.toy)
              (Toy.config_with 120000 Toy.salt0 Toy.iv0) (js "Abcd1234"))
           86400000 toy_pbkdf2_length _ _))) _).
  - vm_compute. reflexivity.
  - vm_compute. reflexivity.
  - right. left. split; reflexivity.
Defined.

(** [SecurityManager.clearSession] locks the vault for every page: a
    later [SecurityManager.getSessionKey] gives null, whatever the session
    was, at any later time and also after a restart of the worker. *)
Theorem client_clearSession_locks (w : World) (dt : Z) :
  fst (SessionClient.getSessionKey
         (Background.tick dt (snd (SessionClient.clearSession w)))) = Ok None /\
  fst (SessionClient.getSessionKey
         (Background.tick dt
            (Background.restart (snd (SessionClient.clearSession w)))))
  = Ok None /\
  local (snd (SessionClient.clearSession w)) = local w.
Proof. repeat split. Qed.

(** ** The password rules *)

Lemma validatePasswordStrength_valid (password : jsstring) :
  fst (SecurityManager.validatePasswordStrength password) = true <->
  (8 <= length password)%nat /\
  Validation.has_upper password = true /\
  Validation.has_lower password = true /\
  Validation.has_digit password = true.
Proof.
  unfold SecurityManager.validatePasswordStrength,
    SecurityManager.PASSWORD_MIN_LENGTH,
    Validation.has_upper, Validation.has_lower, Validation.has_digit,
    Validation.is_upper, Validation.is_lower, Validation.is_digit.
  cbv zeta.
  destruct password as [|c t].
  { cbn [truthy negb fst length]. split; [discriminate | intros [H _]; lia]. }
  cbn [truthy negb].
  destruct (N.ltb_spec (N.of_nat (length (c :: t))) 8) as [Hl|Hl].
  { cbn [fst]. split; [discriminate | intros [H _]; lia]. }
  destruct (existsb (fun c0 => (65 <=? c0) && (c0 <=? 90)) (c :: t));
  destruct (existsb (fun c0 => (97 <=? c0) && (c0 <=? 122)) (c :: t));
  destruct (existsb (fun c0 => (48 <=? c0) && (c0 <=? 57)) (c :: t));
    cbn [negb fst];
    (split; [intros ?; try discriminate; repeat split; lia
            | intros (_ & ? & ? & ?); try discriminate; reflexivity]).
Qed.

(** The two validators of a master passphrase, the one of
    [utils/validation.js] and the one of [SecurityManager], accept the
    same strings: those of at least 8 code units with an upper-case
    letter, a lower-case letter and a digit.  Only the messages of a
    refusal for a missing class differ. *)
Theorem password_validators_agree (password : jsstring) :
  fst (Validation.validateMasterPassword password)
  = fst (SecurityManager.validatePasswordStrength password) /\
  (fst (SecurityManager.validatePasswordStrength password) = true <->
   (8 <= length password)%nat /\
   Validation.has_upper password = true /\
   Validation.has_lower password = true /\
   Validation.has_digit password = true) /\
  (snd (Validation.validateMasterPassword password) = Validation.MsgEmpty <->
   snd (SecurityManager.validatePasswordStrength password)
   = SecurityManager.MsgEmptyPassword) /\
  (snd (Validation.validateMasterPassword password) = Validation.MsgTooShort <->
   snd (SecurityManager.validatePasswordStrength password)
   = SecurityManager.MsgTooShort).
Proof.
  unfold Validation.validateMasterPassword,
    SecurityManager.validatePasswordStrength,
    SecurityManager.PASSWORD_MIN_LENGTH,
    Validation.has_upper, Validation.has_lower, Validation.has_digit,
    Validation.is_upper, Validation.is_lower, Validation.is_digit.
  cbv zeta.
  destruct password as [|c t].
  { cbn [truthy negb fst snd length].
    repeat split; try discriminate; try reflexivity;
      try (intros [H _]; lia). }
  cbn [truthy negb].
  destruct (N.ltb_spec (N.of_nat (length (c :: t))) 8) as [Hl|Hl].
  { cbn [fst snd]. repeat split; try discriminate; try reflexivity;
      try (intros [H _]; lia). }
  destruct (existsb (fun c0 => (65 <=? c0) && (c0 <=? 90)) (c :: t));
  destruct (existsb (fun c0 => (97 <=? c0) && (c0 <=? 122)) (c :: t));
  destruct (existsb (fun c0 => (48 <=? c0) && (c0 <=? 57)) (c :: t));
    cbn [negb orb fst snd];
    repeat split; try discriminate; try reflexivity; try lia;
    try (now intros (_ & ? & ? & ?)).
Qed.

Lemma bump_le (b : bool) (n : N) :
  n <= Validation.bump b n <= n + 1.
Proof. destruct b; cbn [Validation.bump]; lia. Qed.

(** The strength meter against the passphrase rule: the score is at
    most 7; every string that the validators accept as a master
    passphrase scores at least 4 and is never rated weak; and the rating
    'very strong' is given exactly to the accepted passphrases of 16 or
    more code units that also hold a character other than a letter or a
    digit. *)
Theorem strength_of_valid_password (password : jsstring) :
  snd (Validation.checkPasswordStrength password) <= 7 /\
  (fst (SecurityManager.validatePasswordStrength password) = true ->
   4 <= snd (Validation.checkPasswordStrength password) /\
   fst (Validation.checkPasswordStrength password) <> Validation.Weak /\
   fst (Validation.checkPasswordStrength password) <> Validation.StrengthNone) /\
  (fst (Validation.checkPasswordStrength password) = Validation.VeryStrong <->
   fst (SecurityManager.validatePasswordStrength password) = true /\
   (16 <= length password)%nat /\
   Validation.has_other password = true).
Proof.
  rewrite validatePasswordStrength_valid.
  unfold Validation.checkPasswordStrength. cbv zeta.
  destruct password as [|c t].
  { cbn [truthy negb fst snd length].
    repeat split; try lia; try discriminate;
      try (intros (? & _); lia); try (intros ((? & _) & _); lia). }
  cbn [truthy negb fst snd].
  set (p := c :: t).
  destruct (N.leb_spec 8 (N.of_nat (length p)));
  destruct (N.leb_spec 12 (N.of_nat (length p)));
  destruct (N.leb_spec 16 (N.of_nat (length p))); try lia;
  destruct (Validation.has_lower p);
  destruct (Validation.has_upper p);
  destruct (Validation.has_digit p);
  destruct (Validation.has_other p);
    cbn [Validation.bump N.add N.leb N.compare Pos.add Pos.succ Pos.compare
         Pos.compare_cont];
    (split; [lia|]);
    (split; [intros (? & ? & ? & ?); try discriminate;
             repeat split; try lia; discriminate |]);
    (split; [intros ?; try discriminate; repeat split; lia
            | intros ((? & ? & ? & ?) & ? & ?); try discriminate; try lia;
              reflexivity]).
Qed.

Lemma strength_of_valid_password_witness :
  4 <= snd (Validation.checkPasswordStrength (js "Abcd1234")).
Proof.
  apply (proj1 (proj2 (strength_of_valid_password (js "Abcd1234")))).
  reflexivity.
Defined.

(** ** The URL matchers *)

Lemma startsWith_app (p r : jsstring) : startsWith (p ++ r) p = true.
Proof.
  induction p as [|a p IH]; [reflexivity|].
  cbn [app startsWith]. now rewrite N.eqb_refl, IH.
Qed.

Lemma endsWith_app (b p : jsstring) : endsWith (b ++ p) p = true.
Proof. unfold endsWith. rewrite rev_app_distr. apply startsWith_app. Qed.

Lemma slice_0_minus2_app (b : jsstring) (x y : N) :
  slice_0_minus2 (b ++ [x; y]) = b.
Proof.
  unfold slice_0_minus2. rewrite length_app. cbn [length].
  replace (length b + 2 - 2)%nat with (length b + 0)%nat by lia.
  rewrite firstn_app_2. cbn [firstn]. apply app_nil_r.
Qed.

Lemma strip_trailing_slash_app (b r : jsstring) :
  r <> [] -> strip_trailing_slash (b ++ r) = b ++ strip_trailing_slash r.
Proof.
  intros Hr. unfold strip_trailing_slash. rewrite rev_app_distr.
  destruct (rev r) as [|c t] eqn:E.
  { apply (f_equal (@rev N)) in E. rewrite rev_involutive in E.
    now destruct Hr. }
  cbn [app]. destruct (c =? 47); [|reflexivity].
  now rewrite rev_app_distr, rev_involutive.
Qed.

Lemma strip_trailing_slash_star (b : jsstring) :
  strip_trailing_slash (b ++ js "/*") = b ++ js "/*".
Proof.
  rewrite strip_trailing_slash_app by discriminate. reflexivity.
Qed.

Lemma first_match_agree (parseURL : jsstring -> option URL)
    (cur : jsstring) (envs : list Environment) :
  Forall (fun env => truthy (env_loginUrl env) = true ->
                     parseURL (env_loginUrl env) <> None) envs ->
  StoreMatcher.first_match parseURL cur envs
  = UrlMatcher.first_match parseURL cur envs.
Proof.
  induction 1 as [|env rest Henv _ IH]; [reflexivity|].
  cbn [StoreMatcher.first_match UrlMatcher.first_match].
  destruct (truthy (env_loginUrl env)); cbn [negb]; [|exact IH].
  unfold UrlMatcher.normalizeUrl.
  destruct (parseURL (env_loginUrl env)) as [u|]; [|now destruct Henv].
  cbv zeta. now rewrite IH.
Qed.

(** The matcher of [url-matcher.js] and the matcher that background.js
    and the content script carry give the same answer on the stored
    environments, for every current URL, whenever every non-empty login
    URL of the store parses; the store is not changed. *)
Theorem url_matchers_agree (parseURL : jsstring -> option URL) (w : World)
    (currentUrl : jsstring) (envs : list Environment) :
  environments (local w) = Some envs ->
  Forall (fun env => truthy (env_loginUrl env) = true ->
                     parseURL (env_loginUrl env) <> None) envs ->
  StoreMatcher.matchEnvironment parseURL currentUrl w
  = (Ok (UrlMatcher.matchEnvironment parseURL currentUrl (Some envs)), w).
Proof.
  intros Hst Hall.
  unfold StoreMatcher.matchEnvironment, UrlMatcher.matchEnvironment.
  destruct (truthy currentUrl); cbn [negb]; [|reflexivity].
  unfold try_catch, bind, gets, ret. rewrite Hst.
  rewrite (first_match_agree parseURL _ envs Hall).
  reflexivity.
Qed.

Lemma url_matchers_agree_witness :
  StoreMatcher.matchEnvironment ToyURL.parse
    (js "https://example.com/login/")
    (ToyURL.with_environments [ToyURL.login_env; ToyURL.wildcard_env]
       Toy.world0)
  = (Ok (UrlMatcher.matchEnvironment ToyURL.parse
           (js "https://example.com/login/")
           (Some [ToyURL.login_env; ToyURL.wildcard_env])),
     ToyURL.with_environments [ToyURL.login_env; ToyURL.wildcard_env]
       Toy.world0).
Proof.
  apply (url_matchers_agree ToyURL.parse).
  - reflexivity.
  - repeat constructor; discriminate.
Defined.

(** Where they differ: an environment whose login URL does not parse is
    skipped by the matcher of background.js, but [url-matcher.js] compares
    the raw string.  If it ends in [/*] and the environment is the first
    of the list, it is the match for every current URL whose normalised
    form begins with the rest of it; the login URL [/*] makes it the match
    for every page. *)
Theorem unparseable_login_url (parseURL : jsstring -> option URL)
    (w : World) (currentUrl base : jsstring) (env : Environment)
    (rest : list Environment) :
  truthy currentUrl = true ->
  env_loginUrl env = base ++ js "/*" ->
  parseURL (env_loginUrl env) = None ->
  startsWith (UrlMatcher.normalizeUrl parseURL currentUrl) base = true ->
  environments (local w) = Some (env :: rest) ->
  UrlMatcher.matchEnvironment parseURL currentUrl (Some (env :: rest))
  = Some env /\
  fst (StoreMatcher.matchEnvironment parseURL currentUrl w)
  = Ok (StoreMatcher.first_match parseURL
          (UrlMatcher.normalizeUrl parseURL currentUrl) rest).
Proof.
  intros Hcur Hurl Hparse Hpre Hst.
  set (nc := UrlMatcher.normalizeUrl parseURL currentUrl) in *.
  split.
  - unfold UrlMatcher.matchEnvironment. rewrite Hcur. cbn [negb].
    fold nc. cbn [UrlMatcher.first_match].
    assert (Ht : truthy (env_loginUrl env) = true).
    { rewrite Hurl. destruct base; reflexivity. }
    rewrite Ht. cbn [negb]. cbv zeta.
    unfold UrlMatcher.normalizeUrl. rewrite Hparse, Hurl.
    rewrite endsWith_app.
    change (js "/*") with [47; 42]. rewrite slice_0_minus2_app, Hpre.
    cbn [andb]. now destruct (str_eqb _ _).
  - unfold StoreMatcher.matchEnvironment. rewrite Hcur. cbn [negb].
    unfold try_catch, bind, gets, ret. rewrite Hst. cbn [fst].
    cbn [StoreMatcher.first_match]. rewrite Hparse.
    unfold nc, UrlMatcher.normalizeUrl.
    now destruct (negb (truthy (env_loginUrl env))).
Qed.

Lemma unparseable_login_url_witness :
  UrlMatcher.matchEnvironment ToyURL.parse
    (js "https://example.com.evil.org/login?next=1")
    (Some [ToyURL.relative_env])
  = Some ToyURL.relative_env /\
  fst (StoreMatcher.matchEnvironment ToyURL.parse
         (js "https://example.com.evil.org/login?next=1")
         (ToyURL.with_environments [ToyURL.relative_env] Toy.world0))
  = Ok None.
Proof.
  apply (unparseable_login_url ToyURL.parse
           (ToyURL.with_environments [ToyURL.relative_env] Toy.world0)
           (js "https://example.com.evil.org/login?next=1") []
           ToyURL.relative_env []); reflexivity.
Defined.

(** The wildcard is a prefix test on strings and knows nothing of the
    parts of a URL: an environment registered as [scheme://host/*]
    matches every page of the same scheme whose host merely begins with
    that host.  Both matchers answer with it when it is the first
    environment of the store. *)
Theorem wildcard_crosses_host (parseURL : jsstring -> option URL)
    (w : World) (currentUrl extra : jsstring) (env : Environment)
    (rest : list Environment) (envUrl url : URL) :
  truthy currentUrl = true ->
  truthy (env_loginUrl env) = true ->
  parseURL (env_loginUrl env) = Some envUrl ->
  url_pathname envUrl = js "/*" ->
  parseURL currentUrl = Some url ->
  url_protocol url = url_protocol envUrl ->
  url_host url = url_host envUrl ++ extra ->
  extra <> [] ->
  environments (local w) = Some (env :: rest) ->
  UrlMatcher.matchEnvironment parseURL currentUrl (Some (env :: rest))
  = Some env /\
  fst (StoreMatcher.matchEnvironment parseURL currentUrl w) = Ok (Some env).
Proof.
  intros Hcur Ht Hpe Hpath Hpc Hproto Hhost Hextra Hst.
  assert (Henv : UrlMatcher.normalized envUrl
                 = (url_protocol envUrl ++ js "//" ++ url_host envUrl)
                   ++ js "/*").
  { unfold UrlMatcher.normalized. rewrite Hpath.
    rewrite !app_assoc. apply strip_trailing_slash_star. }
  assert (Hnc : startsWith (UrlMatcher.normalized url)
                  (url_protocol envUrl ++ js "//" ++ url_host envUrl) = true).
  { unfold UrlMatcher.normalized. rewrite Hproto, Hhost.
    replace (url_protocol envUrl ++ js "//" ++ (url_host envUrl ++ extra)
             ++ url_pathname url)
      with ((url_protocol envUrl ++ js "//" ++ url_host envUrl)
            ++ (extra ++ url_pathname url))
      by now rewrite <- !app_assoc.
    rewrite strip_trailing_slash_app
      by (destruct extra; [now destruct Hextra | discriminate]).
    apply startsWith_app. }
  assert (Hm : UrlMatcher.first_match parseURL (UrlMatcher.normalized url)
                 (env :: rest) = Some env).
  { cbn [UrlMatcher.first_match]. rewrite Ht. cbn [negb]. cbv zeta.
    unfold UrlMatcher.normalizeUrl. rewrite Hpe, Henv.
    rewrite endsWith_app.
    change (js "/*") with [47; 42]. rewrite slice_0_minus2_app, Hnc.
    cbn [andb]. now destruct (str_eqb _ _). }
  split.
  - unfold UrlMatcher.matchEnvironment. rewrite Hcur. cbn [negb].
    unfold UrlMatcher.normalizeUrl at 1. rewrite Hpc. exact Hm.
  - unfold StoreMatcher.matchEnvironment. rewrite Hcur. cbn [negb].
    unfold try_catch, bind, gets, ret. rewrite Hst, Hpc. cbn [fst].
    f_equal. rewrite <- Hm.
    cbn [StoreMatcher.first_match UrlMatcher.first_match].
    rewrite Ht. cbn [negb]. unfold UrlMatcher.normalizeUrl.
    rewrite Hpe. cbv zeta.
    destruct (str_eqb _ _); [reflexivity|].
    rewrite Henv, endsWith_app.
    change (js "/*") with [47; 42]. rewrite slice_0_minus2_app, Hnc.
    reflexivity.
Qed.

Lemma wildcard_crosses_host_witness :
  UrlMatcher.matchEnvironment ToyURL.parse
    (js "https://example.com.evil.org/login?next=1")
    (Some [ToyURL.wildcard_env; ToyURL.login_env])
  = Some ToyURL.wildcard_env /\
  fst (StoreMatcher.matchEnvironment ToyURL.parse
         (js "https://example.com.evil.org/login?next=1")
         (ToyURL.with_environments [ToyURL.wildcard_env; ToyURL.login_env]
            Toy.world0))
  = Ok (Some ToyURL.wildcard_env).
Proof.
  apply (wildcard_crosses_host ToyURL.parse
           (ToyURL.with_environments [ToyURL.wildcard_env; ToyURL.login_env]
              Toy.world0)
           (js "https://example.com.evil.org/login?next=1")
           (js ".evil.org") ToyURL.wildcard_env [ToyURL.login_env]
           (mkURL (js "https:") (js "example.com") (js "/*"))
           (mkURL (js "https:") (js "example.com.evil.org") (js "/login")));
    try reflexivity.
  discriminate.
Defined.
